(** * NavAI planner and session orchestrator: a shallow embedding

    Sources embedded here:
    - [shared/types.ts]   the data model;
    - [shared/planner.ts] [tokenize], [detectPhase], [score], [actionFor],
      [instructionFor], [heuristicPlan], [isSuccessPage], [llmPlan];
    - the background service worker that carries the [completed] latch
      ([plan], [isStuck], [processTab] and the message listener);
    - the end of [extractPage] in the content script (sort, cap, numbering
      and the fields of an element).

    Modelling conventions.
    - JavaScript strings are [string]s of 8-bit characters; [toLowerCase]
      acts on the letters A-Z, the regular-expression classes [\w] and
      [\d] are the ASCII ones, and white space ([\s], [trim]) is the
      characters 9 to 13, 32 and 160.
    - JavaScript numbers that hold counters, indices, scores and pixel
      measures are [Z]; string lengths are [nat].
    - An optional field [f?: T] is an [option T]; [undefined] is [None].
    - Arrays are lists; [push] appends at the end.
    - The worker is followed through one lifetime, as a sequence of events
      of the event loop, at two grains.  In [handle] a run of [processTab]
      is two events: its entry, up to the first [await], and the rest,
      taken in one step; that is the run during which the event loop runs
      nothing else.  In [tick] every [await] is a place where a function is
      put aside, and a listener or another function may run before it goes
      on.  The answers of the outside world (tab lookup, the content
      script's reply, the HTTP exchange with the model, delivery of
      SHOW_STEP) are inputs; an answer that never comes is an event that
      never occurs.  Writes to storage are taken to succeed, and replies to
      the sender of a message are left out. *)

From Stdlib Require Import ZArith List Bool String Ascii Lia Sorted.
Import ListNotations.

Open Scope string_scope.
Open Scope Z_scope.

(** ** JavaScript string primitives *)

Module Js.

Definition dquote : string := String "034"%char EmptyString.

Definition lowerChar (c : ascii) : ascii :=
  let n := nat_of_ascii c in
  if (Nat.leb 65 n && Nat.leb n 90)%bool then ascii_of_nat (n + 32) else c.

Fixpoint toLowerCase (s : string) : string :=
  match s with
  | EmptyString => EmptyString
  | String c s' => String (lowerChar c) (toLowerCase s')
  end.

(** [s.includes(t)] *)
Fixpoint includes (s t : string) : bool :=
  if String.prefix t s then true
  else match s with
       | EmptyString => false
       | String _ s' => includes s' t
       end.

(** [s.substring(0, n)] *)
Definition substring0 (n : nat) (s : string) : string := String.substring 0 n s.

(** [xs.join(sep)] *)
Fixpoint join (sep : string) (xs : list string) : string :=
  match xs with
  | [] => EmptyString
  | [x] => x
  | x :: rest => x ++ sep ++ join sep rest
  end.

(** truthiness of a string: non-empty *)
Definition truthy (s : string) : bool :=
  match s with EmptyString => false | _ => true end.

(** [a || b] on strings *)
Definition orElse (a b : string) : string := if truthy a then a else b.

(** [o ?? d] *)
Definition nullish {A} (o : option A) (d : A) : A :=
  match o with Some a => a | None => d end.

(** truthiness of an optional boolean: [undefined] is falsy *)
Definition optTrue (o : option bool) : bool := nullish o false.

(** [o === 'lit'] for an optional string *)
Definition optIs (o : option string) (lit : string) : bool :=
  match o with Some s => String.eqb s lit | None => false end.

Definition isDigit (c : ascii) : bool :=
  let n := nat_of_ascii c in (Nat.leb 48 n && Nat.leb n 57)%bool.

Definition isLowerAlnum (c : ascii) : bool :=
  let n := nat_of_ascii c in
  ((Nat.leb 97 n && Nat.leb n 122) || isDigit c)%bool.

(** [\w] *)
Definition isWord (c : ascii) : bool :=
  let n := nat_of_ascii c in
  ((Nat.leb 97 n && Nat.leb n 122) || (Nat.leb 65 n && Nat.leb n 90)
   || isDigit c || Nat.eqb n 95)%bool.

(** [\s], which is also the white space that [trim] strips: among the
    8-bit characters, 9 to 13, the space and the no-break space (160) *)
Definition isSpace (c : ascii) : bool :=
  let n := nat_of_ascii c in
  ((Nat.leb 9 n && Nat.leb n 13) || Nat.eqb n 32 || Nat.eqb n 160)%bool.

Definition startsWithSpace (s : string) : bool :=
  match s with String c _ => isSpace c | EmptyString => false end.

(** [s.split(/\s+/)]: the pieces between maximal runs of white space, the
    empty pieces at both ends included. *)
Fixpoint splitSpaces (s : string) : list string :=
  match s with
  | EmptyString => [EmptyString]
  | String c s' =>
      let r := splitSpaces s' in
      if isSpace c then
        if startsWithSpace s' then r else EmptyString :: r
      else
        match r with
        | h :: t => String c h :: t
        | [] => [String c EmptyString]
        end
  end.

(** [s.replace(/[^a-z0-9\s]/g, ' ')] *)
Fixpoint blankNonAlnum (s : string) : string :=
  match s with
  | EmptyString => EmptyString
  | String c s' =>
      String (if (isLowerAlnum c || isSpace c)%bool then c else " "%char)
             (blankNonAlnum s')
  end.

Fixpoint dropSpaces (s : string) : string :=
  match s with
  | String c s' => if isSpace c then dropSpaces s' else s
  | EmptyString => EmptyString
  end.

Fixpoint revString (s acc : string) : string :=
  match s with
  | EmptyString => acc
  | String c s' => revString s' (String c acc)
  end.

(** [s.trim()] *)
Definition trim (s : string) : string :=
  revString (dropSpaces (revString (dropSpaces s) EmptyString)) EmptyString.

(** [parseInt(ds, 10)] on a string of decimal digits *)
Fixpoint parseDigits (ds : string) (acc : Z) : Z :=
  match ds with
  | EmptyString => acc
  | String c ds' => parseDigits ds' (10 * acc + (Z.of_nat (nat_of_ascii c) - 48))
  end.

(** [set.has(x)] for a [Set<string>] built from an array *)
Definition has (set : list string) (x : string) : bool :=
  existsb (String.eqb x) set.

(** [xs.find(p)] *)
Definition find {A} (p : A -> bool) (xs : list A) : option A := List.find p xs.

(** [xs.slice(-n)] *)
Definition sliceLast {A} (n : nat) (xs : list A) : list A :=
  skipn (List.length xs - n) xs.

End Js.

(** ** Data model ([shared/types.ts]) *)

Inductive ActionType := click | type | select | scroll | wait.
Inductive PlannerMode := heuristic | llm.

Definition ActionType_eqb (a b : ActionType) : bool :=
  match a, b with
  | click, click | type, type | select, select | scroll, scroll | wait, wait => true
  | _, _ => false
  end.

Module Rect.
Record t := { top : Z; left : Z; width : Z; height : Z }.
End Rect.

Module PageElement.
Record t := {
  idx : Z;
  tag : string;
  role : string;
  text : string;
  label : string;
  selector : string;
  rect : Rect.t;
  isInput : bool;
  inputType : option string;
  placeholder : option string;
  value : option string;
  isRequired : option bool;
  isFilled : option bool;
  isInViewport : bool;
  isInDialog : bool
}.
End PageElement.
Abbreviation PageElement := PageElement.t.

Module PageData.
Record t := {
  url : string;
  title : string;
  elements : list PageElement;
  hasOpenDialog : bool
}.
End PageData.
Abbreviation PageData := PageData.t.

Module GuidanceStep.
Record t := {
  stepNumber : Z;
  action : ActionType;
  selector : string;
  textHint : string;
  instruction : string
}.
End GuidanceStep.
Abbreviation GuidanceStep := GuidanceStep.t.

Module ActionRecord.
Record t := {
  step : Z;
  action : ActionType;
  selector : string;
  text : string
}.
End ActionRecord.
Abbreviation ActionRecord := ActionRecord.t.

Module SessionState.
Record t := {
  goal : string;
  active : bool;
  completed : bool;
  step : Z;
  current : option GuidanceStep;
  history : list ActionRecord;
  mode : PlannerMode
}.
End SessionState.
Abbreviation SessionState := SessionState.t.

Inductive Provider := openai | anthropic | custom.

Module LLMConfig.
Record t := {
  provider : Provider;
  endpoint : string;
  apiKey : string;
  model : string
}.
End LLMConfig.
Abbreviation LLMConfig := LLMConfig.t.

Inductive Message :=
| START (goal : string) (mode : PlannerMode)
| STOP
| SKIP
| RESCAN
| EXTRACT
| PAGE_DATA (data : PageData)
| SHOW_STEP (step : GuidanceStep)
| HIDE_OVERLAY
| ACTION_DONE (action : ActionType)
| NAV_CHANGE (url : string)
| GET_STATE
| STATE (state : SessionState)
| COMPLETED
| ERROR (msg : string).

(** ** Planner ([shared/planner.ts]) *)

Definition STOP_WORDS : list string :=
  ["a";"an";"the";"for";"to";"of";"in";"on";"and";"or";"is";"my";"i";"it";
   "this";"that";"do";"you";"your";"me";"can";"will";"how"].

Definition tokenize (s : string) : list string :=
  filter (fun w => (Nat.ltb 1 (String.length w) && negb (Js.has STOP_WORDS w))%bool)
         (Js.splitSpaces (Js.blankNonAlnum (Js.toLowerCase s))).

Definition CTA : list string :=
  ["apply";"start";"next";"continue";"submit";"search";"book";"confirm";
   "proceed";"sign in";"log in";"register";"enroll";"flight";"hotel";"add";
   "create";"send";"save";"checkout";"buy";"order";"pay";"begin";
   "get started";"go";"enter";"open"].
Definition PROGRESS : list string :=
  ["next";"continue";"proceed";"submit";"confirm";"done";"finish";"complete";
   "save";"send";"apply"].
Definition PENALTY : list string :=
  ["logout";"log out";"sign out";"cancel";"back";"close";"skip";"no thanks";
   "maybe later";"dismiss";"advertisement";"ad";"cookie";"privacy";"terms";
   "unsubscribe";"decline";"reject"].
Definition LOGIN_WORDS : list string :=
  ["sign in";"log in";"login";"signin";"email";"username";"password"].
Definition SUCCESS_WORDS : list string :=
  ["success";"thank you";"thanks";"congratulations";"confirmed";"complete";
   "submitted";"done";"receipt";"order placed";"booking confirmed";
   "payment received"].

Inductive PagePhase := login | form_fill | navigation | submit_ready | success.

Definition PagePhase_eqb (a b : PagePhase) : bool :=
  match a, b with
  | login, login | form_fill, form_fill | navigation, navigation
  | submit_ready, submit_ready | success, success => true
  | _, _ => false
  end.

Section DetectPhase.
Import PageElement PageData.

(** the callback of [hasEmailInput] *)
Definition emailLike (e : PageElement) : bool :=
  (isInput e &&
   existsb (fun t =>
     Js.includes (Js.nullish (inputType e) EmptyString) t
     || Js.includes (Js.toLowerCase (Js.nullish (placeholder e) EmptyString)) t
     || Js.includes (Js.toLowerCase (label e)) t) ["email"; "username"])%bool.

(** the callback of [hasPasswordInput] *)
Definition passwordLike (e : PageElement) : bool :=
  (isInput e &&
   (Js.optIs (inputType e) "password"
    || Js.includes (Js.toLowerCase (Js.nullish (placeholder e) EmptyString)) "password"))%bool.

Definition pageLower (page : PageData) : string :=
  Js.toLowerCase (title page ++ " " ++ url page).

Definition visibleText (page : PageData) : string :=
  Js.join " " (map (fun e => Js.toLowerCase (text e)) (firstn 20 (elements page))).

(** either of the two loops over [SUCCESS_WORDS] returns 'success' *)
Definition successSignal (page : PageData) : bool :=
  (existsb (fun w => Js.includes (pageLower page) w) SUCCESS_WORDS
   || existsb (fun w => Js.includes (visibleText page) w) SUCCESS_WORDS)%bool.

Definition emptyInput (e : PageElement) : bool :=
  (isInput e && negb (Js.optTrue (isFilled e))
   && negb (Js.optIs (inputType e) "hidden")
   && negb (Js.optIs (inputType e) "submit")
   && negb (Js.optIs (inputType e) "button"))%bool.

Definition filledInput (e : PageElement) : bool :=
  (isInput e && Js.optTrue (isFilled e))%bool.

Definition detectPhase (page : PageData) : PagePhase :=
  if existsb (fun w => Js.includes (pageLower page) w) SUCCESS_WORDS then success
  else if existsb (fun w => Js.includes (visibleText page) w) SUCCESS_WORDS then success
  else
    let hasEmailInput := existsb emailLike (elements page) in
    let hasPasswordInput := existsb passwordLike (elements page) in
    if (hasEmailInput && hasPasswordInput)%bool then login
    else
      let emptyInputs := filter emptyInput (elements page) in
      let filledInputs := filter filledInput (elements page) in
      if Nat.ltb 0 (List.length emptyInputs) then form_fill
      else if Nat.ltb 0 (List.length filledInputs) then submit_ready
      else navigation.

Definition isSuccessPage (page : PageData) : bool :=
  PagePhase_eqb (detectPhase page) success.

End DetectPhase.

(** *** Heuristic scorer *)

(** [if (b) s += n] *)
Definition addIf (b : bool) (n : Z) (s : Z) : Z := if b then s + n else s.

(** [for (const x of xs) body] threading the running score *)
Definition forEach {A} (xs : list A) (body : A -> Z -> Z) (s : Z) : Z :=
  fold_left (fun acc x => body x acc) xs s.

Section Score.
Import PageElement.

Definition emailField (el : PageElement) (ph lbl : string) : bool :=
  (Js.optIs (inputType el) "email" || Js.includes ph "email" || Js.includes lbl "email"
   || Js.includes ph "username" || Js.includes lbl "username")%bool.

Definition passwordField (el : PageElement) (ph lbl : string) : bool :=
  (Js.optIs (inputType el) "password" || Js.includes ph "password"
   || Js.includes lbl "password")%bool.

(** the part of [score] below the dialog scope check *)
Definition scoreBody (el : PageElement) (keywords : list string)
    (phase : PagePhase) (s : Z) : Z :=
  let txt := Js.toLowerCase (text el) in
  let lbl := Js.toLowerCase (label el) in
  let ph := Js.toLowerCase (Js.nullish (placeholder el) EmptyString) in
  let combined := txt ++ " " ++ lbl ++ " " ++ ph in
  let unfilledInput := (isInput el && negb (Js.optTrue (isFilled el)))%bool in
  let filledInput := (isInput el && Js.optTrue (isFilled el))%bool in
  (* Viewport bonus *)
  let s := addIf (isInViewport el) 5 s in
  (* Phase-specific scoring *)
  let s :=
    if PagePhase_eqb phase login then
      let s :=
        if unfilledInput then
          if emailField el ph lbl then s + 40
          else if passwordField el ph lbl then s + 35
          else s
        else s in
      let s := forEach LOGIN_WORDS (fun w => addIf (Js.includes combined w) 15) s in
      if (negb (isInput el) && match isFilled el with None => true | Some _ => false end)%bool
      then forEach LOGIN_WORDS (fun w => addIf (Js.includes combined w) 10) s
      else s
    else s in
  let s :=
    if PagePhase_eqb phase form_fill then
      let s :=
        if unfilledInput then
          let s := s + 25 in
          let s := addIf (Js.optTrue (isRequired el)) 10 s in
          forEach keywords
            (fun k => addIf (Js.includes lbl k || Js.includes ph k) 15) s
        else s in
      addIf filledInput (-30) s
    else s in
  let s :=
    if PagePhase_eqb phase submit_ready then
      let s := forEach PROGRESS (fun w => addIf (Js.includes combined w) 25) s in
      addIf filledInput (-30) s
    else s in
  let s :=
    if PagePhase_eqb phase navigation then
      let s := forEach keywords
                 (fun k s => addIf (Js.includes lbl k) 15
                               (addIf (Js.includes txt k) 20 s)) s in
      forEach CTA (fun c => addIf (Js.includes combined c) 8) s
    else s in
  (* General scoring (all phases) *)
  let s := forEach keywords
             (fun k s => addIf (Js.includes ph k) 8
                           (addIf (Js.includes lbl k) 10
                              (addIf (Js.includes txt k) 12 s))) s in
  let s := forEach CTA (fun c => addIf (Js.includes txt c) 5) s in
  let s := forEach PENALTY (fun p => addIf (Js.includes combined p) (-25)) s in
  let s := addIf (String.eqb (tag el) "button" || String.eqb (role el) "button") 3 s in
  let s := addIf (String.eqb (tag el) "a") 1 s in
  let s := addIf unfilledInput 2 s in
  let s := addIf ((100 <? Rect.width (rect el)) && (30 <? Rect.height (rect el))) 2 s in
  let s := addIf (Rect.top (rect el) <? 600) 1 s in
  s.

Definition score (el : PageElement) (keywords : list string)
    (usedSelectors : list string) (usedTexts : list string)
    (phase : PagePhase) (hasOpenDialog : bool) : Z :=
  let s := 0 in
  if Js.has usedSelectors (selector el) then -1000
  else
    let s :=
      addIf (Nat.ltb 3 (String.length (text el))
             && existsb (fun t => Nat.ltb 3 (String.length t)
                                  && Js.includes t (Js.substring0 20 (text el)))
                        usedTexts) (-50) s in
    if hasOpenDialog then
      if isInDialog el then scoreBody el keywords phase (s + 30)
      else -2000
    else scoreBody el keywords phase s.

Definition actionFor (el : PageElement) : ActionType :=
  if isInput el then
    let t := Js.toLowerCase (Js.nullish (inputType el) "text") in
    if Js.has ["checkbox"; "radio"; "submit"; "button"; "file"] t then click
    else if String.eqb (tag el) "select" then select
    else type
  else if String.eqb (tag el) "select" then select
  else click.

Definition instructionFor (el : PageElement) (action : ActionType)
    (phase : PagePhase) : string :=
  let name :=
    Js.orElse (label el)
      (Js.orElse (Js.substring0 50 (text el))
         (Js.orElse (Js.nullish (placeholder el) EmptyString) "this element")) in
  let general :=
    match action with
    | click => "Click " ++ Js.dquote ++ name ++ Js.dquote
    | type =>
        "Enter your " ++
        Js.orElse (label el) (Js.orElse (Js.nullish (placeholder el) EmptyString) "information")
    | select => "Select an option from " ++ Js.dquote ++ name ++ Js.dquote
    | _ => "Interact with " ++ Js.dquote ++ name ++ Js.dquote
    end in
  if PagePhase_eqb phase login then
    if (Js.optIs (inputType el) "email"
        || Js.includes (Js.toLowerCase (Js.nullish (placeholder el) EmptyString)) "email")%bool
    then "Enter your email address"
    else if Js.optIs (inputType el) "password" then "Enter your password"
    else if ActionType_eqb action click
    then "Click " ++ Js.dquote ++ name ++ Js.dquote ++ " to sign in"
    else general
  else general.

End Score.

(** *** Heuristic planner *)

(** One entry of [ranked]: [{ el, score }]. *)
Module Scored.
Record t := { el : PageElement; score : Z }.
End Scored.
Abbreviation Scored := Scored.t.

(** [ranked.sort((a, b) => b.score - a.score)]: the sort is stable, so an
    entry is placed before the first later entry that does not beat it. *)
Fixpoint insertRanked (x : Scored) (l : list Scored) : list Scored :=
  match l with
  | [] => [x]
  | y :: l' =>
      if Scored.score y <=? Scored.score x then x :: y :: l'
      else y :: insertRanked x l'
  end.

Fixpoint sortRanked (l : list Scored) : list Scored :=
  match l with
  | [] => []
  | x :: l' => insertRanked x (sortRanked l')
  end.

Section HeuristicPlan.
Import PageElement PageData SessionState.

Definition usedSelectorsOf (state : SessionState) : list string :=
  map ActionRecord.selector (history state).

Definition usedTextsOf (state : SessionState) : list string :=
  filter (fun t => Nat.ltb 3 (String.length t)) (map ActionRecord.text (history state)).

(** the score [heuristicPlan] gives an element of [page] *)
Definition scoreIn (page : PageData) (state : SessionState) (el : PageElement) : Z :=
  score el (tokenize (goal state)) (usedSelectorsOf state) (usedTextsOf state)
        (detectPhase page) (hasOpenDialog page).

(** the callback of [page.elements.map(el => ({ el, score: score(...) }))] *)
Definition scored (page : PageData) (state : SessionState) (el : PageElement) : Scored :=
  {| Scored.el := el; Scored.score := scoreIn page state el |}.

Definition ranked (page : PageData) (state : SessionState) : list Scored :=
  sortRanked
    (filter (fun x => -500 <? Scored.score x)
       (map (scored page state) (elements page))).

(** the object literal built on each of the three returning paths *)
Definition stepFor (page : PageData) (state : SessionState) (el : PageElement)
    (action : ActionType) : GuidanceStep :=
  {| GuidanceStep.stepNumber := step state;
     GuidanceStep.action := action;
     GuidanceStep.selector := selector el;
     GuidanceStep.textHint := Js.substring0 60 (text el);
     GuidanceStep.instruction := instructionFor el action (detectPhase page) |}.

Definition fallbackInputPred (usedSelectors : list string) (e : PageElement) : bool :=
  (isInput e && negb (Js.optTrue (isFilled e)) && isInViewport e
   && negb (Js.has usedSelectors (selector e)))%bool.

Definition fallbackButtonPred (usedSelectors : list string) (e : PageElement) : bool :=
  (negb (isInput e) && isInViewport e && negb (Js.has usedSelectors (selector e))
   && (String.eqb (tag e) "button" || String.eqb (role e) "button"
       || String.eqb (tag e) "a"))%bool.

(** the two [find] fallbacks at the end of [heuristicPlan] *)
Definition fallbackPlan (page : PageData) (state : SessionState) : option GuidanceStep :=
  match Js.find (fallbackInputPred (usedSelectorsOf state)) (elements page) with
  | Some fallbackInput => Some (stepFor page state fallbackInput (actionFor fallbackInput))
  | None =>
      match Js.find (fallbackButtonPred (usedSelectorsOf state)) (elements page) with
      | Some fallbackButton => Some (stepFor page state fallbackButton click)
      | None => None
      end
  end.

Definition heuristicPlan (page : PageData) (state : SessionState) : option GuidanceStep :=
  if Nat.eqb (List.length (elements page)) 0 then None
  else
    let phase := detectPhase page in
    if (PagePhase_eqb phase success && (1 <? step state))%bool then None
    else
      match ranked page state with
      | x :: _ =>
          if 0 <? Scored.score x then
            let best := Scored.el x in
            Some (stepFor page state best (actionFor best))
          else fallbackPlan page state
      | [] => fallbackPlan page state
      end.

End HeuristicPlan.

(** *** Language-model planner *)

(** The body of a [try] block either returns or throws; the name of the
    thrown error is kept because the [catch] block of [llmPlan] reads it. *)
Inductive Completion (A : Type) :=
| Return (a : A)
| Throw (name : string).
Arguments Return {A} a.
Arguments Throw {A} name.

(** What [await res.json()] gives once it settles: a rejection, or a
    document of which only the two paths read by [llmPlan] are kept,
    [json.content?.[0]?.text] and [json.choices?.[0]?.message?.content]. *)
Inductive Payload :=
| JsonRejects
| Json (contentText : option string) (choiceText : option string).

(** What [await fetch(url, ...)] gives once it settles: a rejection (a
    network error, or AbortError once the 15000 ms timer fires), or a
    response.  The timer is cleared when the response is there; the body
    is read without a bound. *)
Inductive FetchOutcome :=
| FetchRejects (name : string)
| Response (status : Z) (payload : Payload).

(** [res.ok] *)
Definition responseOk (status : Z) : bool := ((200 <=? status) && (status <=? 299))%bool.

Module Re.

(** a literal matched under the [i] flag; gives what follows it *)
Fixpoint literal (lit s : string) : option string :=
  match lit, s with
  | EmptyString, _ => Some s
  | String a lit', String b s' =>
      if Ascii.eqb (Js.lowerChar a) (Js.lowerChar b) then literal lit' s' else None
  | String _ _, EmptyString => None
  end.

(** the longest prefix made of characters of one class, and the rest *)
Fixpoint span (p : ascii -> bool) (s : string) : string * string :=
  match s with
  | String c s' =>
      if p c then let (a, b) := span p s' in (String c a, b) else (EmptyString, s)
  | EmptyString => (EmptyString, EmptyString)
  end.

(** [<Action>(\w+)\((\d+)?\)<\/Action>] anchored at the start of [s].  The
    character after [\w+] must be an opening parenthesis and the one after
    the digits a closing one, so only the longest runs can match. *)
Definition actionAt (s : string) : option (string * option string) :=
  match literal "<Action>" s with
  | None => None
  | Some r1 =>
      let (name, r2) := span Js.isWord r1 in
      if Js.truthy name then
        match r2 with
        | String "("%char r3 =>
            let (digits, r4) := span Js.isDigit r3 in
            match r4 with
            | String ")"%char r5 =>
                match literal "</Action>" r5 with
                | Some _ => Some (name, if Js.truthy digits then Some digits else None)
                | None => None
                end
            | _ => None
            end
        | _ => None
        end
      else None
  end.

(** [raw.match(/<Action>(\w+)\((\d+)?\)<\/Action>/i)]: the leftmost match *)
Fixpoint action (s : string) : option (string * option string) :=
  match actionAt s with
  | Some m => Some m
  | None =>
      match s with
      | EmptyString => None
      | String _ s' => action s'
      end
  end.

(** what follows the leftmost occurrence of a literal *)
Fixpoint after (lit s : string) : option string :=
  match literal lit s with
  | Some r => Some r
  | None =>
      match s with
      | EmptyString => None
      | String _ s' => after lit s'
      end
  end.

(** what precedes the leftmost occurrence of a literal *)
Fixpoint before (lit s : string) : option string :=
  match literal lit s with
  | Some _ => Some EmptyString
  | None =>
      match s with
      | EmptyString => None
      | String c s' => option_map (String c) (before lit s')
      end
  end.

(** group 1 of [raw.match(/<Thought>(.*?)<\/Thought>/is)] *)
Definition thought (s : string) : option string :=
  match after "<Thought>" s with
  | Some r => before "</Thought>" r
  | None => None
  end.

End Re.

Section LlmPlan.
Import PageElement PageData SessionState.

(** the [try] block of [llmPlan], from the [fetch] on.  The request, built
    from the prompt, goes out to the model; the answer is the input [io]. *)
Definition llmPlanTry (page : PageData) (state : SessionState) (config : LLMConfig)
    (io : FetchOutcome) : Completion (option GuidanceStep) :=
  match io with
  | FetchRejects name => Throw name
  | Response status payload =>
      if negb (responseOk status) then Return None
      else
        match payload with
        | JsonRejects => Throw "SyntaxError"
        | Json contentText choiceText =>
            let raw :=
              match LLMConfig.provider config with
              | anthropic => Js.nullish contentText EmptyString ++ "</Action>"
              | _ => Js.nullish choiceText EmptyString ++ "</Action>"
              end in
            match Re.action raw with
            | None => Return None
            | Some (name, digits) =>
                let actionName := Js.toLowerCase name in
                let elementId :=
                  match digits with
                  | Some ds => Js.parseDigits ds 0
                  | None => -1
                  end in
                if (String.eqb actionName "wait" || (elementId <? 0))%bool then Return None
                else
                  match Js.find (fun e => idx e =? elementId) (elements page) with
                  | None => Return None
                  | Some el =>
                      let thought :=
                        match Re.thought raw with
                        | Some t => Js.trim t
                        | None => EmptyString
                        end in
                      let action := click in
                      let action := if String.eqb actionName "type" then type else action in
                      let action := if String.eqb actionName "select" then select else action in
                      let phase := detectPhase page in
                      Return (Some
                        {| GuidanceStep.stepNumber := step state;
                           GuidanceStep.action := action;
                           GuidanceStep.selector := selector el;
                           GuidanceStep.textHint := Js.substring0 60 (text el);
                           GuidanceStep.instruction :=
                             Js.orElse thought (instructionFor el action phase) |})
                  end
            end
        end
  end.

(** [try { ... } catch (err) { ...; return null; }] *)
Definition llmPlan (page : PageData) (state : SessionState) (config : LLMConfig)
    (io : FetchOutcome) : Completion (option GuidanceStep) :=
  match llmPlanTry page state config io with
  | Return r => Return r
  | Throw _ => Return None
  end.

End LlmPlan.

(** ** Session orchestrator (background service worker) *)

Definition EMPTY_STATE : SessionState :=
  {| SessionState.goal := EmptyString;
     SessionState.active := false;
     SessionState.completed := false;
     SessionState.step := 1;
     SessionState.current := None;
     SessionState.history := [];
     SessionState.mode := heuristic |}.

(** The module-level variables [state], [llmConfig] and [processing], and
    the one array that [EMPTY_STATE.history] refers to.  The spread
    [{ ...EMPTY_STATE }] copies that reference, so after START or STOP
    [state.history] is the same array and a [push] on it is seen through
    [EMPTY_STATE] as well; [sharesHistory] records whether [state.history]
    is that array. *)
Module World.
Record t := {
  state : SessionState;
  llmConfig : option LLMConfig;
  processing : bool;
  emptyHistory : list ActionRecord;
  sharesHistory : bool
}.
End World.
Abbreviation World := World.t.

(** What a handler sends out or schedules. *)
Inductive Effect :=
| broadcast (m : Message)            (* chrome.runtime.sendMessage(m) *)
| sendToTab (m : Message)            (* chrome.tabs.sendMessage(tabId, m) *)
| saveState (s : SessionState)       (* chrome.storage.local.set *)
| callProcessTab (delay : Z)         (* processTab(id), after [delay] ms *)
| retryLater.                        (* the setTimeout(..., 1000) of the catch block *)

(** What the content script answers to EXTRACT. *)
Inductive ExtractReply :=
| ExtractRejects
| ExtractOther
| ExtractPage (page : PageData).

(** The answers of the outside world to one run of [processTab]. *)
Module PassEnv.
Record t := {
  tab : option (option string);  (* chrome.tabs.get: null, or a tab and its url *)
  extract : ExtractReply;
  fetch : FetchOutcome;
  showDelivered : bool      (* the SHOW_STEP message reaches the tab *)
}.
End PassEnv.
Abbreviation PassEnv := PassEnv.t.

Definition NO_PAGE_MSG : string :=
  "NavAI cannot run on this page. Navigate to a regular website to continue.".
Definition NO_DATA_MSG : string :=
  "Could not read this page. Try refreshing or navigating to another page.".
Definition STUCK_MSG : string :=
  "Seems stuck on the same element. Try clicking Skip or rephrase your goal.".
Definition NO_STEP_MSG : string :=
  "No clear next step found. Try " ++ Js.dquote ++ "Rescan" ++ Js.dquote
  ++ " or scroll to reveal more elements.".
Definition NO_CONNECT_MSG : string :=
  "Could not connect to this page. Try refreshing.".

Definition isRestrictedUrl (url : option string) : bool :=
  match url with
  | None => true
  | Some u =>
      if negb (Js.truthy u) then true
      else
        (String.prefix "chrome://" u
         || String.prefix "chrome-extension://" u
         || String.prefix "edge://" u
         || String.prefix "about:" u
         || String.prefix "chrome-search://" u
         || String.prefix "devtools://" u)%bool
  end.

(** the negation of [!tab || isRestrictedUrl(tab.url)] *)
Definition tabAllowed (env : PassEnv) : bool :=
  match PassEnv.tab env with
  | None => false
  | Some url => negb (isRestrictedUrl url)
  end.

Section Orchestrator.
Import SessionState World.

Definition setState (w : World) (s : SessionState) : World :=
  {| state := s; llmConfig := llmConfig w; processing := processing w;
     emptyHistory := emptyHistory w; sharesHistory := sharesHistory w |}.

Definition setProcessing (w : World) (b : bool) : World :=
  {| state := state w; llmConfig := llmConfig w; processing := b;
     emptyHistory := emptyHistory w; sharesHistory := sharesHistory w |}.

(** field updates of the session object *)
Definition withCurrent (s : SessionState) (c : option GuidanceStep) : SessionState :=
  {| goal := goal s; active := active s; completed := completed s; step := step s;
     current := c; history := history s; mode := mode s |}.

Definition withCompleted (s : SessionState) (b : bool) : SessionState :=
  {| goal := goal s; active := active s; completed := b; step := step s;
     current := current s; history := history s; mode := mode s |}.

Definition withStep (s : SessionState) (n : Z) : SessionState :=
  {| goal := goal s; active := active s; completed := completed s; step := n;
     current := current s; history := history s; mode := mode s |}.

Definition withHistory (s : SessionState) (h : list ActionRecord) : SessionState :=
  {| goal := goal s; active := active s; completed := completed s; step := step s;
     current := current s; history := h; mode := mode s |}.

(** [state.mode === 'llm' && llmConfig?.apiKey] *)
Definition llmEnabled (w : World) : option LLMConfig :=
  match mode (state w), llmConfig w with
  | llm, Some cfg => if Js.truthy (LLMConfig.apiKey cfg) then Some cfg else None
  | _, _ => None
  end.

Definition plan (w : World) (page : PageData) (io : FetchOutcome) : Completion (option GuidanceStep) :=
  match llmEnabled w with
  | Some cfg =>
      match llmPlan page (state w) cfg io with
      | Return (Some st) => Return (Some st)
      | Return None => Return (heuristicPlan page (state w))
      | Throw name => Throw name
      end
  | None => Return (heuristicPlan page (state w))
  end.

Definition isStuck (s : SessionState) (st : GuidanceStep) : bool :=
  let recent := Js.sliceLast 3 (history s) in
  if Nat.ltb (List.length recent) 3 then false
  else
    let sameSelector :=
      forallb (fun h => String.eqb (ActionRecord.selector h) (GuidanceStep.selector st)) recent in
    let sameText :=
      (Nat.ltb 3 (String.length (GuidanceStep.textHint st))
       && forallb (fun h => String.eqb (ActionRecord.text h) (GuidanceStep.textHint st)) recent)%bool in
    (sameSelector || sameText)%bool.

(** the first lines of [processTab]: the two guards, then [processing = true] *)
Definition processTabRuns (w : World) : bool :=
  (negb (negb (active (state w)) || completed (state w)) && negb (processing w))%bool.

Definition processTabEnter (w : World) : World :=
  if processTabRuns w then setProcessing w true else w.

(** the [try] block of [processTab]; the boolean tells whether the block
    ended without throwing *)
Definition processTabTry (env : PassEnv) (w : World) : World * list Effect * bool :=
  if negb (tabAllowed env) then (w, [broadcast (ERROR NO_PAGE_MSG)], true)
  else
    match PassEnv.extract env with
    | ExtractRejects => (w, [], false)
    | ExtractOther => (w, [broadcast (ERROR NO_DATA_MSG)], true)
    | ExtractPage page =>
        if ((1 <? step (state w)) && isSuccessPage page)%bool then
          let s := withCurrent (withCompleted (state w) true) None in
          (setState w s,
           [saveState s; broadcast (STATE s); broadcast COMPLETED; sendToTab HIDE_OVERLAY],
           true)
        else
          match plan w page (PassEnv.fetch env) with
          | Throw _ => (w, [], false)
          | Return candidate =>
              let stuck :=
                match candidate with
                | Some st => isStuck (state w) st
                | None => false
                end in
              let notice := if stuck then [broadcast (ERROR STUCK_MSG)] else [] in
              let kept := if stuck then None else candidate in
              match kept with
              | Some st =>
                  let s := withCurrent (state w) (Some st) in
                  (setState w s,
                   (notice ++ [saveState s; broadcast (STATE s); sendToTab (SHOW_STEP st)])%list,
                   PassEnv.showDelivered env)
              | None =>
                  if negb (completed (state w)) then
                    let s := withCurrent (state w) None in
                    (setState w s,
                     (notice ++ [saveState s; broadcast (STATE s);
                                 broadcast (ERROR NO_STEP_MSG)])%list,
                     true)
                  else (w, notice, true)
              end
          end
    end.

(** [processTab] from the [try] on: the [catch] block schedules the retry,
    the [finally] block clears [processing] *)
Definition processTabBody (env : PassEnv) (w : World) : World * list Effect :=
  let '(w', out, normal) := processTabTry env w in
  (setProcessing w' false, if normal then out else (out ++ [retryLater])%list).

(** a whole run of [processTab] *)
Definition processTab (env : PassEnv) (w : World) : World * list Effect :=
  if processTabRuns w then processTabBody env (processTabEnter w) else (w, []).

(** the retry scheduled by the [catch] block *)
Definition retryPass (env : PassEnv) (w : World) : World * list Effect :=
  match PassEnv.extract env with
  | ExtractRejects => (w, [broadcast (ERROR NO_CONNECT_MSG)])
  | ExtractOther => (w, [])
  | ExtractPage page =>
      match plan w page (PassEnv.fetch env) with
      | Throw _ => (w, [broadcast (ERROR NO_CONNECT_MSG)])
      | Return (Some st) =>
          let s := withCurrent (state w) (Some st) in
          (setState w s,
           ([saveState s; broadcast (STATE s); sendToTab (SHOW_STEP st)]
            ++ (if PassEnv.showDelivered env then []
                else [broadcast (ERROR NO_CONNECT_MSG)]))%list)
      | Return None => (w, [])
      end
  end.

(** [state = { ...EMPTY_STATE, ...fields }]: the session object is replaced
    and its history is the array of [EMPTY_STATE] *)
Definition replaceState (w : World) (s : SessionState) : World :=
  {| state := withHistory s (emptyHistory w);
     llmConfig := llmConfig w; processing := processing w;
     emptyHistory := emptyHistory w; sharesHistory := true |}.

(** [state.history.push(r)] *)
Definition pushHistory (w : World) (r : ActionRecord) : World :=
  {| state := withHistory (state w) (history (state w) ++ [r])%list;
     llmConfig := llmConfig w; processing := processing w;
     emptyHistory :=
       if sharesHistory w then (emptyHistory w ++ [r])%list else emptyHistory w;
     sharesHistory := sharesHistory w |}.

(** [state.history.push({...})] guarded by [if (state.current)], then
    [state.step++; state.current = null] *)
Definition closeCurrent (w : World) (actionOf : GuidanceStep -> ActionType) : World :=
  let w :=
    match current (state w) with
    | Some cur =>
        pushHistory w
          {| ActionRecord.step := step (state w);
             ActionRecord.action := actionOf cur;
             ActionRecord.selector := GuidanceStep.selector cur;
             ActionRecord.text := GuidanceStep.textHint cur |}
    | None => w
    end in
  setState w (withCurrent (withStep (state w) (step (state w) + 1)) None).

(** the listener of [chrome.runtime.onMessage] *)
Definition onMessage (msg : Message) (w : World) : World * list Effect :=
  match msg with
  | START g m =>
      let w' :=
        replaceState w
          {| goal := g; active := true; completed := false;
             step := step EMPTY_STATE; current := current EMPTY_STATE;
             history := history EMPTY_STATE; mode := m |} in
      (w', [saveState (state w'); broadcast (STATE (state w')); callProcessTab 0])
  | STOP =>
      let w' := replaceState w EMPTY_STATE in
      (w', [saveState (state w'); broadcast (STATE (state w')); sendToTab HIDE_OVERLAY])
  | SKIP =>
      let w' := closeCurrent w GuidanceStep.action in
      (w', [saveState (state w'); broadcast (STATE (state w')); callProcessTab 0])
  | RESCAN => (w, [callProcessTab 0])
  | ACTION_DONE a =>
      if negb (active (state w)) then (w, [])
      else
        let w' := closeCurrent w (fun _ => a) in
        (w',
         [saveState (state w'); broadcast (STATE (state w'));
          callProcessTab (if ActionType_eqb a click then 500 else 100)])
  | NAV_CHANGE _ =>
      if negb (active (state w)) then (w, [])
      else (w, [callProcessTab 600])
  | GET_STATE => (w, [])
  | _ => (w, [])
  end.

(** the listener of [chrome.webNavigation.onCompleted] *)
Definition onNavigationCompleted (frameId : Z) (w : World) : World * list Effect :=
  if negb (frameId =? 0) then (w, [])
  else if negb (active (state w)) then (w, [])
  else (w, [callProcessTab 500]).

End Orchestrator.

(** What the event loop can run next, when a run of [processTab] and its
    retry are each taken in one step: no listener runs between the first
    await of the run and its end. *)
Inductive Event :=
| Received (msg : Message)
| NavigationCompleted (frameId : Z)
| ProcessTabCalled                   (* processTab reaches its first await *)
| ProcessTabResumed (env : PassEnv)  (* the pass in flight runs to its end *)
| RetryFired (env : PassEnv).

Definition handle (e : Event) (w : World) : World * list Effect :=
  match e with
  | Received msg => onMessage msg w
  | NavigationCompleted frameId => onNavigationCompleted frameId w
  | ProcessTabCalled => (processTabEnter w, [])
  | ProcessTabResumed env =>
      if World.processing w then processTabBody env w else (w, [])
  | RetryFired env => retryPass env w
  end.

(** the state after a sequence of events, with everything sent on the way *)
Fixpoint run (es : list Event) (w : World) : World * list Effect :=
  match es with
  | [] => (w, [])
  | e :: es' =>
      let (w1, out1) := handle e w in
      let (w2, out2) := run es' w1 in
      (w2, (out1 ++ out2)%list)
  end.

(** ** The worker between its awaits

    [handle] takes a run of [processTab] after its entry as one step: that
    is the run during which no other listener gets to run.  The event loop
    may run a listener, or resume another suspended function, at every
    [await].  Below, each [await] of the worker is a place where the
    function is put aside as a [Task], with the local variables it still
    reads; the answer of the outside world resumes it on the module-level
    variables as they are by then.  The two awaits of [llmPlan] (the
    response and its body) are one place: nothing of the worker is read
    between them.  The lookup of the active tab before a call of
    [processTab] stays inside the effect [callProcessTab]. *)

(** the [try] block of [processTab], or the retry of its [catch] block *)
Inductive Attempt := inTry | inRetry.

(** The [state] argument held by a suspended call of [llmPlan]: the object
    that the variable [state] still refers to, or an object that START or
    STOP has replaced since, with the fields it was left with.  (After the
    request [llmPlan] reads only [state.step].) *)
Inductive SessionRef :=
| stillCurrent
| replaced (s : SessionState).

(** what runs once a write to storage has resolved *)
Inductive AfterSave :=
| announceCompleted                           (* processTab: STATE, COMPLETED, HIDE_OVERLAY *)
| showStep (a : Attempt) (st : GuidanceStep)  (* processTab and its retry: STATE, SHOW_STEP *)
| announceNoStep                              (* processTab: STATE, ERROR *)
| thenProcessTab (delay : Z)                  (* the [.then] of START, SKIP and ACTION_DONE *)
| thenHideOverlay.                            (* the [.then] of STOP *)

Inductive Task :=
| atTabsGet                                   (* await chrome.tabs.get(tabId) *)
| atExtract (a : Attempt)                     (* await chrome.tabs.sendMessage(tabId, EXTRACT) *)
| atLlmPlan (a : Attempt) (page : PageData) (session : SessionRef) (config : LLMConfig)
                                              (* await plan(page), inside await llmPlan(...) *)
| atSaveState (k : AfterSave)                 (* await saveState(), saveState().then(...) *)
| atHideOverlay                               (* await chrome.tabs.sendMessage(tabId, HIDE_OVERLAY) *)
| atShowStep (a : Attempt)                    (* await chrome.tabs.sendMessage(tabId, SHOW_STEP) *)
| atRetryTimer.                               (* setTimeout(..., 1000) *)

(** what the outside world answers to a pending await *)
Inductive Answer :=
| tabFound (tab : option (option string))
| extracted (reply : ExtractReply)
| modelAnswered (io : FetchOutcome)
| stateSaved
| messageDelivered (ok : bool)
| timerFired.

(** the module-level variables and the functions put aside *)
Module Worker.
Record t := {
  vars : World;
  pending : list Task
}.
End Worker.
Abbreviation Worker := Worker.t.

Section Between.
Import SessionState World Worker.

Definition sessionOf (r : SessionRef) (w : World) : SessionState :=
  match r with
  | stillCurrent => state w
  | replaced s => s
  end.

(** the same test as [tabAllowed], on the answer of [chrome.tabs.get] *)
Definition tabOk (tab : option (option string)) : bool :=
  match tab with
  | None => false
  | Some url => negb (isRestrictedUrl url)
  end.

(** [plan(page)] from the answer of the model on: [state] is read again
    for the heuristic planner, [llmPlan] still holds the object it was
    given *)
Definition planResumed (w : World) (page : PageData) (session : SessionRef)
    (config : LLMConfig) (io : FetchOutcome) : Completion (option GuidanceStep) :=
  match llmPlan page (sessionOf session w) config io with
  | Return (Some st) => Return (Some st)
  | Return None => Return (heuristicPlan page (state w))
  | Throw name => Throw name
  end.

(** [processTab] from the stuck check to its next await *)
Definition commitTry (w : World) (candidate : option GuidanceStep)
    : World * list Effect * list Task :=
  let stuck :=
    match candidate with
    | Some st => isStuck (state w) st
    | None => false
    end in
  let notice := if stuck then [broadcast (ERROR STUCK_MSG)] else [] in
  let kept := if stuck then None else candidate in
  match kept with
  | Some st =>
      let s := withCurrent (state w) (Some st) in
      (setState w s, (notice ++ [saveState s])%list, [atSaveState (showStep inTry st)])
  | None =>
      if negb (completed (state w)) then
        let s := withCurrent (state w) None in
        (setState w s, (notice ++ [saveState s])%list, [atSaveState announceNoStep])
      else (setProcessing w false, notice, [])
  end.

(** the retry from [if (step)] to its next await *)
Definition commitRetry (w : World) (candidate : option GuidanceStep)
    : World * list Effect * list Task :=
  match candidate with
  | Some st =>
      let s := withCurrent (state w) (Some st) in
      (setState w s, [saveState s], [atSaveState (showStep inRetry st)])
  | None => (w, [], [])
  end.

Definition commit (a : Attempt) (w : World) (candidate : option GuidanceStep)
    : World * list Effect * list Task :=
  match a with
  | inTry => commitTry w candidate
  | inRetry => commitRetry w candidate
  end.

(** an await throws: the [catch] and [finally] blocks of [processTab], or
    the [catch] block of the retry *)
Definition thrown (a : Attempt) (w : World) : World * list Effect * list Task :=
  match a with
  | inTry => (setProcessing w false, [retryLater], [atRetryTimer])
  | inRetry => (w, [broadcast (ERROR NO_CONNECT_MSG)], [])
  end.

(** [await plan(page)] up to the request of [llmPlan], or to the end of
    [plan] when the model is not asked *)
Definition planCalled (a : Attempt) (w : World) (page : PageData)
    : World * list Effect * list Task :=
  match llmEnabled w with
  | Some cfg => (w, [], [atLlmPlan a page stillCurrent cfg])
  | None => commit a w (heuristicPlan page (state w))
  end.

(** A suspended function goes on with the answer to its await, up to its
    next await or its end: the variables, what is sent, and the awaits that
    take the place of this one.  [None]: the answer is not one to this
    await. *)
Definition resume (t : Task) (ans : Answer) (w : World)
    : option (World * list Effect * list Task) :=
  match t, ans with
  | atTabsGet, tabFound tab =>
      if negb (tabOk tab) then
        Some (setProcessing w false, [broadcast (ERROR NO_PAGE_MSG)], [])
      else Some (w, [], [atExtract inTry])
  | atExtract inTry, extracted reply =>
      match reply with
      | ExtractRejects => Some (thrown inTry w)
      | ExtractOther => Some (setProcessing w false, [broadcast (ERROR NO_DATA_MSG)], [])
      | ExtractPage page =>
          if ((1 <? step (state w)) && isSuccessPage page)%bool then
            let s := withCurrent (withCompleted (state w) true) None in
            Some (setState w s, [saveState s], [atSaveState announceCompleted])
          else Some (planCalled inTry w page)
      end
  | atExtract inRetry, extracted reply =>
      match reply with
      | ExtractRejects => Some (thrown inRetry w)
      | ExtractOther => Some (w, [], [])
      | ExtractPage page => Some (planCalled inRetry w page)
      end
  | atLlmPlan a page session config, modelAnswered io =>
      match planResumed w page session config io with
      | Return candidate => Some (commit a w candidate)
      | Throw _ => Some (thrown a w)
      end
  | atSaveState k, stateSaved =>
      match k with
      | announceCompleted =>
          Some (w, [broadcast (STATE (state w)); broadcast COMPLETED; sendToTab HIDE_OVERLAY],
                [atHideOverlay])
      | showStep a st =>
          Some (w, [broadcast (STATE (state w)); sendToTab (SHOW_STEP st)], [atShowStep a])
      | announceNoStep =>
          Some (setProcessing w false,
                [broadcast (STATE (state w)); broadcast (ERROR NO_STEP_MSG)], [])
      | thenProcessTab delay =>
          Some (w, [broadcast (STATE (state w)); callProcessTab delay], [])
      | thenHideOverlay =>
          Some (w, [broadcast (STATE (state w)); sendToTab HIDE_OVERLAY], [])
      end
  | atHideOverlay, messageDelivered _ => Some (setProcessing w false, [], [])
  | atShowStep inTry, messageDelivered ok =>
      if ok then Some (setProcessing w false, [], []) else Some (thrown inTry w)
  | atShowStep inRetry, messageDelivered ok =>
      if ok then Some (w, [], []) else Some (thrown inRetry w)
  | atRetryTimer, timerFired => Some (w, [], [atExtract inRetry])
  | _, _ => None
  end.

(** START and STOP assign a new object to [state]: a call of [llmPlan] that
    is waiting for the model keeps the old one *)
Definition retire (s : SessionState) (t : Task) : Task :=
  match t with
  | atLlmPlan a page stillCurrent config => atLlmPlan a page (replaced s) config
  | _ => t
  end.

(** the listener of [chrome.runtime.onMessage], up to the end of the
    listener; what follows the write to storage is put aside *)
Definition listen (msg : Message) (m : Worker) : Worker * list Effect :=
  let w := vars m in
  match msg with
  | START g md =>
      let w' :=
        replaceState w
          {| goal := g; active := true; completed := false;
             step := step EMPTY_STATE; current := current EMPTY_STATE;
             history := history EMPTY_STATE; mode := md |} in
      ({| vars := w';
          pending := (map (retire (state w)) (pending m)
                      ++ [atSaveState (thenProcessTab 0)])%list |},
       [saveState (state w')])
  | STOP =>
      let w' := replaceState w EMPTY_STATE in
      ({| vars := w';
          pending := (map (retire (state w)) (pending m)
                      ++ [atSaveState thenHideOverlay])%list |},
       [saveState (state w')])
  | SKIP =>
      let w' := closeCurrent w GuidanceStep.action in
      ({| vars := w'; pending := (pending m ++ [atSaveState (thenProcessTab 0)])%list |},
       [saveState (state w')])
  | RESCAN => (m, [callProcessTab 0])
  | ACTION_DONE a =>
      if negb (active (state w)) then (m, [])
      else
        let w' := closeCurrent w (fun _ => a) in
        ({| vars := w';
            pending := (pending m
                        ++ [atSaveState
                              (thenProcessTab (if ActionType_eqb a click then 500 else 100))])%list |},
         [saveState (state w')])
  | NAV_CHANGE _ =>
      if negb (active (state w)) then (m, [])
      else (m, [callProcessTab 600])
  | GET_STATE => (m, [])
  | _ => (m, [])
  end.

End Between.

(** What the event loop can run next, await by await. *)
Inductive Tick :=
| Heard (msg : Message)              (* a message reaches the listener *)
| PageLoaded (frameId : Z)           (* webNavigation.onCompleted fires *)
| Called                             (* processTab(id) is called *)
| Settled (n : nat) (ans : Answer).  (* the n-th pending await settles *)

(** the awaits that a resumed function reaches take its place *)
Definition replaceAt {A} (n : nat) (next : list A) (l : list A) : list A :=
  (firstn n l ++ next ++ skipn (S n) l)%list.

Definition tick (t : Tick) (m : Worker) : Worker * list Effect :=
  match t with
  | Heard msg => listen msg m
  | PageLoaded frameId =>
      let (w', out) := onNavigationCompleted frameId (Worker.vars m) in
      ({| Worker.vars := w'; Worker.pending := Worker.pending m |}, out)
  | Called =>
      if processTabRuns (Worker.vars m) then
        ({| Worker.vars := setProcessing (Worker.vars m) true;
            Worker.pending := (Worker.pending m ++ [atTabsGet])%list |}, [])
      else (m, [])
  | Settled n ans =>
      match nth_error (Worker.pending m) n with
      | Some t =>
          match resume t ans (Worker.vars m) with
          | Some (w', out, next) =>
              ({| Worker.vars := w'; Worker.pending := replaceAt n next (Worker.pending m) |},
               out)
          | None => (m, [])
          end
      | None => (m, [])
      end
  end.

Fixpoint ticks (ts : list Tick) (m : Worker) : Worker * list Effect :=
  match ts with
  | [] => (m, [])
  | t :: ts' =>
      let (m1, out1) := tick t m in
      let (m2, out2) := ticks ts' m1 in
      (m2, (out1 ++ out2)%list)
  end.

(** ** The specification's wording, for comparison with the code *)

Module Claimed.
Section Claimed.
Import PageElement PageData SessionState.

(** "email/username-like": type, placeholder or label mentions the word,
    whatever the case. *)
Definition emailLike (e : PageElement) : bool :=
  (isInput e &&
   existsb (fun t =>
     Js.includes (Js.toLowerCase (Js.nullish (inputType e) EmptyString)) t
     || Js.includes (Js.toLowerCase (Js.nullish (placeholder e) EmptyString)) t
     || Js.includes (Js.toLowerCase (label e)) t) ["email"; "username"])%bool.

(** "password-like": type, placeholder or label mentions the word, whatever
    the case. *)
Definition passwordLike (e : PageElement) : bool :=
  (isInput e &&
   (Js.includes (Js.toLowerCase (Js.nullish (inputType e) EmptyString)) "password"
    || Js.includes (Js.toLowerCase (Js.nullish (placeholder e) EmptyString)) "password"
    || Js.includes (Js.toLowerCase (label e)) "password"))%bool.

(** "login exactly when some email/username-like input coexists with some
    password-like input, and no success word matched first" *)
Definition isLogin (page : PageData) : bool :=
  (negb (successSignal page)
   && existsb emailLike (elements page) && existsb passwordLike (elements page))%bool.

(** the highest-scoring element, the earliest one among equals *)
Fixpoint firstMax {A} (f : A -> Z) (l : list A) : option A :=
  match l with
  | [] => None
  | x :: l' =>
      match firstMax f l' with
      | Some y => if f x <? f y then Some y else Some x
      | None => Some x
      end
  end.

(** "(a) the first in-viewport unfilled input whose selector is not in history" *)
Definition fallbackInput (used : list string) (e : PageElement) : bool :=
  (isInput e && negb (Js.optTrue (isFilled e)) && isInViewport e
   && negb (Js.has used (selector e)))%bool.

(** "(b) the first in-viewport unused element with tag 'button', role
    'button', or tag 'a'" *)
Definition fallbackButton (used : list string) (e : PageElement) : bool :=
  (isInViewport e && negb (Js.has used (selector e))
   && (String.eqb (tag e) "button" || String.eqb (role e) "button"
       || String.eqb (tag e) "a"))%bool.

(** "when no element's score is positive ... (a), else (b), else null; when
    some element's score is positive ... the highest-scoring element" *)
Definition heuristicPlan (page : PageData) (state : SessionState) : option GuidanceStep :=
  if existsb (fun el => 0 <? scoreIn page state el) (elements page) then
    option_map (fun el => stepFor page state el (actionFor el))
               (firstMax (scoreIn page state) (elements page))
  else
    match Js.find (fallbackInput (usedSelectorsOf state)) (elements page) with
    | Some e => Some (stepFor page state e (actionFor e))
    | None =>
        match Js.find (fallbackButton (usedSelectorsOf state)) (elements page) with
        | Some e => Some (stepFor page state e click)
        | None => None
        end
    end.

End Claimed.
End Claimed.

(** ** Concrete snapshots and sessions *)

Module Sample.

Definition element (i : Z) (tg rl tx lb sel : string) (inp : bool)
    (ty : option string) (req fil : option bool) (dlg : bool) : PageElement :=
  {| PageElement.idx := i;
     PageElement.tag := tg;
     PageElement.role := rl;
     PageElement.text := tx;
     PageElement.label := lb;
     PageElement.selector := sel;
     PageElement.rect := {| Rect.top := 100; Rect.left := 0; Rect.width := 50; Rect.height := 20 |};
     PageElement.isInput := inp;
     PageElement.inputType := ty;
     PageElement.placeholder := None;
     PageElement.value := None;
     PageElement.isRequired := req;
     PageElement.isFilled := fil;
     PageElement.isInViewport := true;
     PageElement.isInDialog := dlg |}.

Definition page (ttl : string) (els : list PageElement) (dlg : bool) : PageData :=
  {| PageData.url := "https://dmv.example/apply";
     PageData.title := ttl;
     PageData.elements := els;
     PageData.hasOpenDialog := dlg |}.

Definition session (g : string) (n : Z) (cur : option GuidanceStep)
    (h : list ActionRecord) (m : PlannerMode) : SessionState :=
  {| SessionState.goal := g;
     SessionState.active := true;
     SessionState.completed := false;
     SessionState.step := n;
     SessionState.current := cur;
     SessionState.history := h;
     SessionState.mode := m |}.

Definition record (n : Z) (sel txt : string) : ActionRecord :=
  {| ActionRecord.step := n;
     ActionRecord.action := click;
     ActionRecord.selector := sel;
     ActionRecord.text := txt |}.

Definition config : LLMConfig :=
  {| LLMConfig.provider := openai;
     LLMConfig.endpoint := "https://llm.example/v1/chat/completions";
     LLMConfig.apiKey := "sk-test";
     LLMConfig.model := EmptyString |}.

(** a worker whose session was read back from storage *)
Definition world (s : SessionState) : World :=
  {| World.state := s; World.llmConfig := Some config; World.processing := false;
     World.emptyHistory := []; World.sharesHistory := false |}.

(** a worker that has just been loaded, nothing in storage *)
Definition freshWorker : World :=
  {| World.state := EMPTY_STATE; World.llmConfig := None; World.processing := false;
     World.emptyHistory := []; World.sharesHistory := true |}.

Definition env (p : PageData) (io : FetchOutcome) : PassEnv :=
  {| PassEnv.tab := Some (Some (PageData.url p));
     PassEnv.extract := ExtractPage p;
     PassEnv.fetch := io;
     PassEnv.showDelivered := true |}.

(** the model answers [click(n)] *)
Definition answers (n : string) : FetchOutcome :=
  Response 200 (Json None (Some ("<Thought>next</Thought><Action>click(" ++ n ++ ")"))).

Definition fullName : PageElement :=
  element 0 "input" "input" EmptyString "Full Name" "#name" true (Some "text") (Some true) (Some false) false.
Definition emailFilled : PageElement :=
  element 1 "input" "input" EmptyString "Email" "#email" true (Some "email") (Some false) (Some true) false.
Definition emailEmpty : PageElement :=
  element 0 "input" "input" EmptyString "Email" "#email" true (Some "email") None (Some false) false.
Definition passwordByLabel : PageElement :=
  element 1 "input" "input" EmptyString "Password" "#pw" true (Some "text") None (Some false) false.
Definition submitOutside : PageElement :=
  element 0 "button" "button" "Submit" EmptyString "#submit" false None None None false.
Definition sendInside : PageElement :=
  element 1 "button" "button" "Send" EmptyString "#send" false None None None true.
Definition nameOutside : PageElement :=
  element 0 "input" "input" EmptyString "Name" "#name" true (Some "text") None None false.
Definition continueButton : PageElement :=
  element 0 "button" "button" "Continue" EmptyString "#continue" false None None None false.
Definition filledSubmitInput : PageElement :=
  element 0 "input" "button" EmptyString EmptyString "#go" true (Some "submit") (Some false) (Some true) false.

(** the form of the specification's first scenario *)
Definition formPage : PageData := page "DMV" [fullName; emailFilled] false.
(** the dialog of its second scenario *)
Definition dialogPage : PageData := page "Mail" [submitOutside; sendInside] true.
(** a panel is reported open, the only element lies outside it *)
Definition occludedPage : PageData := page "Mail" [nameOutside] true.
Definition loginByLabelPage : PageData := page "Portal" [emailEmpty; passwordByLabel] false.
Definition successPage : PageData := page "Success" [continueButton] false.
Definition submitInputPage : PageData := page "DMV" [filledSubmitInput] false.
Definition submitPage : PageData := page "DMV" [submitOutside] false.

Definition fresh : SessionState := session "apply for driver's license" 1 None [] heuristic.

(** a worker that has just been loaded and found an LLM configuration in
    storage *)
Definition configuredWorker : World :=
  {| World.state := EMPTY_STATE; World.llmConfig := Some config; World.processing := false;
     World.emptyHistory := []; World.sharesHistory := true |}.



End Sample.

(** ** Reading sessions and traces *)

Section Reading.
Import SessionState World.

(** the session after one event, and after a sequence of events *)
Definition after (e : Event) (w : World) : SessionState := state (fst (handle e w)).

Definition afterAll (es : list Event) (w : World) : SessionState := state (fst (run es w)).

(** the steps handed to the actuator: a pass sends SHOW_STEP exactly when it
    commits its step as [current] *)
Definition shown (out : list Effect) : list GuidanceStep :=
  flat_map (fun e => match e with sendToTab (SHOW_STEP st) => [st] | _ => [] end) out.

(** START and STOP replace the session object *)
Definition replacesSession (e : Event) : bool :=
  match e with
  | Received (START _ _) | Received STOP => true
  | _ => false
  end.

(** SKIP closes a step always, ACTION_DONE while the session is active *)
Definition closesStep (e : Event) (w : World) : bool :=
  match e with
  | Received SKIP => true
  | Received (ACTION_DONE _) => active (state w)
  | _ => false
  end.

(** how many steps a sequence of events closes *)
Fixpoint closedSteps (es : list Event) (w : World) : Z :=
  match es with
  | [] => 0
  | e :: es' => (if closesStep e w then 1 else 0) + closedSteps es' (fst (handle e w))
  end.

(** what a pass leaves untouched *)
Definition sameButCurrentCompleted (s s' : SessionState) : Prop :=
  goal s' = goal s /\ active s' = active s /\ step s' = step s
  /\ history s' = history s /\ mode s' = mode s.

End Reading.

(** ** Predicates used to state further properties *)

Module Text.

(** every character of a string passes a test *)
Fixpoint everyChar (p : ascii -> bool) (s : string) : bool :=
  match s with
  | EmptyString => true
  | String c s' => (p c && everyChar p s')%bool
  end.

(** a character other than the opening angle bracket *)
Definition notOpen (c : ascii) : bool := negb (Ascii.eqb c "<"%char).

End Text.

Section MoreReading.
Import SessionState World.

(** the guidance step fields shared by both planners *)
Definition plannedAction (a : ActionType) : bool :=
  match a with
  | click | type | select => true
  | scroll | wait => false
  end.

(** the text that [llmPlan] parses: the completion of the configured
    provider, with the closing tag put back *)
Definition rawReply (cfg : LLMConfig) (contentText choiceText : option string) : string :=
  match LLMConfig.provider cfg with
  | anthropic => Js.nullish contentText EmptyString ++ "</Action>"
  | _ => Js.nullish choiceText EmptyString ++ "</Action>"
  end.

(** the action a lower-cased call name stands for *)
Definition namedAction (actionName : string) : ActionType :=
  if String.eqb actionName "select" then select
  else if String.eqb actionName "type" then type
  else click.

(** [state.history] is the array of [EMPTY_STATE] *)
Definition historyShared (w : World) : Prop :=
  sharesHistory w = true /\ history (state w) = emptyHistory w.

(** the records of the history carry strictly increasing step numbers, all
    below the step counter *)
Fixpoint stepsBelow (bound : Z) (h : list ActionRecord) : Prop :=
  match h with
  | [] => True
  | r :: h' =>
      ActionRecord.step r < bound
      /\ Forall (fun r' => ActionRecord.step r < ActionRecord.step r') h'
      /\ stepsBelow bound h'
  end.

Definition historyOrdered (s : SessionState) : Prop := stepsBelow (step s) (history s).

(** the events that neither replace the session nor close a step *)
Definition keepsStep (e : Event) : bool :=
  match e with
  | Received SKIP | Received (ACTION_DONE _)
  | Received (START _ _) | Received STOP => false
  | _ => true
  end.

(** the triggers that are guarded by [state.active] *)
Definition idleNoOp (e : Event) : bool :=
  match e with
  | Received RESCAN | Received (ACTION_DONE _) | Received (NAV_CHANGE _)
  | Received GET_STATE | NavigationCompleted _ | ProcessTabCalled => true
  | _ => false
  end.

End MoreReading.

(** ** Reading the worker between its awaits *)

Section BetweenReading.
Import SessionState World Worker.

(** a worker with nothing put aside *)
Definition settled (w : World) : Worker := {| vars := w; pending := [] |}.

(** the steps stored as [current]: [state.current = step] is followed at
    once by a write of the session, and no other write carries a step *)
Definition stored (out : list Effect) : list GuidanceStep :=
  flat_map (fun e =>
              match e with
              | saveState s => match current s with Some st => [st] | None => [] end
              | _ => []
              end) out.

(** no record of the history carries the selector of the step *)
Definition unused (s : SessionState) (st : GuidanceStep) : Prop :=
  forall h, In h (history s) -> ActionRecord.selector h <> GuidanceStep.selector st.

(** a run of [processTab] with no other listener in between: its entry and
    the answers to its awaits, one after the other *)
Definition passAlone (env : PassEnv) : list Tick :=
  [Called;
   Settled 0 (tabFound (PassEnv.tab env));
   Settled 0 (extracted (PassEnv.extract env));
   Settled 0 (modelAnswered (PassEnv.fetch env));
   Settled 0 stateSaved;
   Settled 0 (messageDelivered (PassEnv.showDelivered env))].

(** the same for the retry, from its timer on *)
Definition retryAlone (env : PassEnv) : list Tick :=
  [Settled 0 timerFired;
   Settled 0 (extracted (PassEnv.extract env));
   Settled 0 (modelAnswered (PassEnv.fetch env));
   Settled 0 stateSaved;
   Settled 0 (messageDelivered (PassEnv.showDelivered env))].

(** the awaits that lie between [processing = true] and the [finally]
    block of [processTab] *)
Definition inPass (t : Task) : bool :=
  match t with
  | atTabsGet | atExtract inTry | atLlmPlan inTry _ _ _ | atHideOverlay
  | atShowStep inTry => true
  | atSaveState k =>
      match k with
      | announceCompleted | showStep inTry _ | announceNoStep => true
      | _ => false
      end
  | _ => false
  end.

Definition passesInFlight (m : Worker) : nat :=
  List.length (filter inPass (pending m)).

(** [processing] is set exactly while one run of [processTab] is between
    its entry and its [finally] block *)
Definition guarded (m : Worker) : Prop :=
  passesInFlight m = if processing (vars m) then 1%nat else 0%nat.

(** a listener runs; no await settles *)
Definition isListener (t : Tick) : bool :=
  match t with
  | Settled _ _ => false
  | _ => true
  end.

(** START or STOP is heard *)
Definition replacesTick (t : Tick) : bool :=
  match t with
  | Heard (START _ _) | Heard STOP => true
  | _ => false
  end.

(** a call of [llmPlan] is waiting for the model *)
Definition awaitsModel (t : Task) : bool :=
  match t with
  | atLlmPlan _ _ _ _ => true
  | _ => false
  end.

(** a START message that asks for the model *)
Definition startsLlm (t : Tick) : bool :=
  match t with
  | Heard (START _ llm) => true
  | _ => false
  end.

(** the session is in heuristic mode and no call of [llmPlan] is waiting *)
Definition heuristicSession (m : Worker) : Prop :=
  mode (state (vars m)) = heuristic
  /\ forallb (fun t => negb (awaitsModel t)) (pending m) = true.

(** what is left of the candidate of [plan]: the first attempt drops it
    when [isStuck] holds, the retry keeps it *)
Definition keptBy (a : Attempt) (s : SessionState) (cand : option GuidanceStep)
    : option GuidanceStep :=
  match cand, a with
  | Some st, inTry => if isStuck s st then None else Some st
  | _, _ => cand
  end.

Definition listOf {A} (o : option A) : list A :=
  match o with Some a => [a] | None => [] end.

(** a write to storage has not resolved yet *)
Definition awaitsWrite (t : Task) : bool :=
  match t with
  | atSaveState _ => true
  | _ => false
  end.

Definition writesAwaited (m : Worker) : nat :=
  List.length (filter awaitsWrite (pending m)).

(** the [catch] block of [processTab] has set the timer of the retry *)
Definition retryScheduled (out : list Effect) : bool :=
  existsb (fun e => match e with retryLater => true | _ => false end) out.

(** a tick that ends [plan] with a candidate: what the worker is left with *)
Definition planEnds (a : Attempt) (n : nat) (m : Worker) (cand : option GuidanceStep)
    (after : Worker * list Effect) : Prop :=
  let kept := keptBy a (state (vars m)) cand in
  stored (snd after) = listOf kept
  /\ (forall st, kept = Some st ->
        current (state (vars (fst after))) = Some st
        /\ nth_error (pending (fst after)) n = Some (atSaveState (showStep a st)))
  /\ (In (broadcast (ERROR STUCK_MSG)) (snd after) <->
      a = inTry /\ exists st, cand = Some st /\ isStuck (state (vars m)) st = true)
  /\ (kept = None -> a = inTry -> completed (state (vars m)) = false ->
      current (state (vars (fst after))) = None).

End BetweenReading.

Module SampleTrace.

(** A session in llm mode: the model answers [click(0)], Submit is shown and
    clicked; the next pass asks the model again, and before the answer is
    there a START in heuristic mode replaces the session. *)
Definition lateStart : list Tick :=
  ([Heard (START "submit the form" llm); Settled 0 stateSaved]
   ++ passAlone (Sample.env Sample.submitPage (Sample.answers "0"))
   ++ [Heard (ACTION_DONE click); Settled 0 stateSaved;
       Called;
       Settled 0 (tabFound (Some (Some "https://dmv.example/apply")));
       Settled 0 (extracted (ExtractPage Sample.submitPage));
       Heard (START "submit the form" heuristic)])%list.

(** a pass that waits for its snapshot, in a worker read back from
    storage *)
Definition atSnapshot (s : SessionState) : Worker :=
  {| Worker.vars :=
       {| World.state := s; World.llmConfig := Some Sample.config; World.processing := true;
          World.emptyHistory := []; World.sharesHistory := false |};
     Worker.pending := [atExtract inTry] |}.

End SampleTrace.

(** ** The end of [extractPage] (content script)

    What [extractPage] does once the loop over the document has filled
    [rawElements]: sort, cap at 150, number.  What is read from the
    document for each element (tag name, attributes, [getElementText],
    [getLabel], [buildSelector], [getInputValue], the checked state, the
    bounding rectangle and the two flags) is given.  The callback of [map]
    is the one of the later revision of the content script, which also
    fills [value], [isRequired] and [isFilled] for inputs; sort, cap and
    numbering are the same in both revisions. *)

Module RawElement.
Record t := {
  tagName : string;
  roleAttr : option string;
  typeAttr : option string;
  placeholderAttr : option string;
  contenteditableAttr : option string;
  hasRequiredAttr : bool;
  ariaRequiredAttr : option string;
  elementText : string;
  elementLabel : string;
  elementSelector : string;
  inputValue : string;   (* getInputValue(el) *)
  checkedBox : bool;     (* a checkbox or radio input that is checked *)
  rect : Rect.t;
  inViewport : bool;
  inPanel : bool
}.
End RawElement.
Abbreviation RawElement := RawElement.t.

Section ExtractPage.
Import RawElement.

(** the comparator handed to [rawElements.sort] *)
Definition compareRaw (hasOpenDialog : bool) (a b : RawElement) : Z :=
  if (hasOpenDialog && negb (Bool.eqb (inPanel a) (inPanel b)))%bool then
    if inPanel a then -1 else 1
  else if negb (Bool.eqb (inViewport a) (inViewport b)) then
    if inViewport a then -1 else 1
  else Rect.top (rect a) - Rect.top (rect b).

(** the stable sort: an item goes before the first later item that it does
    not follow in the order *)
Fixpoint insertRaw (hasOpenDialog : bool) (x : RawElement) (l : list RawElement)
    : list RawElement :=
  match l with
  | [] => [x]
  | y :: l' =>
      if compareRaw hasOpenDialog x y <=? 0 then x :: y :: l'
      else y :: insertRaw hasOpenDialog x l'
  end.

Fixpoint sortRaw (hasOpenDialog : bool) (l : list RawElement) : list RawElement :=
  match l with
  | [] => []
  | x :: l' => insertRaw hasOpenDialog x (sortRaw hasOpenDialog l')
  end.

Definition isInputFilled (el : RawElement) : bool :=
  let val := inputValue el in
  if Nat.ltb 0 (String.length val) then true
  else checkedBox el.

Definition isRequired (el : RawElement) : bool :=
  if hasRequiredAttr el then true
  else if Js.optIs (ariaRequiredAttr el) "true" then true
  else
    let label := elementLabel el in
    if Js.includes label "*" then true else false.

(** the callback of [capped.map((item, idx) => ...)] *)
Definition toElement (scrollX scrollY : Z) (idx : Z) (item : RawElement) : PageElement :=
  let tag := Js.toLowerCase (tagName item) in
  let isInputEl :=
    (Js.has ["input"; "textarea"; "select"] tag
     || Js.optIs (contenteditableAttr item) "true")%bool in
  {| PageElement.idx := idx;
     PageElement.tag := tag;
     PageElement.role := Js.nullish (roleAttr item) tag;
     PageElement.text := elementText item;
     PageElement.label := elementLabel item;
     PageElement.selector := elementSelector item;
     PageElement.rect :=
       {| Rect.top := Rect.top (rect item) + scrollY;
          Rect.left := Rect.left (rect item) + scrollX;
          Rect.width := Rect.width (rect item);
          Rect.height := Rect.height (rect item) |};
     PageElement.isInput := isInputEl;
     PageElement.inputType := typeAttr item;
     PageElement.placeholder := placeholderAttr item;
     PageElement.value := if isInputEl then Some (inputValue item) else None;
     PageElement.isRequired := if isInputEl then Some (isRequired item) else None;
     PageElement.isFilled := if isInputEl then Some (isInputFilled item) else None;
     PageElement.isInViewport := inViewport item;
     PageElement.isInDialog := inPanel item |}.

(** [xs.map((item, idx) => f(idx, item))], counting from [i] *)
Fixpoint mapFrom {A B} (f : Z -> A -> B) (i : Z) (xs : list A) : list B :=
  match xs with
  | [] => []
  | x :: xs' => f i x :: mapFrom f (i + 1) xs'
  end.

Definition extractPageFrom (url title : string) (hasOpenDialog : bool)
    (scrollX scrollY : Z) (rawElements : list RawElement) : PageData :=
  let capped := firstn 150 (sortRaw hasOpenDialog rawElements) in
  {| PageData.url := url;
     PageData.title := title;
     PageData.elements := mapFrom (toElement scrollX scrollY) 0 capped;
     PageData.hasOpenDialog := hasOpenDialog |}.

(** [a] may stand before [b] in a snapshot: panel elements first when a
    panel is open, then elements in the viewport, then from the top down *)
Definition mayPrecede (hasOpenDialog : bool) (a b : PageElement) : Prop :=
  (hasOpenDialog = true -> PageElement.isInDialog b = true ->
   PageElement.isInDialog a = true)
  /\ (hasOpenDialog = false \/ PageElement.isInDialog a = PageElement.isInDialog b ->
      (PageElement.isInViewport b = true -> PageElement.isInViewport a = true)
      /\ (PageElement.isInViewport a = PageElement.isInViewport b ->
          Rect.top (PageElement.rect a) <= Rect.top (PageElement.rect b))).

End ExtractPage.

Module SampleRaw.

Definition item (tg sel : string) (ty : option string) (top : Z) (vp pn : bool)
    : RawElement :=
  {| RawElement.tagName := tg;
     RawElement.roleAttr := None;
     RawElement.typeAttr := ty;
     RawElement.placeholderAttr := None;
     RawElement.contenteditableAttr := None;
     RawElement.hasRequiredAttr := false;
     RawElement.ariaRequiredAttr := None;
     RawElement.elementText := EmptyString;
     RawElement.elementLabel := EmptyString;
     RawElement.elementSelector := sel;
     RawElement.inputValue := EmptyString;
     RawElement.checkedBox := false;
     RawElement.rect := {| Rect.top := top; Rect.left := 0; Rect.width := 120; Rect.height := 40 |};
     RawElement.inViewport := vp;
     RawElement.inPanel := pn |}.

(** document order: a footer link off screen, then two inputs in view *)
Definition items : list RawElement :=
  [item "A" "#footer" None 2400 false false;
   item "INPUT" "#last" (Some "text") 300 true false;
   item "INPUT" "#first" (Some "text") 120 true false].

Definition page : PageData :=
  extractPageFrom "https://dmv.example/apply" "DMV" false 0 0 items.

End SampleRaw.

(** * Properties *)

(** ** The ranking *)

Section Ranking.

Lemma In_insertRanked (x y : Scored) (l : list Scored) :
  In y (insertRanked x l) <-> y = x \/ In y l.
Proof.
  induction l as [|z l IH]; simpl.
  - intuition.
  - destruct (Scored.score z <=? Scored.score x); simpl.
    + intuition.
    + rewrite IH. intuition.
Qed.

Lemma In_sortRanked (y : Scored) (l : list Scored) :
  In y (sortRanked l) <-> In y l.
Proof.
  induction l as [|x l IH]; simpl.
  - tauto.
  - rewrite In_insertRanked, IH. intuition.
Qed.

(** The entry that beats everything before it and is not beaten by anything
    after it comes out of the sort in front. *)
Lemma sortRanked_first_max (l1 l2 : list Scored) (x : Scored) :
  (forall y, In y l1 -> Scored.score y < Scored.score x) ->
  (forall y, In y l2 -> Scored.score y <= Scored.score x) ->
  exists r, sortRanked (l1 ++ x :: l2)%list = x :: r.
Proof.
  intros Hbefore Hafter.
  induction l1 as [|a l1 IH]; simpl.
  - destruct (sortRanked l2) as [|y r] eqn:E; simpl.
    + now exists [].
    + assert (Hy : Scored.score y <= Scored.score x).
      { apply Hafter. apply In_sortRanked. rewrite E. now left. }
      apply Z.leb_le in Hy. rewrite Hy. now exists (y :: r).
  - destruct IH as [r Hr].
    { intros y Hy. apply Hbefore. now right. }
    rewrite Hr. simpl.
    assert (Ha : Scored.score a < Scored.score x) by (apply Hbefore; now left).
    apply Z.leb_gt in Ha. rewrite Ha. now exists (insertRanked a r).
Qed.

(** Nothing in the list beats the entry the sort puts in front. *)
Lemma sortRanked_head_max (l r : list Scored) (x : Scored) :
  sortRanked l = x :: r ->
  forall y, In y l -> Scored.score y <= Scored.score x.
Proof.
  revert x r.
  induction l as [|a l IH]; intros x r Hsort y Hy; simpl in *.
  - contradiction.
  - destruct (sortRanked l) as [|z r'] eqn:E; simpl in Hsort.
    + injection Hsort as <- _.
      destruct Hy as [<-|Hy]; [lia|].
      apply In_sortRanked in Hy. rewrite E in Hy. contradiction.
    + destruct (Scored.score z <=? Scored.score a) eqn:Hza.
      * injection Hsort as <- _.
        apply Z.leb_le in Hza.
        destruct Hy as [<-|Hy]; [lia|].
        specialize (IH z r' eq_refl y Hy). lia.
      * injection Hsort as <- _.
        apply Z.leb_gt in Hza.
        destruct Hy as [<-|Hy]; [lia|].
        exact (IH z r' eq_refl y Hy).
Qed.

End Ranking.

(** ** The heuristic planner *)

Section PlannerFacts.
Import PageElement PageData SessionState.

Lemma ranked_unfold (page : PageData) (state : SessionState) :
  ranked page state =
  sortRanked (filter (fun x => -500 <? Scored.score x)
                     (map (scored page state) (elements page))).
Proof. reflexivity. Qed.

(** Every entry of [ranked] is an element of the snapshot with its score,
    and that score is above the cut of -500. *)
Lemma In_ranked (page : PageData) (state : SessionState) (x : Scored) :
  In x (ranked page state) <->
  exists el, In el (elements page) /\ x = scored page state el
             /\ -500 < scoreIn page state el.
Proof.
  rewrite ranked_unfold, In_sortRanked, filter_In, in_map_iff.
  split.
  - intros [[el [<- Hel]] Hcut]. exists el. simpl in Hcut.
    apply Z.ltb_lt in Hcut. auto.
  - intros [el [Hel [-> Hcut]]]. split.
    + now exists el.
    + simpl. now apply Z.ltb_lt.
Qed.

(** A used selector is scored -1000. *)
Lemma score_above_cut_unused (el : PageElement) kw used texts phase dlg :
  -500 < score el kw used texts phase dlg -> Js.has used (selector el) = false.
Proof.
  unfold score. destruct (Js.has used (selector el)); [lia | reflexivity].
Qed.

(** With a panel open, an element outside it is scored -1000 or -2000. *)
Lemma score_above_cut_in_dialog (el : PageElement) kw used texts phase :
  -500 < score el kw used texts phase true -> isInDialog el = true.
Proof.
  unfold score. destruct (Js.has used (selector el)); [lia|].
  destruct (isInDialog el); [reflexivity | lia].
Qed.

(** When some element scores above 0 the ranking is not empty and its
    first entry scores above 0. *)
Lemma ranked_head_positive (page : PageData) (state : SessionState) (el : PageElement) :
  In el (elements page) -> 0 < scoreIn page state el ->
  exists x r, ranked page state = x :: r /\ 0 < Scored.score x.
Proof.
  intros Hel Hpos.
  assert (Hin : In (scored page state el) (ranked page state)).
  { apply In_ranked. exists el. repeat split; auto. lia. }
  destruct (ranked page state) as [|x r] eqn:E; [contradiction|].
  exists x, r. split; [reflexivity|].
  rewrite ranked_unfold in E.
  pose proof (sortRanked_head_max _ _ _ E (scored page state el)) as Hmax.
  rewrite <- E, In_sortRanked in Hin.
  specialize (Hmax Hin). simpl in Hmax. lia.
Qed.

(** When no element scores above 0 the planner goes to its fallbacks. *)
Lemma heuristicPlan_no_positive (page : PageData) (state : SessionState) :
  elements page <> [] ->
  (PagePhase_eqb (detectPhase page) success && (1 <? step state))%bool = false ->
  (forall el, In el (elements page) -> scoreIn page state el <= 0) ->
  heuristicPlan page state = fallbackPlan page state.
Proof.
  intros Hne Hgo Hnone. unfold heuristicPlan.
  destruct (elements page) as [|e0 els] eqn:Eels; [congruence|]. simpl.
  rewrite Hgo.
  destruct (ranked page state) as [|x r] eqn:E; [reflexivity|].
  assert (Hx : In x (ranked page state)) by (rewrite E; now left).
  apply In_ranked in Hx. destruct Hx as [el [Hel [-> _]]]. simpl.
  rewrite Eels in Hel. specialize (Hnone el Hel).
  apply Z.ltb_ge in Hnone. now rewrite Hnone.
Qed.

(** The first element that reaches the highest score, if that score is
    above 0, is the one the planner returns. *)
Lemma heuristicPlan_first_max (page : PageData) (state : SessionState)
    (l1 l2 : list PageElement) (el : PageElement) :
  (PagePhase_eqb (detectPhase page) success && (1 <? step state))%bool = false ->
  elements page = (l1 ++ el :: l2)%list ->
  0 < scoreIn page state el ->
  (forall x, In x l1 -> scoreIn page state x < scoreIn page state el) ->
  (forall x, In x l2 -> scoreIn page state x <= scoreIn page state el) ->
  heuristicPlan page state = Some (stepFor page state el (actionFor el)).
Proof.
  intros Hgo Hsplit Hpos Hbefore Hafter.
  assert (Hcut : (-500 <? scoreIn page state el) = true) by (apply Z.ltb_lt; lia).
  destruct (sortRanked_first_max
              (filter (fun x => -500 <? Scored.score x) (map (scored page state) l1))
              (filter (fun x => -500 <? Scored.score x) (map (scored page state) l2))
              (scored page state el)) as [r Hr].
  - intros y Hy. apply filter_In in Hy. destruct Hy as [Hy _].
    apply in_map_iff in Hy. destruct Hy as [e [<- He]]. simpl. auto.
  - intros y Hy. apply filter_In in Hy. destruct Hy as [Hy _].
    apply in_map_iff in Hy. destruct Hy as [e [<- He]]. simpl. auto.
  - unfold heuristicPlan.
    assert (Hlen : Nat.eqb (List.length (elements page)) 0 = false).
    { rewrite Hsplit, length_app. simpl. apply Nat.eqb_neq. lia. }
    rewrite Hlen, Hgo.
    rewrite ranked_unfold, Hsplit, map_app, filter_app. simpl.
    rewrite Hcut, Hr. simpl.
    apply Z.ltb_lt in Hpos. now rewrite Hpos.
Qed.

(** A step of the planner never names a selector of the history. *)
Lemma heuristicPlan_unused (page : PageData) (state : SessionState) (st : GuidanceStep) :
  heuristicPlan page state = Some st ->
  Js.has (usedSelectorsOf state) (GuidanceStep.selector st) = false.
Proof.
  unfold heuristicPlan.
  destruct (Nat.eqb (List.length (elements page)) 0); [discriminate|].
  destruct (PagePhase_eqb (detectPhase page) success && (1 <? step state))%bool;
    [discriminate|].
  assert (Hfb : fallbackPlan page state = Some st ->
                Js.has (usedSelectorsOf state) (GuidanceStep.selector st) = false).
  { unfold fallbackPlan, Js.find.
    destruct (List.find (fallbackInputPred (usedSelectorsOf state)) (elements page))
      as [e|] eqn:Ea.
    - intros [= <-]. apply find_some in Ea. destruct Ea as [_ Ha].
      unfold fallbackInputPred in Ha. simpl.
      apply andb_prop in Ha. destruct Ha as [_ Ha].
      now apply negb_true_iff in Ha.
    - destruct (List.find (fallbackButtonPred (usedSelectorsOf state)) (elements page))
        as [e|] eqn:Eb; [|discriminate].
      intros [= <-]. apply find_some in Eb. destruct Eb as [_ Hb].
      unfold fallbackButtonPred in Hb. simpl.
      apply andb_prop in Hb. destruct Hb as [Hb _].
      apply andb_prop in Hb. destruct Hb as [_ Hb].
      now apply negb_true_iff in Hb. }
  destruct (ranked page state) as [|x r] eqn:E; [exact Hfb|].
  destruct (0 <? Scored.score x); [|exact Hfb].
  intros [= <-]. simpl.
  assert (Hx : In x (ranked page state)) by (rewrite E; now left).
  apply In_ranked in Hx. destruct Hx as [el [_ [-> Hcut]]]. simpl.
  unfold scoreIn in Hcut. eapply score_above_cut_unused. exact Hcut.
Qed.

End PlannerFacts.

Section PlannerClaims.
Import PageElement PageData SessionState.

(** C8, as the code has it.  On a success page after the first step the
    planner returns null.  Otherwise: the first element that reaches the
    highest score, when that score is above 0, is the one returned; and
    when no element scores above 0 the result is the first in-viewport
    unfilled input with an unused selector, else the first in-viewport
    element that is not an input, has an unused selector and has tag
    'button', role 'button' or tag 'a', else null. *)
Theorem heuristicPlan_selection (page : PageData) (state : SessionState) :
  ((PagePhase_eqb (detectPhase page) success && (1 <? step state))%bool = true ->
   heuristicPlan page state = None)
  /\
  ((PagePhase_eqb (detectPhase page) success && (1 <? step state))%bool = false ->
   (forall l1 el l2,
      elements page = (l1 ++ el :: l2)%list ->
      0 < scoreIn page state el ->
      (forall x, In x l1 -> scoreIn page state x < scoreIn page state el) ->
      (forall x, In x l2 -> scoreIn page state x <= scoreIn page state el) ->
      heuristicPlan page state = Some (stepFor page state el (actionFor el)))
   /\
   ((forall el, In el (elements page) -> scoreIn page state el <= 0) ->
    heuristicPlan page state =
    match List.find (fun e => (isInput e && negb (Js.optTrue (isFilled e)) && isInViewport e
                               && negb (Js.has (usedSelectorsOf state) (selector e)))%bool)
                    (elements page) with
    | Some e => Some (stepFor page state e (actionFor e))
    | None =>
        match List.find (fun e => (negb (isInput e) && isInViewport e
                                   && negb (Js.has (usedSelectorsOf state) (selector e))
                                   && (String.eqb (tag e) "button"
                                       || String.eqb (role e) "button"
                                       || String.eqb (tag e) "a"))%bool)
                        (elements page) with
        | Some e => Some (stepFor page state e click)
        | None => None
        end
    end)).
Proof.
  split; [|intros Hgo; split].
  - intros Hdone. unfold heuristicPlan. rewrite Hdone.
    now destruct (Nat.eqb (List.length (elements page)) 0).
  - intros l1 el l2. now apply heuristicPlan_first_max.
  - intros Hnone. destruct (elements page) as [|e0 els] eqn:Eels.
    + unfold heuristicPlan. now rewrite Eels.
    + rewrite <- Eels in *.
      rewrite heuristicPlan_no_positive; auto.
      rewrite Eels. discriminate.
Qed.

Lemma heuristicPlan_selection_witness :
  heuristicPlan Sample.formPage Sample.fresh
  = Some (stepFor Sample.formPage Sample.fresh Sample.fullName
                  (actionFor Sample.fullName))
  /\ GuidanceStep.instruction
       (stepFor Sample.formPage Sample.fresh Sample.fullName (actionFor Sample.fullName))
     = "Enter your Full Name".
Proof.
  split; [|reflexivity].
  apply (proj1 (proj2 (heuristicPlan_selection Sample.formPage Sample.fresh) eq_refl)
               [] Sample.fullName [Sample.emailFilled]).
  - reflexivity.
  - vm_compute. reflexivity.
  - intros x [].
  - intros x [<-|[]]. vm_compute. discriminate.
Defined.

(** C8, as stated, fails twice.  On a page titled Success at step 2 the
    Continue button scores above 0, yet the planner returns null.  On a page
    whose only element is a filled submit input with role 'button', no score
    is positive and the element is in the viewport and unused, yet the
    planner returns null: its second fallback skips inputs. *)
Lemma heuristicPlan_selection_counterexample :
  (heuristicPlan Sample.successPage (Sample.session "renew" 2 None [] heuristic) = None
   /\ Claimed.heuristicPlan Sample.successPage (Sample.session "renew" 2 None [] heuristic)
      = Some (stepFor Sample.successPage (Sample.session "renew" 2 None [] heuristic)
                      Sample.continueButton click))
  /\
  (heuristicPlan Sample.submitInputPage Sample.fresh = None
   /\ Claimed.heuristicPlan Sample.submitInputPage Sample.fresh
      = Some (stepFor Sample.submitInputPage Sample.fresh Sample.filledSubmitInput click)).
Proof. repeat split; vm_compute; reflexivity. Qed.

(** What [heuristicPlan] reads of the session: the goal, the step counter
    and the selectors and texts of the history. *)
Lemma heuristicPlan_reads (p1 : PageData) (s1 s2 : SessionState) :
  goal s1 = goal s2 ->
  step s1 = step s2 ->
  map ActionRecord.selector (history s1) = map ActionRecord.selector (history s2) ->
  map ActionRecord.text (history s1) = map ActionRecord.text (history s2) ->
  heuristicPlan p1 s1 = heuristicPlan p1 s2.
Proof.
  intros Hgoal Hstep Hsel Htxt.
  assert (Hscore : forall el, scoreIn p1 s1 el = scoreIn p1 s2 el).
  { intros el. unfold scoreIn, usedSelectorsOf, usedTextsOf.
    now rewrite Hgoal, Hsel, Htxt. }
  assert (Hranked : ranked p1 s1 = ranked p1 s2).
  { unfold ranked. f_equal. f_equal. apply map_ext. intros el.
    unfold scored. now rewrite Hscore. }
  assert (Hstepfor : forall el a, stepFor p1 s1 el a = stepFor p1 s2 el a).
  { intros el a. unfold stepFor. now rewrite Hstep. }
  unfold heuristicPlan, fallbackPlan, usedSelectorsOf.
  rewrite Hranked, Hstep, Hsel.
  destruct (Nat.eqb (List.length (elements p1)) 0); [reflexivity|].
  destruct (PagePhase_eqb (detectPhase p1) success && (1 <? step s2))%bool; [reflexivity|].
  assert (Hfb :
    match Js.find (fallbackInputPred (map ActionRecord.selector (history s2))) (elements p1) with
    | Some fallbackInput => Some (stepFor p1 s1 fallbackInput (actionFor fallbackInput))
    | None =>
        match Js.find (fallbackButtonPred (map ActionRecord.selector (history s2))) (elements p1) with
        | Some fallbackButton => Some (stepFor p1 s1 fallbackButton click)
        | None => None
        end
    end =
    match Js.find (fallbackInputPred (map ActionRecord.selector (history s2))) (elements p1) with
    | Some fallbackInput => Some (stepFor p1 s2 fallbackInput (actionFor fallbackInput))
    | None =>
        match Js.find (fallbackButtonPred (map ActionRecord.selector (history s2))) (elements p1) with
        | Some fallbackButton => Some (stepFor p1 s2 fallbackButton click)
        | None => None
        end
    end).
  { destruct (Js.find _ _); [now rewrite Hstepfor|].
    destruct (Js.find _ _); [now rewrite Hstepfor | reflexivity]. }
  destruct (ranked p1 s2) as [|x r]; [exact Hfb|].
  destruct (0 <? Scored.score x); [now rewrite Hstepfor | exact Hfb].
Qed.

(** C9.  The result of [heuristicPlan] is a function of the snapshot and of
    the goal, the step counter and the selectors and texts of the history:
    two calls on the same snapshot and session state return the same
    result, and nothing else in the session changes it. *)
Theorem heuristicPlan_deterministic (p1 p2 : PageData) (s1 s2 : SessionState) :
  p1 = p2 ->
  goal s1 = goal s2 ->
  step s1 = step s2 ->
  map ActionRecord.selector (history s1) = map ActionRecord.selector (history s2) ->
  map ActionRecord.text (history s1) = map ActionRecord.text (history s2) ->
  heuristicPlan p1 s1 = heuristicPlan p2 s2.
Proof.
  intros <-. apply heuristicPlan_reads.
Qed.

Lemma heuristicPlan_deterministic_witness :
  heuristicPlan Sample.formPage Sample.fresh
  = heuristicPlan Sample.formPage
      {| goal := goal Sample.fresh; active := false; completed := true;
         step := 1; current := None; history := []; mode := llm |}.
Proof.
  apply (heuristicPlan_deterministic Sample.formPage Sample.formPage); reflexivity.
Defined.

(** C10.  On a snapshot without elements [heuristicPlan] returns null,
    whatever the url, the title, the panel flag and the session state. *)
Theorem heuristicPlan_no_elements (u t : string) (dlg : bool) (state : SessionState) :
  heuristicPlan {| url := u; title := t; elements := []; hasOpenDialog := dlg |} state
  = None.
Proof. reflexivity. Qed.

End PlannerClaims.

(** ** The phase detector *)

Section PhaseClaims.
Import PageElement PageData.

Lemma detectPhase_login_bool (page : PageData) :
  detectPhase page = login <->
  successSignal page = false
  /\ existsb emailLike (elements page) = true
  /\ existsb passwordLike (elements page) = true.
Proof.
  unfold detectPhase, successSignal.
  destruct (existsb (fun w => Js.includes (pageLower page) w) SUCCESS_WORDS);
    [simpl; split; [discriminate | intros [H _]; discriminate]|].
  destruct (existsb (fun w => Js.includes (visibleText page) w) SUCCESS_WORDS);
    [simpl; split; [discriminate | intros [H _]; discriminate]|].
  simpl.
  destruct (existsb emailLike (elements page)); simpl.
  - destruct (existsb passwordLike (elements page)); simpl.
    + tauto.
    + split; [|intros [_ [_ H]]; discriminate].
      destruct (Nat.ltb 0 _); [discriminate|].
      destruct (Nat.ltb 0 _); discriminate.
  - split; [|intros [_ [H _]]; discriminate].
    destruct (Nat.ltb 0 _); [discriminate|].
    destruct (Nat.ltb 0 _); discriminate.
Qed.

Lemma emailLike_true (e : PageElement) :
  emailLike e = true <->
  isInput e = true /\
  exists t, In t ["email"; "username"] /\
    (Js.includes (Js.nullish (inputType e) EmptyString) t = true
     \/ Js.includes (Js.toLowerCase (Js.nullish (placeholder e) EmptyString)) t = true
     \/ Js.includes (Js.toLowerCase (label e)) t = true).
Proof.
  unfold emailLike. rewrite andb_true_iff, existsb_exists.
  split; intros [Hin [t [Ht H]]]; (split; [exact Hin|]); exists t; (split; [exact Ht|]).
  - apply orb_true_iff in H. destruct H as [H|H]; [|tauto].
    apply orb_true_iff in H. tauto.
  - rewrite !orb_true_iff. tauto.
Qed.

Lemma passwordLike_true (e : PageElement) :
  passwordLike e = true <->
  isInput e = true /\
  (inputType e = Some "password"
   \/ Js.includes (Js.toLowerCase (Js.nullish (placeholder e) EmptyString)) "password" = true).
Proof.
  unfold passwordLike, Js.optIs. rewrite andb_true_iff, orb_true_iff.
  destruct (inputType e) as [ty|].
  - rewrite String.eqb_eq. split; intros [Hin [H|H]]; split; auto.
    + left. now subst.
    + left. now injection H.
  - split; intros [Hin [H|H]]; split; auto; discriminate.
Qed.

(** C7, as the code has it.  [detectPhase] returns 'login' exactly when no
    success word matched and the snapshot holds an input that is
    email/username-like (its type attribute, as written, or its lower-cased
    placeholder or label contains 'email' or 'username') and an input that
    is password-like (its type attribute is exactly 'password', or its
    lower-cased placeholder contains 'password'; the label is not read). *)
Theorem detectPhase_login_iff (page : PageData) :
  detectPhase page = login <->
  successSignal page = false
  /\ (exists e, In e (elements page) /\ isInput e = true /\
        exists t, In t ["email"; "username"] /\
          (Js.includes (Js.nullish (inputType e) EmptyString) t = true
           \/ Js.includes (Js.toLowerCase (Js.nullish (placeholder e) EmptyString)) t = true
           \/ Js.includes (Js.toLowerCase (label e)) t = true))
  /\ (exists e, In e (elements page) /\ isInput e = true /\
        (inputType e = Some "password"
         \/ Js.includes (Js.toLowerCase (Js.nullish (placeholder e) EmptyString)) "password" = true)).
Proof.
  rewrite detectPhase_login_bool, !existsb_exists.
  split.
  - intros [Hs [[e [He Hem]] [e' [He' Hpw]]]]. split; [exact Hs|]. split.
    + exists e. split; [exact He|]. now apply emailLike_true.
    + exists e'. split; [exact He'|]. now apply passwordLike_true.
  - intros [Hs [[e [He Hem]] [e' [He' Hpw]]]]. split; [exact Hs|]. split.
    + exists e. split; [exact He|]. now apply emailLike_true.
    + exists e'. split; [exact He'|]. now apply passwordLike_true.
Qed.

(** C7, as stated, fails.  An empty email input stands next to an empty
    input of type text labelled Password: the two coexist as the claim asks,
    the label naming the password, yet the page is classed 'form-fill'.
    Likewise an input whose type attribute is written EMAIL is not found
    email-like by its type. *)
Lemma detectPhase_login_counterexample :
  (Claimed.isLogin Sample.loginByLabelPage = true
   /\ detectPhase Sample.loginByLabelPage = form_fill)
  /\
  (Claimed.emailLike
     (Sample.element 0 "input" "input" EmptyString EmptyString "#e" true (Some "EMAIL") None (Some false) false)
   = true
   /\ emailLike
     (Sample.element 0 "input" "input" EmptyString EmptyString "#e" true (Some "EMAIL") None (Some false) false)
   = false).
Proof. repeat split; vm_compute; reflexivity. Qed.

End PhaseClaims.

(** ** The orchestrator *)

Section OrchestratorFacts.
Import SessionState World.



Lemma same_refl (s : SessionState) : sameButCurrentCompleted s s.
Proof. repeat split. Qed.

Lemma processTabTry_frame (env : PassEnv) (w : World) :
  sameButCurrentCompleted (state w) (state (fst (fst (processTabTry env w))))
  /\ (completed (state w) = true ->
      completed (state (fst (fst (processTabTry env w)))) = true).
Proof.
  unfold processTabTry.
  destruct (negb (tabAllowed env)); [split; [apply same_refl | auto]|].
  destruct (PassEnv.extract env) as [| |page]; try (split; [apply same_refl | auto]).
  destruct ((1 <? step (state w)) && isSuccessPage page)%bool.
  { split; [repeat split | reflexivity]. }
  destruct (plan w page (PassEnv.fetch env)) as [cand|name];
    [|split; [apply same_refl | auto]].
  destruct (if match cand with Some st => isStuck (state w) st | None => false end
            then None else cand) as [st|].
  - split; [repeat split | auto].
  - destruct (completed (state w)) eqn:Hc; simpl.
    + split; [apply same_refl | auto].
    + split; [repeat split | discriminate].
Qed.

Lemma processTabBody_frame (env : PassEnv) (w : World) :
  sameButCurrentCompleted (state w) (state (fst (processTabBody env w)))
  /\ (completed (state w) = true -> completed (state (fst (processTabBody env w))) = true).
Proof.
  unfold processTabBody.
  pose proof (processTabTry_frame env w) as H.
  destruct (processTabTry env w) as [[w' out] normal]. exact H.
Qed.

Lemma retryPass_frame (env : PassEnv) (w : World) :
  sameButCurrentCompleted (state w) (state (fst (retryPass env w)))
  /\ completed (state (fst (retryPass env w))) = completed (state w).
Proof.
  unfold retryPass.
  destruct (PassEnv.extract env) as [| |page]; try (split; [apply same_refl | auto]).
  destruct (plan w page (PassEnv.fetch env)) as [[st|]|name];
    try (split; [apply same_refl | auto]).
  split; [repeat split | reflexivity].
Qed.

Lemma processTabEnter_state (w : World) : state (processTabEnter w) = state w.
Proof. unfold processTabEnter. now destruct (processTabRuns w). Qed.

Lemma closeCurrent_step (w : World) (f : GuidanceStep -> ActionType) :
  step (state (closeCurrent w f)) = step (state w) + 1.
Proof. unfold closeCurrent. now destruct (current (state w)). Qed.

(** Events other than START, STOP, SKIP and ACTION_DONE leave the step
    counter and the history alone, and keep the latch when it is set. *)
Lemma handle_frame (e : Event) (w : World) :
  replacesSession e = false ->
  (completed (state w) = true -> completed (after e w) = true)
  /\ (match e with
      | Received SKIP | Received (ACTION_DONE _) => True
      | _ => step (after e w) = step (state w) /\ history (after e w) = history (state w)
      end).
Proof.
  unfold after. destruct e as [msg|frameId| |env|env]; simpl.
  - destruct msg; simpl; try discriminate; intros _; auto.
    + destruct (current (state w)); auto.
    + destruct (negb (active (state w))); simpl; auto.
      destruct (current (state w)); auto.
    + destruct (negb (active (state w))); simpl; auto.
  - intros _. unfold onNavigationCompleted.
    destruct (negb (frameId =? 0)); simpl; auto.
    destruct (negb (active (state w))); simpl; auto.
  - intros _. rewrite processTabEnter_state. auto.
  - intros _. destruct (processing w); simpl; auto.
    destruct (processTabBody_frame env w) as [[_ [_ [Hs [Hh _]]]] Hc]. auto.
  - intros _. destruct (retryPass_frame env w) as [[_ [_ [Hs [Hh _]]]] Hc].
    split; [intros H; now rewrite Hc | auto].
Qed.

Lemma handle_step (e : Event) (w : World) :
  replacesSession e = false ->
  step (after e w) = step (state w) + (if closesStep e w then 1 else 0).
Proof.
  intros Hr. pose proof (handle_frame e w Hr) as [_ H].
  destruct e as [msg|frameId| |env|env]; [destruct msg|..];
    try discriminate Hr; simpl in H |- *;
    try (match type of H with _ /\ _ => destruct H as [H _]; rewrite H; lia end).
  - unfold after. simpl. apply closeCurrent_step.
  - unfold after. simpl. destruct (active (state w)); simpl.
    + apply closeCurrent_step.
    + lia.
Qed.

End OrchestratorFacts.

Section SessionClaims.
Import SessionState World.

Lemma run_cons_fst (e : Event) (es : list Event) (w : World) :
  fst (run (e :: es) w) = fst (run es (fst (handle e w))).
Proof.
  simpl. destruct (handle e w) as [w1 out1]. simpl.
  now destruct (run es w1) as [w2 out2].
Qed.

Lemma afterAll_cons (e : Event) (es : list Event) (w : World) :
  afterAll (e :: es) w = afterAll es (fst (handle e w)).
Proof. unfold afterAll. now rewrite run_cons_fst. Qed.

(** The history array of [EMPTY_STATE] is shared with the session: a record
    pushed during one session is still there after STOP and a new START. *)
Remark history_survives_restart :
  map ActionRecord.selector
    (history
       (afterAll
          [Received (START "apply for driver's license" heuristic);
           ProcessTabCalled;
           ProcessTabResumed (Sample.env Sample.formPage (Sample.answers "0"));
           Received SKIP; Received STOP; Received (START "renew" heuristic)]
          Sample.freshWorker))
  = ["#name"].
Proof. vm_compute. reflexivity. Qed.

(** C3, as the code has it.  Once [completed] is true, no sequence of events
    without START and STOP (messages SKIP, RESCAN, ACTION_DONE, NAV_CHANGE,
    GET_STATE, page loads, plan passes and retries) brings it back to
    false; START and STOP each install a session whose [completed] is
    false. *)
Theorem completion_latch :
  (forall es w,
     completed (state w) = true ->
     forallb (fun e => negb (replacesSession e)) es = true ->
     completed (afterAll es w) = true)
  /\ (forall g m w, completed (after (Received (START g m)) w) = false)
  /\ (forall w, completed (after (Received STOP) w) = false).
Proof.
  split; [|split; reflexivity].
  induction es as [|e es IH]; intros w Hc Hes.
  - exact Hc.
  - simpl in Hes. apply andb_prop in Hes. destruct Hes as [He Hes].
    apply negb_true_iff in He.
    rewrite afterAll_cons. apply IH; [|exact Hes].
    exact (proj1 (handle_frame e w He) Hc).
Qed.

Lemma completion_latch_witness :
  completed
    (afterAll
       [Received RESCAN; ProcessTabCalled;
        ProcessTabResumed (Sample.env Sample.formPage (Sample.answers "0"));
        Received SKIP; Received (NAV_CHANGE "https://dmv.example/next");
        Received (ACTION_DONE click);
        RetryFired (Sample.env Sample.formPage (Sample.answers "0"))]
       (Sample.world (withCompleted Sample.fresh true)))
  = true.
Proof.
  apply (proj1 completion_latch); reflexivity.
Defined.

(** C3, as stated, fails: START is not the only message that yields
    [completed = false] again.  A completed session receives STOP and is
    replaced by the empty state. *)
Lemma completion_latch_counterexample :
  completed (state (Sample.world (withCompleted Sample.fresh true))) = true
  /\ after (Received STOP) (Sample.world (withCompleted Sample.fresh true)) = EMPTY_STATE
  /\ completed (after (Received STOP) (Sample.world (withCompleted Sample.fresh true)))
     = false.
Proof. repeat split. Qed.

(** C6, as the code has it.  SKIP adds exactly 1 to the step counter;
    ACTION_DONE adds exactly 1 while the session is active and nothing
    otherwise; START and STOP set the counter to 1; every other event
    (RESCAN, NAV_CHANGE, GET_STATE, a page load, a plan pass, a retry)
    leaves the counter and the history as they are.  Over a sequence of
    events without START and STOP the counter grows by the number of steps
    closed and so never decreases. *)
Theorem step_counter :
  (forall w, step (after (Received SKIP) w) = step (state w) + 1)
  /\ (forall a w,
        step (after (Received (ACTION_DONE a)) w)
        = if active (state w) then step (state w) + 1 else step (state w))
  /\ (forall g m w, step (after (Received (START g m)) w) = 1)
  /\ (forall w, step (after (Received STOP) w) = 1)
  /\ (forall e w,
        replacesSession e = false ->
        match e with
        | Received SKIP | Received (ACTION_DONE _) => True
        | _ => step (after e w) = step (state w)
               /\ history (after e w) = history (state w)
        end)
  /\ (forall es w,
        forallb (fun e => negb (replacesSession e)) es = true ->
        step (afterAll es w) = step (state w) + closedSteps es w
        /\ step (state w) <= step (afterAll es w)).
Proof.
  split; [|split; [|split; [|split; [|split]]]].
  - intros w. unfold after. simpl. apply closeCurrent_step.
  - intros a w. unfold after. simpl.
    destruct (active (state w)); simpl; [apply closeCurrent_step | reflexivity].
  - reflexivity.
  - reflexivity.
  - intros e w He. exact (proj2 (handle_frame e w He)).
  - assert (Hsum : forall es w,
              forallb (fun e => negb (replacesSession e)) es = true ->
              step (afterAll es w) = step (state w) + closedSteps es w
              /\ 0 <= closedSteps es w).
    { induction es as [|e es IH]; intros w Hes.
      - unfold afterAll. simpl. lia.
      - simpl in Hes. apply andb_prop in Hes. destruct Hes as [He Hes].
        apply negb_true_iff in He.
        rewrite afterAll_cons. destruct (IH (fst (handle e w)) Hes) as [-> Hpos].
        pose proof (handle_step e w He) as Hstep. unfold after in Hstep.
        rewrite Hstep. simpl. destruct (closesStep e w); lia. }
    intros es w Hes. destruct (Hsum es w Hes) as [Heq Hpos]. lia.
Qed.

Lemma step_counter_witness :
  step (afterAll
          [Received RESCAN; ProcessTabCalled;
           ProcessTabResumed (Sample.env Sample.formPage (Sample.answers "0"));
           Received (ACTION_DONE type); Received SKIP]
          (Sample.world Sample.fresh))
  = 1 + 2
  /\ 1 <= step (afterAll
          [Received RESCAN; ProcessTabCalled;
           ProcessTabResumed (Sample.env Sample.formPage (Sample.answers "0"));
           Received (ACTION_DONE type); Received SKIP]
          (Sample.world Sample.fresh)).
Proof.
  apply (proj2 (proj2 (proj2 (proj2 (proj2 step_counter))))
           [Received RESCAN; ProcessTabCalled;
            ProcessTabResumed (Sample.env Sample.formPage (Sample.answers "0"));
            Received (ACTION_DONE type); Received SKIP]
           (Sample.world Sample.fresh)).
  reflexivity.
Defined.

(** C6, as stated, fails.  ACTION_DONE received while no session is active
    leaves the counter at 1; and STOP after a SKIP takes it from 2 back
    to 1. *)
Lemma step_counter_counterexample :
  (active (state (Sample.world EMPTY_STATE)) = false
   /\ step (state (Sample.world EMPTY_STATE)) = 1
   /\ step (after (Received (ACTION_DONE click)) (Sample.world EMPTY_STATE)) = 1)
  /\
  (step (afterAll [Received SKIP] (Sample.world Sample.fresh)) = 2
   /\ step (afterAll [Received SKIP; Received STOP] (Sample.world Sample.fresh)) = 1).
Proof. repeat split. Qed.

End SessionClaims.

(** ** Plan passes *)

Section PassFacts.
Import SessionState World.

(** the result of the [try] block once the planner has been reached *)
Lemma processTabTry_planned (env : PassEnv) (w : World) (page : PageData)
    (cand : option GuidanceStep) :
  tabAllowed env = true ->
  PassEnv.extract env = ExtractPage page ->
  ((1 <? step (state w)) && isSuccessPage page)%bool = false ->
  plan w page (PassEnv.fetch env) = Return cand ->
  processTabTry env w =
  match cand with
  | Some st =>
      if isStuck (state w) st then
        if negb (completed (state w)) then
          (setState w (withCurrent (state w) None),
           [broadcast (ERROR STUCK_MSG); saveState (withCurrent (state w) None);
            broadcast (STATE (withCurrent (state w) None));
            broadcast (ERROR NO_STEP_MSG)], true)
        else (w, [broadcast (ERROR STUCK_MSG)], true)
      else
        (setState w (withCurrent (state w) (Some st)),
         [saveState (withCurrent (state w) (Some st));
          broadcast (STATE (withCurrent (state w) (Some st)));
          sendToTab (SHOW_STEP st)], PassEnv.showDelivered env)
  | None =>
      if negb (completed (state w)) then
        (setState w (withCurrent (state w) None),
         [saveState (withCurrent (state w) None);
          broadcast (STATE (withCurrent (state w) None));
          broadcast (ERROR NO_STEP_MSG)], true)
      else (w, [], true)
  end.
Proof.
  intros Htab Hext Hsucc Hplan. unfold processTabTry.
  rewrite Htab, Hext. simpl. rewrite Hsucc, Hplan.
  destruct cand as [st|]; [|reflexivity].
  destruct (isStuck (state w) st); reflexivity.
Qed.

Lemma has_false (set : list string) (x : string) :
  Js.has set x = false -> forall y, In y set -> y <> x.
Proof.
  unfold Js.has. intros Hhas y Hy ->.
  assert (Ht : existsb (String.eqb x) set = true).
  { apply existsb_exists. exists x. split; [exact Hy | apply String.eqb_refl]. }
  congruence.
Qed.

End PassFacts.

(** ** Stuck detection *)

Section StuckClaims.
Import SessionState World.

Lemma sliceLast_app3 {A} (older : list A) (a b c : A) :
  Js.sliceLast 3 (older ++ [a; b; c])%list = [a; b; c].
Proof.
  unfold Js.sliceLast. rewrite length_app. simpl.
  replace (List.length older + 3 - 3)%nat with (List.length older + 0)%nat by lia.
  now rewrite skipn_app, Nat.add_0_r, skipn_all, Nat.sub_diag.
Qed.

Lemma sliceLast_length {A} (n : nat) (l : list A) :
  List.length (Js.sliceLast n l) = Nat.min n (List.length l).
Proof. unfold Js.sliceLast. rewrite length_skipn. lia. Qed.

Lemma sliceLast_three {A} (l : list A) :
  (3 <= List.length l)%nat ->
  exists older a b c, l = (older ++ [a; b; c])%list.
Proof.
  intros Hlen.
  pose proof (firstn_skipn (List.length l - 3) l) as Hsplit.
  pose proof (sliceLast_length 3 l) as Hl. unfold Js.sliceLast in Hl.
  rewrite Nat.min_l in Hl by exact Hlen.
  destruct (skipn (List.length l - 3) l) as [|a [|b [|c [|d r]]]] eqn:E;
    simpl in Hl; try lia.
  exists (firstn (List.length l - 3) l), a, b, c. now rewrite Hsplit.
Qed.

Lemma isStuck_three (s : SessionState) (older : list ActionRecord)
    (r1 r2 r3 : ActionRecord) (cand : GuidanceStep) :
  history s = (older ++ [r1; r2; r3])%list ->
  isStuck s cand =
  ((String.eqb (ActionRecord.selector r1) (GuidanceStep.selector cand)
    && (String.eqb (ActionRecord.selector r2) (GuidanceStep.selector cand)
        && (String.eqb (ActionRecord.selector r3) (GuidanceStep.selector cand) && true)))
   || (Nat.ltb 3 (String.length (GuidanceStep.textHint cand))
       && (String.eqb (ActionRecord.text r1) (GuidanceStep.textHint cand)
           && (String.eqb (ActionRecord.text r2) (GuidanceStep.textHint cand)
               && (String.eqb (ActionRecord.text r3) (GuidanceStep.textHint cand)
                   && true)))))%bool.
Proof.
  intros Hh. unfold isStuck. rewrite Hh, sliceLast_app3. reflexivity.
Qed.

End StuckClaims.

(** * Further properties *)

(** ** Goal keywords *)

Section TokenizeFacts.

Lemma everyChar_impl (p q : ascii -> bool) (s : string) :
  (forall c, p c = true -> q c = true) ->
  Text.everyChar p s = true -> Text.everyChar q s = true.
Proof.
  intros Hpq. induction s as [|c s IH]; simpl; [reflexivity|].
  intros H. apply andb_prop in H. destruct H as [Hc Hs].
  now rewrite (Hpq c Hc), (IH Hs).
Qed.

Lemma blankNonAlnum_chars (s : string) :
  Text.everyChar (fun c => Js.isLowerAlnum c || Js.isSpace c)%bool (Js.blankNonAlnum s) = true.
Proof.
  induction s as [|c s IH]; simpl; [reflexivity|].
  rewrite IH, andb_true_r.
  destruct (Js.isLowerAlnum c || Js.isSpace c)%bool eqn:E; [exact E | reflexivity].
Qed.

(** The pieces cut by [split(/\s+/)] hold no white space. *)
Lemma splitSpaces_chars (p : ascii -> bool) (s : string) :
  Text.everyChar p s = true ->
  Forall (fun w => Text.everyChar (fun c => p c && negb (Js.isSpace c))%bool w = true)
         (Js.splitSpaces s).
Proof.
  induction s as [|c s IH]; simpl.
  - intros _. constructor; [reflexivity | constructor].
  - intros H. apply andb_prop in H. destruct H as [Hc Hs]. specialize (IH Hs).
    destruct (Js.isSpace c) eqn:Hsp.
    + destruct (Js.startsWithSpace s); [exact IH|].
      constructor; [reflexivity | exact IH].
    + destruct (Js.splitSpaces s) as [|h t].
      * constructor; [|constructor]. simpl. now rewrite Hc, Hsp.
      * apply Forall_cons_iff in IH. destruct IH as [Hh Ht].
        constructor; [|exact Ht]. simpl. now rewrite Hc, Hsp, Hh.
Qed.

(** X1.  Every keyword that [tokenize] draws from a goal has at least two
    characters, is not a stop word, and is made of lower-case letters and
    digits only. *)
Theorem tokenize_tokens (s w : string) :
  In w (tokenize s) ->
  (2 <= String.length w)%nat
  /\ Js.has STOP_WORDS w = false
  /\ Text.everyChar Js.isLowerAlnum w = true.
Proof.
  unfold tokenize. intros Hin. apply filter_In in Hin. destruct Hin as [Hin Hkeep].
  apply andb_prop in Hkeep. destruct Hkeep as [Hlen Hstop].
  apply Nat.ltb_lt in Hlen. apply negb_true_iff in Hstop.
  split; [lia|]. split; [exact Hstop|].
  pose proof (splitSpaces_chars _ _ (blankNonAlnum_chars (Js.toLowerCase s))) as Hall.
  rewrite Forall_forall in Hall. specialize (Hall w Hin).
  revert Hall. apply everyChar_impl. intros c Hc.
  apply andb_prop in Hc. destruct Hc as [Hc Hsp].
  apply negb_true_iff in Hsp. rewrite Hsp, orb_false_r in Hc. exact Hc.
Qed.

Lemma tokenize_tokens_witness :
  (2 <= String.length "driver")%nat
  /\ Js.has STOP_WORDS "driver" = false
  /\ Text.everyChar Js.isLowerAlnum "driver" = true.
Proof.
  apply (tokenize_tokens "Apply for a Driver's license!" "driver").
  vm_compute. right. left. reflexivity.
Defined.

End TokenizeFacts.

(** ** Phases *)

Section PhaseTable.
Import PageElement PageData.

Lemma filter_nonempty {A} (p : A -> bool) (l : list A) :
  Nat.ltb 0 (List.length (filter p l)) = existsb p l.
Proof.
  induction l as [|x l IH]; simpl; [reflexivity|].
  destruct (p x); simpl; [reflexivity | exact IH].
Qed.

Ltac phase_rows :=
  repeat split; intros;
  repeat match goal with H : _ /\ _ |- _ => destruct H end;
  try discriminate; repeat split; reflexivity.

(** X2.  The phases in their order of priority: 'success' exactly when a
    success word is found in the title, the url or the text of the first 20
    elements; then 'login'; then 'form-fill' exactly when some input is
    unfilled and its type is not hidden, submit or button; then
    'submit-ready' exactly when some input is filled; 'navigation' is what
    remains. *)
Theorem detectPhase_table (page : PageData) :
  let loginPair := (existsb emailLike (elements page)
                    && existsb passwordLike (elements page))%bool in
  (detectPhase page = success <-> successSignal page = true)
  /\ (detectPhase page = form_fill <->
      successSignal page = false /\ loginPair = false
      /\ existsb emptyInput (elements page) = true)
  /\ (detectPhase page = submit_ready <->
      successSignal page = false /\ loginPair = false
      /\ existsb emptyInput (elements page) = false
      /\ existsb filledInput (elements page) = true)
  /\ (detectPhase page = navigation <->
      successSignal page = false /\ loginPair = false
      /\ existsb emptyInput (elements page) = false
      /\ existsb filledInput (elements page) = false).
Proof.
  unfold detectPhase, successSignal. cbv zeta. rewrite !filter_nonempty.
  generalize (existsb (fun w => Js.includes (pageLower page) w) SUCCESS_WORDS).
  generalize (existsb (fun w => Js.includes (visibleText page) w) SUCCESS_WORDS).
  generalize (existsb emailLike (elements page)).
  generalize (existsb passwordLike (elements page)).
  generalize (existsb emptyInput (elements page)).
  generalize (existsb filledInput (elements page)).
  intros f e p m v t.
  destruct t, v, m, p, e, f; simpl; phase_rows.
Qed.

End PhaseTable.

(** ** Steps of the heuristic planner *)

Section HeuristicSteps.
Import PageElement PageData SessionState.

Lemma substring0_length (n : nat) (s : string) :
  (String.length (Js.substring0 n s) <= n)%nat.
Proof.
  unfold Js.substring0. revert s.
  induction n as [|n IH]; intros [|c s]; simpl; try lia.
  specialize (IH s). lia.
Qed.

Lemma actionFor_planned (el : PageElement) :
  plannedAction (actionFor el) = true
  /\ (actionFor el = type -> isInput el = true)
  /\ (actionFor el = select -> tag el = "select").
Proof.
  unfold actionFor.
  destruct (isInput el).
  - destruct (Js.has _ _); [repeat split; discriminate|].
    destruct (String.eqb (tag el) "select") eqn:E.
    + apply String.eqb_eq in E. repeat split; auto; discriminate.
    + repeat split; discriminate.
  - destruct (String.eqb (tag el) "select") eqn:E.
    + apply String.eqb_eq in E. repeat split; auto; discriminate.
    + repeat split; discriminate.
Qed.

Lemma instructionFor_nonempty (el : PageElement) (a : ActionType) (ph : PagePhase) :
  instructionFor el a ph <> EmptyString.
Proof.
  unfold instructionFor.
  destruct (PagePhase_eqb ph login).
  - destruct (Js.optIs (inputType el) "email" || _)%bool; [discriminate|].
    destruct (Js.optIs (inputType el) "password"); [discriminate|].
    destruct (ActionType_eqb a click); [discriminate|].
    destruct a; discriminate.
  - destruct a; discriminate.
Qed.

Lemma heuristicPlan_step_shape (page : PageData) (state : SessionState) (st : GuidanceStep) :
  heuristicPlan page state = Some st ->
  exists el,
    In el (elements page)
    /\ GuidanceStep.selector st = selector el
    /\ GuidanceStep.textHint st = Js.substring0 60 (text el)
    /\ (String.length (GuidanceStep.textHint st) <= 60)%nat
    /\ GuidanceStep.stepNumber st = step state
    /\ plannedAction (GuidanceStep.action st) = true
    /\ (GuidanceStep.action st = type -> isInput el = true)
    /\ (GuidanceStep.action st = select -> tag el = "select")
    /\ GuidanceStep.instruction st <> EmptyString.
Proof.
  assert (Hstep : forall el a,
            In el (elements page) ->
            plannedAction a = true ->
            (a = type -> isInput el = true) ->
            (a = select -> tag el = "select") ->
            exists el',
              In el' (elements page)
              /\ GuidanceStep.selector (stepFor page state el a) = selector el'
              /\ GuidanceStep.textHint (stepFor page state el a) = Js.substring0 60 (text el')
              /\ (String.length (GuidanceStep.textHint (stepFor page state el a)) <= 60)%nat
              /\ GuidanceStep.stepNumber (stepFor page state el a) = step state
              /\ plannedAction (GuidanceStep.action (stepFor page state el a)) = true
              /\ (GuidanceStep.action (stepFor page state el a) = type -> isInput el' = true)
              /\ (GuidanceStep.action (stepFor page state el a) = select -> tag el' = "select")
              /\ GuidanceStep.instruction (stepFor page state el a) <> EmptyString).
  { intros el a Hel Ha Ht Hs. exists el. simpl.
    repeat split; auto using substring0_length, instructionFor_nonempty. }
  assert (Hfb : fallbackPlan page state = Some st ->
                exists el, In el (elements page)
                  /\ GuidanceStep.selector st = selector el
                  /\ GuidanceStep.textHint st = Js.substring0 60 (text el)
                  /\ (String.length (GuidanceStep.textHint st) <= 60)%nat
                  /\ GuidanceStep.stepNumber st = step state
                  /\ plannedAction (GuidanceStep.action st) = true
                  /\ (GuidanceStep.action st = type -> isInput el = true)
                  /\ (GuidanceStep.action st = select -> tag el = "select")
                  /\ GuidanceStep.instruction st <> EmptyString).
  { unfold fallbackPlan, Js.find.
    destruct (List.find (fallbackInputPred _) (elements page)) as [e|] eqn:Ea.
    - intros [= <-]. apply find_some in Ea. destruct Ea as [He _].
      destruct (actionFor_planned e) as [H1 [H2 H3]]. now apply Hstep.
    - destruct (List.find (fallbackButtonPred _) (elements page)) as [e|] eqn:Eb;
        [|discriminate].
      intros [= <-]. apply find_some in Eb. destruct Eb as [He _].
      apply Hstep; auto; discriminate. }
  unfold heuristicPlan.
  destruct (Nat.eqb (List.length (elements page)) 0); [discriminate|].
  destruct (PagePhase_eqb (detectPhase page) success && (1 <? step state))%bool;
    [discriminate|].
  destruct (ranked page state) as [|x r] eqn:E; [exact Hfb|].
  destruct (0 <? Scored.score x); [|exact Hfb].
  intros [= <-].
  assert (Hx : In x (ranked page state)) by (rewrite E; now left).
  apply In_ranked in Hx. destruct Hx as [el [Hel [-> _]]]. simpl.
  destruct (actionFor_planned el) as [H1 [H2 H3]]. now apply Hstep.
Qed.

(** X3.  A step returned by [heuristicPlan] is built from an element of the
    snapshot: it carries that element's selector, the first 60 characters
    at most of its text, and the session's step counter; its action is
    click, type or select, type only for an input and select only for a
    select tag; and its instruction is not empty. *)
Theorem heuristicPlan_step (page : PageData) (state : SessionState) (st : GuidanceStep) :
  heuristicPlan page state = Some st ->
  exists el,
    In el (elements page)
    /\ GuidanceStep.selector st = selector el
    /\ GuidanceStep.textHint st = Js.substring0 60 (text el)
    /\ (String.length (GuidanceStep.textHint st) <= 60)%nat
    /\ GuidanceStep.stepNumber st = step state
    /\ plannedAction (GuidanceStep.action st) = true
    /\ (GuidanceStep.action st = type -> isInput el = true)
    /\ (GuidanceStep.action st = select -> tag el = "select")
    /\ GuidanceStep.instruction st <> EmptyString.
Proof. apply heuristicPlan_step_shape. Qed.

Lemma heuristicPlan_step_witness :
  exists el,
    In el (elements Sample.formPage)
    /\ "#name" = selector el
    /\ EmptyString = Js.substring0 60 (text el)
    /\ (0 <= 60)%nat
    /\ 1 = 1
    /\ true = true
    /\ (type = type -> isInput el = true)
    /\ (type = select -> tag el = "select")
    /\ "Enter your Full Name" <> EmptyString.
Proof.
  apply (heuristicPlan_step Sample.formPage Sample.fresh
           (stepFor Sample.formPage Sample.fresh Sample.fullName type)).
  vm_compute. reflexivity.
Defined.

(** X4.  When every element of the snapshot carries a selector that is
    already in the history, [heuristicPlan] returns null: nothing is ranked
    and both fallbacks pass over used selectors. *)
Theorem heuristicPlan_all_used (page : PageData) (state : SessionState) :
  (forall el, In el (elements page) ->
              Js.has (usedSelectorsOf state) (selector el) = true) ->
  heuristicPlan page state = None.
Proof.
  intros Hused.
  destruct (heuristicPlan page state) as [st|] eqn:Hplan; [|reflexivity].
  pose proof (heuristicPlan_unused page state st Hplan) as Hfree.
  destruct (heuristicPlan_step_shape page state st Hplan) as [el [Hel [Hsel _]]].
  rewrite Hsel, (Hused el Hel) in Hfree. discriminate.
Qed.

Lemma heuristicPlan_all_used_witness :
  heuristicPlan Sample.submitPage
    (Sample.session "submit the form" 2 None [Sample.record 1 "#submit" "Submit"] heuristic)
  = None.
Proof.
  apply heuristicPlan_all_used.
  intros el [<-|[]]. reflexivity.
Defined.

End HeuristicSteps.

(** ** The reply of the model *)

Section ReplyFacts.
Import PageElement PageData SessionState.

Lemma span_every (p : ascii -> bool) (s : string) :
  Text.everyChar p (fst (Re.span p s)) = true.
Proof.
  induction s as [|c s IH]; simpl; [reflexivity|].
  destruct (p c) eqn:Hc; [|reflexivity].
  destruct (Re.span p s) as [a b]. simpl in *. now rewrite Hc, IH.
Qed.

Lemma parseDigits_nonneg (ds : string) (acc : Z) :
  Text.everyChar Js.isDigit ds = true -> 0 <= acc -> 0 <= Js.parseDigits ds acc.
Proof.
  revert acc. induction ds as [|c ds IH]; intros acc Hds Hacc; [exact Hacc|].
  cbn [Text.everyChar] in Hds. cbn [Js.parseDigits].
  apply andb_prop in Hds. destruct Hds as [Hc Hds].
  apply IH; [exact Hds|].
  unfold Js.isDigit in Hc. apply andb_prop in Hc. destruct Hc as [Hlo _].
  apply Nat.leb_le in Hlo. lia.
Qed.

(** What the action pattern captures: a name, and digits or nothing. *)
Lemma actionAt_digits (s name : string) (digits : option string) :
  Re.actionAt s = Some (name, digits) ->
  match digits with
  | Some ds => Text.everyChar Js.isDigit ds = true
  | None => True
  end.
Proof.
  unfold Re.actionAt.
  destruct (Re.literal "<Action>" s) as [r1|]; [|discriminate].
  destruct (Re.span Js.isWord r1) as [n r2].
  destruct (Js.truthy n); [|discriminate].
  destruct r2 as [|c r3]; [discriminate|].
  destruct (Ascii.eqb c "("%char) eqn:Ec.
  2:{ destruct c as [[] [] [] [] [] [] [] []]; try discriminate Ec; discriminate. }
  apply Ascii.eqb_eq in Ec. subst c.
  pose proof (span_every Js.isDigit r3) as Hds.
  destruct (Re.span Js.isDigit r3) as [ds r4]. simpl in Hds.
  destruct r4 as [|c r5]; [discriminate|].
  destruct (Ascii.eqb c ")"%char) eqn:Ec.
  2:{ destruct c as [[] [] [] [] [] [] [] []]; try discriminate Ec; discriminate. }
  apply Ascii.eqb_eq in Ec. subst c.
  destruct (Re.literal "</Action>" r5); [|discriminate].
  destruct (Js.truthy ds); intros [= _ <-]; [exact Hds | exact I].
Qed.

Lemma action_digits (s name : string) (digits : option string) :
  Re.action s = Some (name, digits) ->
  match digits with
  | Some ds => Text.everyChar Js.isDigit ds = true
  | None => True
  end.
Proof.
  induction s as [|c s IH]; cbn [Re.action].
  - destruct (Re.actionAt EmptyString) as [m|] eqn:E; [|discriminate].
    intros [= ->]. exact (actionAt_digits _ _ _ E).
  - destruct (Re.actionAt (String c s)) as [m|] eqn:E; [|exact IH].
    intros [= ->]. exact (actionAt_digits _ _ _ E).
Qed.

End ReplyFacts.

Section ReplyClaims.
Import PageElement PageData SessionState.

Lemma namedAction_code (n : string) :
  (let action := click in
   let action := if String.eqb n "type" then type else action in
   let action := if String.eqb n "select" then select else action in
   action) = namedAction n.
Proof.
  unfold namedAction. cbv zeta.
  destruct (String.eqb n "select"); reflexivity.
Qed.

Lemma namedAction_planned (n : string) : plannedAction (namedAction n) = true.
Proof.
  unfold namedAction.
  destruct (String.eqb n "select"); [reflexivity|].
  destruct (String.eqb n "type"); reflexivity.
Qed.

(** the step [llmPlan] builds for an element once the reply is parsed *)
Lemma llmPlan_shape (page : PageData) (s : SessionState) (cfg : LLMConfig)
    (io : FetchOutcome) (st : GuidanceStep) :
  llmPlan page s cfg io = Return (Some st) <->
  exists status contentText choiceText name ds el,
    io = Response status (Json contentText choiceText)
    /\ responseOk status = true
    /\ Re.action (rawReply cfg contentText choiceText) = Some (name, Some ds)
    /\ Js.toLowerCase name <> "wait"
    /\ List.find (fun e => idx e =? Js.parseDigits ds 0) (elements page) = Some el
    /\ st = {| GuidanceStep.stepNumber := step s;
               GuidanceStep.action := namedAction (Js.toLowerCase name);
               GuidanceStep.selector := selector el;
               GuidanceStep.textHint := Js.substring0 60 (text el);
               GuidanceStep.instruction :=
                 Js.orElse
                   match Re.thought (rawReply cfg contentText choiceText) with
                   | Some t => Js.trim t
                   | None => EmptyString
                   end
                   (instructionFor el (namedAction (Js.toLowerCase name))
                                   (detectPhase page)) |}.
Proof.
  unfold llmPlan, llmPlanTry. split.
  - destruct io as [n|status payload]; [discriminate|].
    destruct (responseOk status) eqn:Hok; cbn [negb]; [|discriminate].
    destruct payload as [|ct ch]; [discriminate|].
    change (match LLMConfig.provider cfg with
            | anthropic => Js.nullish ct EmptyString ++ "</Action>"
            | _ => Js.nullish ch EmptyString ++ "</Action>"
            end) with (rawReply cfg ct ch).
    destruct (Re.action (rawReply cfg ct ch)) as [[name digits]|] eqn:Eact;
      [|discriminate].
    destruct digits as [ds|].
    2:{ rewrite orb_true_r. discriminate. }
    destruct (String.eqb (Js.toLowerCase name) "wait") eqn:Hwait; [discriminate|].
    destruct (Js.parseDigits ds 0 <? 0) eqn:Hneg; [discriminate|].
    cbn [orb]. unfold Js.find.
    destruct (List.find (fun e => idx e =? Js.parseDigits ds 0) (elements page))
      as [el|] eqn:Efind; [|discriminate].
    rewrite namedAction_code. intros [= <-].
    exists status, ct, ch, name, ds, el.
    apply String.eqb_neq in Hwait. repeat split; auto.
  - intros [status [ct [ch [name [ds [el [-> [Hok [Eact [Hwait [Efind ->]]]]]]]]]]].
    rewrite Hok. cbn [negb].
    change (match LLMConfig.provider cfg with
            | anthropic => Js.nullish ct EmptyString ++ "</Action>"
            | _ => Js.nullish ch EmptyString ++ "</Action>"
            end) with (rawReply cfg ct ch).
    rewrite Eact.
    apply String.eqb_neq in Hwait. rewrite Hwait.
    assert (Hneg : (Js.parseDigits ds 0 <? 0) = false).
    { apply Z.ltb_ge. apply parseDigits_nonneg; [|lia].
      exact (action_digits _ _ _ Eact). }
    rewrite Hneg. cbn [orb]. unfold Js.find. rewrite Efind.
    now rewrite namedAction_code.
Qed.

(** C1, as the code has it.  With a panel open ([hasOpenDialog = true]):
    when some element scores above 0, the step [heuristicPlan] returns is
    built from an element of the snapshot whose [isInDialog] flag is true
    (elements outside the panel score -2000 and never enter the ranking).
    A step returned by [llmPlan] is built from the first element of the
    snapshot whose [idx] is the number in the action call of the model's
    answer; and whenever the answer names such an element in a call other
    than [wait], in the panel or not, [llmPlan] returns a step for it. *)
Theorem panel_exclusivity_ranked (page : PageData) (state : SessionState)
    (Hopen : hasOpenDialog page = true) :
  (forall st,
     (exists el, In el (elements page) /\ 0 < scoreIn page state el) ->
     heuristicPlan page state = Some st ->
     exists el, In el (elements page) /\ isInDialog el = true
                /\ st = stepFor page state el (actionFor el))
  /\
  (forall cfg io st,
     llmPlan page state cfg io = Return (Some st) ->
     exists status contentText choiceText name ds el,
       io = Response status (Json contentText choiceText)
       /\ Re.action (rawReply cfg contentText choiceText) = Some (name, Some ds)
       /\ Js.find (fun e => idx e =? Js.parseDigits ds 0) (elements page) = Some el
       /\ In el (elements page)
       /\ idx el = Js.parseDigits ds 0
       /\ GuidanceStep.selector st = selector el
       /\ GuidanceStep.textHint st = Js.substring0 60 (text el))
  /\
  (forall cfg status contentText choiceText name ds el,
     responseOk status = true ->
     Re.action (rawReply cfg contentText choiceText) = Some (name, Some ds) ->
     Js.toLowerCase name <> "wait" ->
     Js.find (fun e => idx e =? Js.parseDigits ds 0) (elements page) = Some el ->
     exists st,
       llmPlan page state cfg (Response status (Json contentText choiceText))
       = Return (Some st)
       /\ GuidanceStep.selector st = selector el
       /\ GuidanceStep.textHint st = Js.substring0 60 (text el)).
Proof.
  split; [|split].
  - intros st [el [Hel Hpos]] Hplan.
    destruct (ranked_head_positive page state el Hel Hpos) as [x [r [E Hx]]].
    unfold heuristicPlan in Hplan.
    destruct (Nat.eqb (List.length (elements page)) 0); [discriminate|].
    destruct (PagePhase_eqb (detectPhase page) success && (1 <? step state))%bool;
      [discriminate|].
    rewrite E in Hplan. apply Z.ltb_lt in Hx. rewrite Hx in Hplan.
    injection Hplan as <-.
    assert (Hin : In x (ranked page state)) by (rewrite E; now left).
    apply In_ranked in Hin. destruct Hin as [e [He [-> Hcut]]]. simpl.
    exists e. repeat split; auto.
    unfold scoreIn in Hcut. rewrite Hopen in Hcut.
    eapply score_above_cut_in_dialog. exact Hcut.
  - intros cfg io st Hplan. apply llmPlan_shape in Hplan.
    destruct Hplan as [status [ct [ch [name [ds [el [Hio [_ [Hact [_ [Hfind ->]]]]]]]]]]].
    exists status, ct, ch, name, ds, el.
    destruct (find_some _ _ Hfind) as [Hel Hidx]. apply Z.eqb_eq in Hidx.
    repeat split; auto.
  - intros cfg status ct ch name ds el Hok Hact Hwait Hfind.
    eexists. split.
    + apply llmPlan_shape. exists status, ct, ch, name, ds, el.
      repeat split; eauto.
    + split; reflexivity.
Qed.

Lemma panel_exclusivity_ranked_witness :
  exists el, In el (elements Sample.dialogPage) /\ isInDialog el = true
             /\ stepFor Sample.dialogPage Sample.fresh Sample.sendInside click
                = stepFor Sample.dialogPage Sample.fresh el (actionFor el).
Proof.
  apply (proj1 (panel_exclusivity_ranked Sample.dialogPage Sample.fresh eq_refl)).
  - exists Sample.sendInside. split; [simpl; auto | vm_compute; reflexivity].
  - vm_compute. reflexivity.
Defined.

(** C1, as stated, fails.  A panel is open and the only element of the
    snapshot lies outside it: no score is positive, and the first fallback
    of [heuristicPlan] returns a step for that element.  With the dialog of
    the second scenario, the model answers [click(0)] and [llmPlan] returns
    a step for the page-level Submit button. *)
Lemma panel_exclusivity_counterexample :
  (hasOpenDialog Sample.occludedPage = true
   /\ heuristicPlan Sample.occludedPage Sample.fresh
      = Some (stepFor Sample.occludedPage Sample.fresh Sample.nameOutside type)
   /\ forall el, In el (elements Sample.occludedPage) -> isInDialog el = false)
  /\
  (hasOpenDialog Sample.dialogPage = true
   /\ llmPlan Sample.dialogPage Sample.fresh Sample.config (Sample.answers "0")
      = Return (Some {| GuidanceStep.stepNumber := 1;
                        GuidanceStep.action := click;
                        GuidanceStep.selector := "#submit";
                        GuidanceStep.textHint := "Submit";
                        GuidanceStep.instruction := "next" |})
   /\ forall el, In el (elements Sample.dialogPage) ->
        selector el = "#submit" -> isInDialog el = false).
Proof.
  split; (split; [reflexivity | split; [vm_compute; reflexivity|]]).
  - intros el [<-|[]]. reflexivity.
  - intros el [<-|[<-|[]]] H; [reflexivity | discriminate H].
Qed.

(** X5.  Once the exchange with the model has settled, [llmPlan] returns
    a step exactly when the status is in 200-299, the body is readable, the
    text holds an action call with a name other than wait and with digits,
    and some element carries those digits as its [idx]; the step is then
    built from the first such element, with action type or select when so
    named and click for any other name, and with the trimmed thought as
    its instruction when there is one. *)
Theorem llmPlan_step (page : PageData) (s : SessionState) (cfg : LLMConfig)
    (io : FetchOutcome) (st : GuidanceStep) :
  llmPlan page s cfg io = Return (Some st) <->
  exists status contentText choiceText name ds el,
    io = Response status (Json contentText choiceText)
    /\ responseOk status = true
    /\ Re.action (rawReply cfg contentText choiceText) = Some (name, Some ds)
    /\ Js.toLowerCase name <> "wait"
    /\ List.find (fun e => idx e =? Js.parseDigits ds 0) (elements page) = Some el
    /\ st = {| GuidanceStep.stepNumber := step s;
               GuidanceStep.action := namedAction (Js.toLowerCase name);
               GuidanceStep.selector := selector el;
               GuidanceStep.textHint := Js.substring0 60 (text el);
               GuidanceStep.instruction :=
                 Js.orElse
                   match Re.thought (rawReply cfg contentText choiceText) with
                   | Some t => Js.trim t
                   | None => EmptyString
                   end
                   (instructionFor el (namedAction (Js.toLowerCase name))
                                   (detectPhase page)) |}.
Proof. apply llmPlan_shape. Qed.

(** X6.  A step returned by [llmPlan] never carries the action scroll or
    wait, its text hint has at most 60 characters, its step number is the
    session's counter, its instruction is not empty, and its target is an
    element of the snapshot whose [idx] is not negative. *)
Theorem llmPlan_step_fields (page : PageData) (s : SessionState) (cfg : LLMConfig)
    (io : FetchOutcome) (st : GuidanceStep) :
  llmPlan page s cfg io = Return (Some st) ->
  plannedAction (GuidanceStep.action st) = true
  /\ (String.length (GuidanceStep.textHint st) <= 60)%nat
  /\ GuidanceStep.stepNumber st = step s
  /\ GuidanceStep.instruction st <> EmptyString
  /\ exists el, In el (elements page) /\ 0 <= idx el
                /\ GuidanceStep.selector st = selector el.
Proof.
  intros H. apply llmPlan_shape in H.
  destruct H as [status [ct [ch [name [ds [el [_ [_ [Eact [_ [Efind ->]]]]]]]]]]].
  simpl. split; [apply namedAction_planned|].
  split; [apply substring0_length|]. split; [reflexivity|]. split.
  - unfold Js.orElse. destruct (Js.truthy _) eqn:Ht.
    + intros Hempty. rewrite Hempty in Ht. discriminate.
    + apply instructionFor_nonempty.
  - apply find_some in Efind. destruct Efind as [Hel Hidx].
    apply Z.eqb_eq in Hidx. exists el. repeat split; auto.
    rewrite Hidx. apply parseDigits_nonneg; [|lia].
    exact (action_digits _ _ _ Eact).
Qed.

Lemma llmPlan_step_fields_witness :
  plannedAction click = true
  /\ (String.length "Submit" <= 60)%nat
  /\ 1 = 1
  /\ "next" <> EmptyString
  /\ exists el, In el (elements Sample.dialogPage) /\ 0 <= idx el
                /\ "#submit" = selector el.
Proof.
  apply (llmPlan_step_fields Sample.dialogPage Sample.fresh Sample.config
           (Sample.answers "0")
           {| GuidanceStep.stepNumber := 1;
              GuidanceStep.action := click;
              GuidanceStep.selector := "#submit";
              GuidanceStep.textHint := "Submit";
              GuidanceStep.instruction := "next" |}).
  vm_compute. reflexivity.
Defined.

End ReplyClaims.

(** ** The reply format *)

Section ReplyFormat.

Lemma lowerChar_open (c : ascii) :
  Ascii.eqb (Js.lowerChar "<"%char) (Js.lowerChar c) = Ascii.eqb c "<"%char.
Proof.
  destruct c as [[] [] [] [] [] [] [] []]; reflexivity.
Qed.

Lemma literal_not_open (lit s : string) (c : ascii) :
  Text.notOpen c = true -> Re.literal (String "<"%char lit) (String c s) = None.
Proof.
  intros Hc. cbn [Re.literal]. rewrite lowerChar_open.
  unfold Text.notOpen in Hc. apply negb_true_iff in Hc. now rewrite Hc.
Qed.

Lemma literal_self (lit rest : string) : Re.literal lit (lit ++ rest) = Some rest.
Proof.
  induction lit as [|a lit IH]; cbn [Re.literal append].
  - now destruct rest.
  - now rewrite Ascii.eqb_refl.
Qed.

Lemma span_app (p : ascii -> bool) (w rest : string) (c : ascii) :
  Text.everyChar p w = true -> p c = false ->
  Re.span p (w ++ String c rest) = (w, String c rest).
Proof.
  intros Hw Hc. induction w as [|a w IH]; cbn [Re.span append].
  - now rewrite Hc.
  - cbn [Text.everyChar] in Hw. apply andb_prop in Hw. destruct Hw as [Ha Hw].
    now rewrite Ha, (IH Hw).
Qed.

(** The leftmost match of the action pattern lies beyond any text that
    holds no opening angle bracket. *)
Lemma action_skip (pre body : string) :
  Text.everyChar Text.notOpen pre = true ->
  Re.action (pre ++ body) = Re.action body.
Proof.
  induction pre as [|c pre IH]; [reflexivity|].
  cbn [Text.everyChar append]. intros H. apply andb_prop in H. destruct H as [Hc Hpre].
  cbn [Re.action]. unfold Re.actionAt.
  change "<Action>" with (String "<"%char "Action>").
  rewrite (literal_not_open _ _ _ Hc). exact (IH Hpre).
Qed.

Lemma before_skip (lit pre rest : string) :
  Text.everyChar Text.notOpen pre = true ->
  Re.before (String "<"%char lit) (pre ++ String "<"%char lit ++ rest) = Some pre.
Proof.
  induction pre as [|c pre IH]; cbn [Text.everyChar append].
  - intros _. cbn [Re.before].
    change (String "<"%char (lit ++ rest)) with (String "<"%char lit ++ rest).
    now rewrite literal_self.
  - intros H. apply andb_prop in H. destruct H as [Hc Hpre].
    cbn [Re.before]. rewrite (literal_not_open _ _ _ Hc).
    cbn [append] in IH. now rewrite (IH Hpre).
Qed.

(** An action call written as the prompt asks is matched where it starts. *)
Lemma actionAt_call (name ds tail : string) :
  Text.everyChar Js.isWord name = true -> name <> EmptyString ->
  Text.everyChar Js.isDigit ds = true ->
  Re.actionAt ("<Action>" ++ name ++ "(" ++ ds ++ ")" ++ "</Action>" ++ tail)
  = Some (name, if Js.truthy ds then Some ds else None).
Proof.
  intros Hname Hne Hds. unfold Re.actionAt.
  rewrite literal_self.
  change ("(" ++ ds ++ ")" ++ "</Action>" ++ tail)
    with (String "("%char (ds ++ String ")"%char ("</Action>" ++ tail))).
  rewrite (span_app Js.isWord name _ "("%char Hname eq_refl).
  destruct name as [|a name]; [congruence|]. cbn [Js.truthy].
  rewrite (span_app Js.isDigit ds _ ")"%char Hds eq_refl).
  now rewrite literal_self.
Qed.

(** X7.  The reply format of the prompt parses back to its parts: from a
    thought block, any separator and an action call, the action pattern
    yields the call's name and its digits (nothing for an empty pair of
    parentheses) and the thought pattern yields the thought, as long as
    thought and separator hold no opening angle bracket; what follows the
    closing action tag is ignored. *)
Theorem reply_format_parses (t sep name ds tail : string) :
  Text.everyChar Text.notOpen t = true ->
  Text.everyChar Text.notOpen sep = true ->
  Text.everyChar Js.isWord name = true -> name <> EmptyString ->
  Text.everyChar Js.isDigit ds = true ->
  let raw := "<Thought>" ++ t ++ "</Thought>" ++ sep
             ++ "<Action>" ++ name ++ "(" ++ ds ++ ")" ++ "</Action>" ++ tail in
  Re.action raw = Some (name, if Js.truthy ds then Some ds else None)
  /\ Re.thought raw = Some t.
Proof.
  intros Ht Hsep Hname Hne Hds raw. subst raw. split.
  - change ("<Thought>" ++ t ++ "</Thought>" ++ sep
            ++ "<Action>" ++ name ++ "(" ++ ds ++ ")" ++ "</Action>" ++ tail)
      with (String "<"%char
              ("Thought>" ++ t ++
               String "<"%char
                 ("/Thought>" ++ sep ++
                  "<Action>" ++ name ++ "(" ++ ds ++ ")" ++ "</Action>" ++ tail))).
    cbn [Re.action].
    replace (Re.actionAt (String "<"%char ("Thought>" ++ _))) with
      (@None (string * option string)) by reflexivity.
    rewrite (action_skip "Thought>" _ eq_refl), (action_skip t _ Ht).
    cbn [Re.action].
    replace (Re.actionAt (String "<"%char ("/Thought>" ++ _))) with
      (@None (string * option string)) by reflexivity.
    rewrite (action_skip "/Thought>" _ eq_refl), (action_skip sep _ Hsep).
    assert (Hat := actionAt_call name ds tail Hname Hne Hds).
    change ("<Action>" ++ name ++ "(" ++ ds ++ ")" ++ "</Action>" ++ tail)
      with (String "<"%char ("Action>" ++ name ++ "(" ++ ds ++ ")" ++ "</Action>" ++ tail))
      in Hat |- *.
    cbn [Re.action]. now rewrite Hat.
  - unfold Re.thought.
    replace (Re.after "<Thought>" _) with
      (Some (t ++ "</Thought>" ++ sep
             ++ "<Action>" ++ name ++ "(" ++ ds ++ ")" ++ "</Action>" ++ tail)).
    + exact (before_skip "/Thought>" t _ Ht).
    + symmetry.
      change ("<Thought>" ++ t ++ "</Thought>" ++ sep
              ++ "<Action>" ++ name ++ "(" ++ ds ++ ")" ++ "</Action>" ++ tail)
        with (String "<"%char
                ("Thought>" ++ t ++ "</Thought>" ++ sep
                 ++ "<Action>" ++ name ++ "(" ++ ds ++ ")" ++ "</Action>" ++ tail)).
      cbn [Re.after].
      change (String "<"%char
                ("Thought>" ++ t ++ "</Thought>" ++ sep
                 ++ "<Action>" ++ name ++ "(" ++ ds ++ ")" ++ "</Action>" ++ tail))
        with ("<Thought>" ++ t ++ "</Thought>" ++ sep
              ++ "<Action>" ++ name ++ "(" ++ ds ++ ")" ++ "</Action>" ++ tail).
      now rewrite literal_self.
Qed.

Lemma reply_format_parses_witness :
  Re.action ("<Thought>" ++ "fill the name first" ++ "</Thought>" ++ " "
             ++ "<Action>" ++ "type" ++ "(" ++ "12" ++ ")" ++ "</Action>" ++ EmptyString)
  = Some ("type", Some "12")
  /\ Re.thought ("<Thought>" ++ "fill the name first" ++ "</Thought>" ++ " "
                 ++ "<Action>" ++ "type" ++ "(" ++ "12" ++ ")" ++ "</Action>" ++ EmptyString)
     = Some "fill the name first".
Proof.
  apply (reply_format_parses "fill the name first" " " "type" "12" EmptyString);
    try reflexivity.
  discriminate.
Defined.

End ReplyFormat.

(** ** Restricted pages *)

Section RestrictedFacts.
Import SessionState World.

Lemma prefix_app (a b : string) : String.prefix a (a ++ b) = true.
Proof.
  induction a as [|c a IH]; simpl.
  - now destruct b.
  - destruct (ascii_dec c c); [exact IH | congruence].
Qed.

(** X8.  A missing or empty url is restricted, as is every url of the
    schemes chrome, chrome-extension, edge, about, chrome-search and
    devtools; every http and https url is allowed. *)
Theorem isRestrictedUrl_schemes :
  isRestrictedUrl None = true
  /\ isRestrictedUrl (Some EmptyString) = true
  /\ (forall scheme rest,
        In scheme ["chrome://"; "chrome-extension://"; "edge://"; "about:";
                   "chrome-search://"; "devtools://"] ->
        isRestrictedUrl (Some (scheme ++ rest)) = true)
  /\ (forall rest, isRestrictedUrl (Some ("https://" ++ rest)) = false)
  /\ (forall rest, isRestrictedUrl (Some ("http://" ++ rest)) = false).
Proof.
  split; [reflexivity|]. split; [reflexivity|]. split; [|split; reflexivity].
  intros scheme rest Hin. unfold isRestrictedUrl.
  destruct (negb (Js.truthy (scheme ++ rest))); [reflexivity|].
  simpl in Hin.
  repeat (destruct Hin as [<-|Hin];
          [rewrite prefix_app; rewrite ?orb_true_r; reflexivity|]).
  contradiction.
Qed.

Lemma processTab_not_allowed (env : PassEnv) (w : World) :
  processTabRuns w = true ->
  tabAllowed env = false ->
  state (fst (processTab env w)) = state w
  /\ snd (processTab env w) = [broadcast (ERROR NO_PAGE_MSG)]
  /\ processing (fst (processTab env w)) = false.
Proof.
  intros Hruns Htab. unfold processTab, processTabEnter. rewrite Hruns.
  unfold processTabBody, processTabTry. rewrite Htab. simpl. auto.
Qed.

(** X9.  A run of [processTab] on a tab that is gone or restricted leaves
    the session as it is, hands no step to the actuator, broadcasts the one
    notice that NavAI cannot run on the page, and ends with [processing]
    cleared: the page is never asked for a snapshot. *)
Theorem processTab_restricted (env : PassEnv) (w : World) :
  processTabRuns w = true ->
  tabAllowed env = false ->
  state (fst (processTab env w)) = state w
  /\ snd (processTab env w) = [broadcast (ERROR NO_PAGE_MSG)]
  /\ processing (fst (processTab env w)) = false.
Proof. apply processTab_not_allowed. Qed.

Lemma processTab_restricted_witness :
  state (fst (processTab
                {| PassEnv.tab := Some (Some "chrome://extensions");
                   PassEnv.extract := ExtractPage Sample.formPage;
                   PassEnv.fetch := Sample.answers "0";
                   PassEnv.showDelivered := true |}
                (Sample.world Sample.fresh)))
  = state (Sample.world Sample.fresh)
  /\ snd (processTab
            {| PassEnv.tab := Some (Some "chrome://extensions");
               PassEnv.extract := ExtractPage Sample.formPage;
               PassEnv.fetch := Sample.answers "0";
               PassEnv.showDelivered := true |}
            (Sample.world Sample.fresh))
     = [broadcast (ERROR NO_PAGE_MSG)]
  /\ processing (fst (processTab
            {| PassEnv.tab := Some (Some "chrome://extensions");
               PassEnv.extract := ExtractPage Sample.formPage;
               PassEnv.fetch := Sample.answers "0";
               PassEnv.showDelivered := true |}
            (Sample.world Sample.fresh)))
     = false.
Proof.
  apply processTab_restricted; reflexivity.
Defined.

End RestrictedFacts.

(** ** Guards *)

Section GuardFacts.
Import SessionState World.

Lemma idle_handle (e : Event) (w : World) :
  active (state w) = false -> idleNoOp e = true ->
  fst (handle e w) = w
  /\ forall eff, In eff (snd (handle e w)) -> eff = callProcessTab 0.
Proof.
  intros Hidle He.
  destruct e as [msg|frameId| | |]; try discriminate He; simpl.
  - destruct msg; try discriminate He; simpl; rewrite ?Hidle; simpl.
    + split; [reflexivity|]. intros eff [<-|[]]. reflexivity.
    + split; [reflexivity | intros eff []].
    + split; [reflexivity | intros eff []].
    + split; [reflexivity | intros eff []].
  - unfold onNavigationCompleted. rewrite Hidle.
    destruct (negb (frameId =? 0)); simpl; (split; [reflexivity | intros eff []]).
  - unfold processTabEnter, processTabRuns. rewrite Hidle. simpl.
    split; [reflexivity | intros eff []].
Qed.

(** X10.  While no session is active, RESCAN, ACTION_DONE, NAV_CHANGE,
    GET_STATE, page loads and calls of [processTab], in any number and
    order, leave every variable of the worker as it is; nothing is
    broadcast, saved or sent to the tab, the only effect being the call of
    [processTab] that RESCAN makes. *)
Theorem idle_triggers_ignored (es : list Event) (w : World) :
  active (state w) = false ->
  forallb idleNoOp es = true ->
  fst (run es w) = w
  /\ forall eff, In eff (snd (run es w)) -> eff = callProcessTab 0.
Proof.
  intros Hidle. induction es as [|e es IH]; intros Hes.
  - split; [reflexivity | intros eff []].
  - simpl in Hes. apply andb_prop in Hes. destruct Hes as [He Hes].
    destruct (idle_handle e w Hidle He) as [Hw Hout]. specialize (IH Hes).
    simpl. destruct (handle e w) as [w1 out1]. simpl in Hw, Hout. subst w1.
    destruct (run es w) as [w2 out2]. simpl in *. destruct IH as [-> Hout2].
    split; [reflexivity|]. intros eff Hin. apply in_app_or in Hin.
    destruct Hin; auto.
Qed.

Lemma idle_triggers_ignored_witness :
  fst (run [Received RESCAN; ProcessTabCalled; Received (ACTION_DONE click);
            Received (NAV_CHANGE "https://dmv.example/next"); NavigationCompleted 0]
           Sample.freshWorker)
  = Sample.freshWorker
  /\ forall eff,
       In eff (snd (run [Received RESCAN; ProcessTabCalled; Received (ACTION_DONE click);
                         Received (NAV_CHANGE "https://dmv.example/next");
                         NavigationCompleted 0]
                        Sample.freshWorker)) ->
       eff = callProcessTab 0.
Proof.
  apply idle_triggers_ignored; reflexivity.
Defined.

End GuardFacts.

(** ** The history *)

Section HistoryFacts.
Import SessionState World.

Lemma closeCurrent_history (w : World) (f : GuidanceStep -> ActionType) :
  history (state (closeCurrent w f)) =
  match current (state w) with
  | Some cur =>
      (history (state w) ++
       [{| ActionRecord.step := step (state w);
           ActionRecord.action := f cur;
           ActionRecord.selector := GuidanceStep.selector cur;
           ActionRecord.text := GuidanceStep.textHint cur |}])%list
  | None => history (state w)
  end.
Proof. unfold closeCurrent. now destruct (current (state w)). Qed.

(** what one event adds to the history, START and STOP apart *)
Lemma handle_history (e : Event) (w : World) :
  replacesSession e = false ->
  exists added,
    history (after e w) = (history (state w) ++ added)%list
    /\ (Z.of_nat (List.length added) <= if closesStep e w then 1 else 0)
    /\ Forall (fun r => ActionRecord.step r = step (state w)) added.
Proof.
  intros Hr. pose proof (handle_frame e w Hr) as [_ H].
  assert (Hsame : history (after e w) = history (state w) ->
                  exists added,
                    history (after e w) = (history (state w) ++ added)%list
                    /\ (Z.of_nat (List.length added) <= if closesStep e w then 1 else 0)
                    /\ Forall (fun r => ActionRecord.step r = step (state w)) added).
  { intros ->. exists []. rewrite app_nil_r. simpl.
    repeat split; [destruct (closesStep e w); lia | constructor]. }
  assert (Hclose : forall f,
            closesStep e w = true ->
            after e w = state (closeCurrent w f) ->
            exists added,
              history (after e w) = (history (state w) ++ added)%list
              /\ (Z.of_nat (List.length added) <= if closesStep e w then 1 else 0)
              /\ Forall (fun r => ActionRecord.step r = step (state w)) added).
  { intros f Hc ->. rewrite Hc, closeCurrent_history.
    destruct (current (state w)) as [cur|].
    - eexists. split; [reflexivity|]. simpl. split; [lia|].
      constructor; [reflexivity | constructor].
    - exists []. rewrite app_nil_r. simpl. repeat split; [lia | constructor]. }
  destruct e as [msg|frameId| |env|env]; [destruct msg|..];
    try discriminate Hr; simpl in H;
    try (match type of H with _ /\ _ => destruct H as [_ H]; exact (Hsame H) end).
  - apply (Hclose GuidanceStep.action); reflexivity.
  - destruct (active (state w)) eqn:Hact.
    + apply (Hclose (fun _ => action)); [simpl; exact Hact|].
      unfold after. simpl. now rewrite Hact.
    + apply Hsame. unfold after. simpl. now rewrite Hact.
Qed.

(** X12.  The history is append-only.  Over any sequence of events without
    START and STOP, the history at the end is the history at the start
    followed by new records, at most one per step closed by SKIP or by an
    ACTION_DONE of an active session; plan passes, retries, RESCAN and
    navigation add nothing and rewrite nothing. *)
Theorem history_append_only (es : list Event) (w : World) :
  forallb (fun e => negb (replacesSession e)) es = true ->
  exists added,
    history (afterAll es w) = (history (state w) ++ added)%list
    /\ Z.of_nat (List.length added) <= closedSteps es w.
Proof.
  revert w. induction es as [|e es IH]; intros w Hes.
  - exists []. unfold afterAll. simpl. rewrite app_nil_r. split; [reflexivity | lia].
  - simpl in Hes. apply andb_prop in Hes. destruct Hes as [He Hes].
    apply negb_true_iff in He.
    destruct (handle_history e w He) as [a1 [H1 [L1 _]]].
    destruct (IH (fst (handle e w)) Hes) as [a2 [H2 L2]].
    exists (a1 ++ a2)%list. rewrite afterAll_cons, H2.
    unfold after in H1. rewrite H1, <- app_assoc. split; [reflexivity|].
    rewrite length_app. simpl closedSteps. lia.
Qed.

Lemma history_append_only_witness :
  exists added,
    history (afterAll
               [Received RESCAN; ProcessTabCalled;
                ProcessTabResumed (Sample.env Sample.formPage (Sample.answers "0"));
                Received (ACTION_DONE type); Received SKIP]
               (Sample.world (Sample.session "apply for driver's license" 2 None
                                [Sample.record 1 "#start" "Start"] heuristic)))
    = ([Sample.record 1 "#start" "Start"] ++ added)%list
    /\ Z.of_nat (List.length added) <= 2.
Proof.
  apply (history_append_only
           [Received RESCAN; ProcessTabCalled;
            ProcessTabResumed (Sample.env Sample.formPage (Sample.answers "0"));
            Received (ACTION_DONE type); Received SKIP]
           (Sample.world (Sample.session "apply for driver's license" 2 None
                            [Sample.record 1 "#start" "Start"] heuristic))).
  reflexivity.
Defined.

Lemma stepsBelow_all (bound : Z) (h : list ActionRecord) :
  stepsBelow bound h -> Forall (fun r => ActionRecord.step r < bound) h.
Proof.
  induction h as [|r h IH]; simpl; [constructor|].
  intros [Hr [_ Hh]]. constructor; auto.
Qed.

Lemma stepsBelow_grow (bound bound' : Z) (h added : list ActionRecord) :
  stepsBelow bound h ->
  bound <= bound' ->
  (Z.of_nat (List.length added) <= bound' - bound) ->
  (Z.of_nat (List.length added) <= 1) ->
  Forall (fun r => ActionRecord.step r = bound) added ->
  stepsBelow bound' (h ++ added).
Proof.
  intros Hh Hle Hlen Hone Hadded.
  destruct added as [|r [|r' added]]; simpl in Hone; try lia.
  - rewrite app_nil_r. clear Hlen Hone Hadded.
    induction h as [|a h IH]; simpl in *; [exact I|].
    destruct Hh as [Ha [Hs Hh]]. repeat split; auto. lia.
  - apply Forall_cons_iff in Hadded. destruct Hadded as [Hr _].
    simpl in Hlen.
    induction h as [|a h IH]; simpl in *.
    + repeat split; [lia | constructor].
    + destruct Hh as [Ha [Hs Hh]]. repeat split; [lia| |auto].
      apply Forall_app. split; [exact Hs|].
      constructor; [lia | constructor].
Qed.

Lemma handle_ordered (e : Event) (w : World) :
  replacesSession e = false ->
  historyOrdered (state w) -> historyOrdered (after e w).
Proof.
  intros He Hord. unfold historyOrdered in *.
  destruct (handle_history e w He) as [added [Hh [Hlen Hsteps]]].
  pose proof (handle_step e w He) as Hstep.
  rewrite Hh, Hstep.
  apply (stepsBelow_grow (step (state w))); auto.
  - destruct (closesStep e w); lia.
  - destruct (closesStep e w); lia.
  - destruct (closesStep e w); lia.
Qed.

(** X13.  Step numbers in the history.  START on a worker whose shared
    history array is still empty gives a session whose records carry
    strictly increasing step numbers, all below the step counter, and every
    sequence of events without START and STOP keeps it so: each record is
    stamped with the counter before the counter moves on. *)
Theorem history_steps_ordered :
  (forall g m w, emptyHistory w = [] ->
                 historyOrdered (after (Received (START g m)) w))
  /\ (forall es w,
        forallb (fun e => negb (replacesSession e)) es = true ->
        historyOrdered (state w) -> historyOrdered (afterAll es w)).
Proof.
  split.
  - intros g m w Hempty. unfold historyOrdered, after. simpl. rewrite Hempty. exact I.
  - induction es as [|e es IH]; intros w Hes Hord; [exact Hord|].
    simpl in Hes. apply andb_prop in Hes. destruct Hes as [He Hes].
    apply negb_true_iff in He. rewrite afterAll_cons.
    apply IH; [exact Hes|]. exact (handle_ordered e w He Hord).
Qed.

Lemma history_steps_ordered_witness :
  historyOrdered
    (afterAll
       [ProcessTabCalled;
        ProcessTabResumed (Sample.env Sample.formPage (Sample.answers "0"));
        Received (ACTION_DONE type); Received SKIP]
       (fst (handle (Received (START "apply for driver's license" heuristic))
                    Sample.freshWorker))).
Proof.
  apply (proj2 history_steps_ordered); [reflexivity|].
  apply (proj1 history_steps_ordered). reflexivity.
Defined.

Lemma handle_shared (e : Event) (w : World) :
  historyShared w ->
  historyShared (fst (handle e w))
  /\ exists added, history (after e w) = (history (state w) ++ added)%list.
Proof.
  intros [Hs Hh]. unfold historyShared, after.
  assert (Hkeep : forall s, history s = history (state w) ->
            historyShared (setState w s)
            /\ exists added, history s = (history (state w) ++ added)%list).
  { intros s Hsame. unfold historyShared. simpl. rewrite Hsame.
    repeat split; auto. exists []. now rewrite app_nil_r. }
  assert (Hclose : forall f,
            historyShared (closeCurrent w f)
            /\ exists added,
                 history (state (closeCurrent w f)) = (history (state w) ++ added)%list).
  { intros f. unfold closeCurrent, historyShared.
    destruct (current (state w)) as [cur|]; simpl.
    - rewrite Hs, Hh. repeat split. eexists. reflexivity.
    - repeat split; auto. exists []. now rewrite app_nil_r. }
  assert (Hnone : historyShared w
                  /\ exists added, history (state w) = (history (state w) ++ added)%list).
  { split; [split; auto|]. exists []. now rewrite app_nil_r. }
  destruct e as [msg|frameId| |env|env]; simpl.
  - destruct msg; simpl; try exact Hnone; try apply Hclose.
    + repeat split. exists []. now rewrite app_nil_r, Hh.
    + repeat split. exists []. now rewrite app_nil_r, Hh.
    + destruct (negb (active (state w))); simpl; [exact Hnone | apply Hclose].
    + destruct (negb (active (state w))); exact Hnone.
  - unfold onNavigationCompleted.
    destruct (negb (frameId =? 0)); [exact Hnone|].
    destruct (negb (active (state w))); exact Hnone.
  - unfold processTabEnter. destruct (processTabRuns w); exact Hnone.
  - destruct (processing w); [|exact Hnone].
    destruct (processTabBody_frame env w) as [[_ [_ [_ [Hhist _]]]] _].
    unfold processTabBody in *.
    assert (Hfields : sharesHistory (fst (fst (processTabTry env w))) = sharesHistory w
                      /\ emptyHistory (fst (fst (processTabTry env w))) = emptyHistory w).
    { unfold processTabTry.
      destruct (negb (tabAllowed env)); [auto|].
      destruct (PassEnv.extract env) as [| |page]; auto.
      destruct ((1 <? step (state w)) && isSuccessPage page)%bool; [auto|].
      destruct (plan w page (PassEnv.fetch env)) as [cand|name]; auto.
      destruct (if match cand with Some st => isStuck (state w) st | None => false end
                then None else cand); [auto|].
      destruct (negb (completed (state w))); auto. }
    destruct (processTabTry env w) as [[w' out] normal]. simpl in *.
    destruct Hfields as [Hf1 Hf2]. rewrite Hf1, Hf2, Hhist.
    repeat split; auto. exists []. now rewrite app_nil_r.
  - destruct (retryPass_frame env w) as [[_ [_ [_ [Hhist _]]]] _].
    assert (Hfields : sharesHistory (fst (retryPass env w)) = sharesHistory w
                      /\ emptyHistory (fst (retryPass env w)) = emptyHistory w).
    { unfold retryPass.
      destruct (PassEnv.extract env) as [| |page]; auto.
      destruct (plan w page (PassEnv.fetch env)) as [[st|]|name]; auto. }
    destruct Hfields as [Hf1 Hf2]. rewrite Hf1, Hf2, Hhist.
    repeat split; auto. exists []. now rewrite app_nil_r.
Qed.

(** X14.  START and STOP do not clear the history.  Both build the new
    session with the spread of [EMPTY_STATE], whose [history] is one array
    shared by every session of the worker; records pushed during a session
    land in that array.  So once a START or a STOP has been handled, over
    every sequence of events, START and STOP included, the history only
    grows. *)
Theorem history_never_cleared :
  (forall g m w, historyShared (fst (handle (Received (START g m)) w)))
  /\ (forall w, historyShared (fst (handle (Received STOP) w)))
  /\ (forall es w,
        historyShared w ->
        historyShared (fst (run es w))
        /\ exists added, history (afterAll es w) = (history (state w) ++ added)%list).
Proof.
  split; [|split].
  - intros g m w. split; reflexivity.
  - intros w. split; reflexivity.
  - induction es as [|e es IH]; intros w Hsh.
    + split; [exact Hsh|]. exists []. unfold afterAll. simpl. now rewrite app_nil_r.
    + destruct (handle_shared e w Hsh) as [Hsh1 [a1 H1]].
      destruct (IH (fst (handle e w)) Hsh1) as [Hsh2 [a2 H2]].
      rewrite run_cons_fst, afterAll_cons. split; [exact Hsh2|].
      exists (a1 ++ a2)%list. unfold after in H1. now rewrite H2, H1, app_assoc.
Qed.

Lemma history_never_cleared_witness :
  historyShared
    (fst (run [Received (START "apply for driver's license" heuristic);
               ProcessTabCalled;
               ProcessTabResumed (Sample.env Sample.formPage (Sample.answers "0"));
               Received SKIP; Received STOP; Received (START "renew" heuristic)]
              Sample.freshWorker))
  /\ exists added,
       history
         (afterAll [Received (START "apply for driver's license" heuristic);
                    ProcessTabCalled;
                    ProcessTabResumed (Sample.env Sample.formPage (Sample.answers "0"));
                    Received SKIP; Received STOP; Received (START "renew" heuristic)]
                   Sample.freshWorker)
       = (history (state Sample.freshWorker) ++ added)%list.
Proof.
  apply (proj2 (proj2 history_never_cleared)). split; reflexivity.
Defined.

End HistoryFacts.

(** ** Completion *)

Section CompletionFacts.
Import SessionState World.

Lemma processTabRuns_open (w : World) :
  processTabRuns w = true ->
  active (state w) = true /\ completed (state w) = false /\ processing w = false.
Proof.
  unfold processTabRuns.
  destruct (active (state w)), (completed (state w)), (processing w);
    simpl; intros H; try discriminate H; auto.
Qed.

Lemma processTab_success (env : PassEnv) (w : World) (page : PageData) :
  processTabRuns w = true ->
  tabAllowed env = true ->
  PassEnv.extract env = ExtractPage page ->
  ((1 <? step (state w)) && isSuccessPage page)%bool = true ->
  processTab env w =
  (setProcessing (setState w (withCurrent (withCompleted (state w) true) None)) false,
   [saveState (withCurrent (withCompleted (state w) true) None);
    broadcast (STATE (withCurrent (withCompleted (state w) true) None));
    broadcast COMPLETED; sendToTab HIDE_OVERLAY]).
Proof.
  intros Hruns Htab Hext Hsucc.
  unfold processTab, processTabEnter. rewrite Hruns.
  unfold processTabBody, processTabTry. rewrite Htab, Hext. simpl.
  now rewrite Hsucc.
Qed.




(** X16.  The first pass of a session never completes it.  START puts the
    step counter at 1, and completion asks for a counter above 1: whatever
    the page shows, the run of [processTab] that follows START leaves
    [completed] false, and so does every later run until a step has been
    closed by SKIP or ACTION_DONE. *)
Theorem first_pass_never_completes (g : string) (m : PlannerMode) (w : World)
    (es : list Event) :
  forallb keepsStep es = true ->
  completed (afterAll es (fst (handle (Received (START g m)) w))) = false.
Proof.
  assert (Hinv : forall es w0,
            step (state w0) = 1 -> completed (state w0) = false ->
            forallb keepsStep es = true ->
            completed (afterAll es w0) = false).
  { clear. induction es as [|e es IH]; intros w0 Hstep Hc Hes; [exact Hc|].
    simpl in Hes. apply andb_prop in Hes. destruct Hes as [He Hes].
    rewrite afterAll_cons.
    assert (Hr : replacesSession e = false).
    { destruct e as [msg| | | |]; [destruct msg|..]; try reflexivity; discriminate He. }
    pose proof (handle_frame e w0 Hr) as [_ Hframe].
    assert (Hs : step (after e w0) = 1).
    { destruct e as [msg| | | |]; [destruct msg|..]; try discriminate He;
        destruct Hframe as [-> _]; exact Hstep. }
    apply IH; [exact Hs| |exact Hes].
    destruct e as [msg|frameId| |env|env]; [destruct msg|..];
      try discriminate He; simpl; try exact Hc.
    - now destruct (negb (active (state w0))).
    - unfold onNavigationCompleted. destruct (negb (frameId =? 0)); [exact Hc|].
      now destruct (negb (active (state w0))).
    - now rewrite processTabEnter_state.
    - destruct (processing w0); [|exact Hc].
      unfold processTabBody, processTabTry.
      destruct (negb (tabAllowed env)); [exact Hc|].
      destruct (PassEnv.extract env) as [| |page]; try exact Hc.
      rewrite Hstep. simpl.
      destruct (plan w0 page (PassEnv.fetch env)) as [cand|name]; [|exact Hc].
      destruct (if match cand with Some st => isStuck (state w0) st | None => false end
                then None else cand); [exact Hc|].
      destruct (negb (completed (state w0))); exact Hc.
    - destruct (retryPass_frame env w0) as [_ Hk]. now rewrite Hk. }
  apply Hinv; reflexivity.
Qed.

Lemma first_pass_never_completes_witness :
  completed
    (afterAll [ProcessTabCalled;
               ProcessTabResumed (Sample.env Sample.successPage (Sample.answers "0"));
               Received RESCAN; ProcessTabCalled;
               ProcessTabResumed (Sample.env Sample.successPage (Sample.answers "0"))]
              (fst (handle (Received (START "renew" heuristic)) Sample.freshWorker)))
  = false.
Proof.
  apply (first_pass_never_completes "renew" heuristic Sample.freshWorker).
  reflexivity.
Defined.

End CompletionFacts.

(** ** Planner choice, stuck candidates and persistence *)

Section PlanFacts.
Import SessionState World.

(** X17.  A candidate of the heuristic planner can only be stuck by its
    text.  Since [heuristicPlan] never proposes a selector of the history,
    [isStuck] holds for one of its steps only when the text hint is longer
    than 3 characters and the last three records all carry that text, under
    selectors other than the candidate's. *)
Theorem heuristic_stuck_by_text (page : PageData) (s : SessionState) (st : GuidanceStep) :
  heuristicPlan page s = Some st ->
  isStuck s st = true ->
  (3 < String.length (GuidanceStep.textHint st))%nat
  /\ exists older r1 r2 r3,
       history s = (older ++ [r1; r2; r3])%list
       /\ ActionRecord.text r1 = GuidanceStep.textHint st
       /\ ActionRecord.text r2 = GuidanceStep.textHint st
       /\ ActionRecord.text r3 = GuidanceStep.textHint st
       /\ ActionRecord.selector r1 <> GuidanceStep.selector st
       /\ ActionRecord.selector r2 <> GuidanceStep.selector st
       /\ ActionRecord.selector r3 <> GuidanceStep.selector st.
Proof.
  intros Hplan Hstuck.
  pose proof (has_false _ _ (heuristicPlan_unused page s st Hplan)) as Hfree.
  destruct (Nat.lt_ge_cases (List.length (history s)) 3) as [Hlt|Hge].
  { unfold isStuck in Hstuck. rewrite sliceLast_length in Hstuck.
    replace (Nat.ltb (Nat.min 3 (List.length (history s))) 3) with true in Hstuck;
      [discriminate|].
    symmetry. apply Nat.ltb_lt. lia. }
  destruct (sliceLast_three (history s) Hge) as [older [r1 [r2 [r3 Hh]]]].
  assert (Hsel : forall r, In r [r1; r2; r3] ->
                           ActionRecord.selector r <> GuidanceStep.selector st).
  { intros r Hr. apply Hfree. unfold usedSelectorsOf. apply in_map. rewrite Hh.
    apply in_or_app. now right. }
  pose proof (Hsel r1 (or_introl eq_refl)) as H1.
  pose proof (Hsel r2 (or_intror (or_introl eq_refl))) as H2.
  pose proof (Hsel r3 (or_intror (or_intror (or_introl eq_refl)))) as H3.
  rewrite (isStuck_three s older r1 r2 r3 st Hh) in Hstuck.
  apply orb_true_iff in Hstuck. destruct Hstuck as [H|H].
  - rewrite !andb_true_iff, !String.eqb_eq in H. tauto.
  - rewrite !andb_true_iff, !String.eqb_eq, Nat.ltb_lt in H.
    split; [tauto|]. exists older, r1, r2, r3. tauto.
Qed.

Lemma heuristic_stuck_by_text_witness :
  (3 < String.length "Submit")%nat
  /\ exists older r1 r2 r3,
       [Sample.record 1 "#a" "Submit"; Sample.record 2 "#b" "Submit";
        Sample.record 3 "#c" "Submit"] = (older ++ [r1; r2; r3])%list
       /\ ActionRecord.text r1 = "Submit"
       /\ ActionRecord.text r2 = "Submit"
       /\ ActionRecord.text r3 = "Submit"
       /\ ActionRecord.selector r1 <> "#submit"
       /\ ActionRecord.selector r2 <> "#submit"
       /\ ActionRecord.selector r3 <> "#submit".
Proof.
  apply (heuristic_stuck_by_text Sample.submitPage
           (Sample.session "submit the form" 4 None
              [Sample.record 1 "#a" "Submit"; Sample.record 2 "#b" "Submit";
               Sample.record 3 "#c" "Submit"] heuristic)
           (stepFor Sample.submitPage
              (Sample.session "submit the form" 4 None [] heuristic)
              Sample.submitOutside click));
    vm_compute; reflexivity.
Defined.

(** X18.  Which planner answers.  The model is asked exactly when the
    session is in llm mode and a configuration with a non-empty API key is
    stored.  When it is asked and [llmPlan] returns a step, [plan] returns
    that step; when [llmPlan] returns null, and when the model is not
    asked, [plan] returns the result of [heuristicPlan].  A rejected
    request, a timeout and an unreadable body all end in the heuristic
    result. *)
Theorem plan_fallback (w : World) (page : PageData) (io : FetchOutcome) :
  (forall cfg,
     llmEnabled w = Some cfg <->
     mode (state w) = llm /\ llmConfig w = Some cfg /\ LLMConfig.apiKey cfg <> EmptyString)
  /\ (forall cfg st,
        llmEnabled w = Some cfg ->
        llmPlan page (state w) cfg io = Return (Some st) ->
        plan w page io = Return (Some st))
  /\ (forall cfg,
        llmEnabled w = Some cfg ->
        llmPlan page (state w) cfg io = Return None ->
        plan w page io = Return (heuristicPlan page (state w)))
  /\ (llmEnabled w = None -> plan w page io = Return (heuristicPlan page (state w)))
  /\ (forall name, plan w page (FetchRejects name) = Return (heuristicPlan page (state w)))
  /\ (forall status, plan w page (Response status JsonRejects)
                     = Return (heuristicPlan page (state w))).
Proof.
  split; [|split; [|split; [|split; [|split]]]].
  - intros cfg. unfold llmEnabled.
    destruct (mode (state w)); [split; [discriminate | intros [H _]; discriminate H]|].
    destruct (llmConfig w) as [c|];
      [|split; [discriminate | intros [_ [H _]]; discriminate H]].
    destruct (LLMConfig.apiKey c) eqn:Hk; cbn [Js.truthy]; split.
    + discriminate.
    + intros [_ [[= <-] H]]. now contradiction H.
    + intros [= <-]. rewrite Hk. repeat split. discriminate.
    + intros [_ [[= <-] _]]. reflexivity.
  - intros cfg st He Hl. unfold plan. now rewrite He, Hl.
  - intros cfg He Hl. unfold plan. now rewrite He, Hl.
  - intros He. unfold plan. now rewrite He.
  - intros name. unfold plan. now destruct (llmEnabled w).
  - intros status. unfold plan. destruct (llmEnabled w) as [cfg|]; [|reflexivity].
    unfold llmPlan, llmPlanTry. now destruct (negb (responseOk status)).
Qed.

Lemma plan_fallback_witness :
  plan (Sample.world (Sample.session "submit the form" 1 None [] llm))
       Sample.submitPage (Sample.answers "0")
  = Return (Some {| GuidanceStep.stepNumber := 1;
                    GuidanceStep.action := click;
                    GuidanceStep.selector := "#submit";
                    GuidanceStep.textHint := "Submit";
                    GuidanceStep.instruction := "next" |}).
Proof.
  apply (proj1 (proj2 (plan_fallback
                         (Sample.world (Sample.session "submit the form" 1 None [] llm))
                         Sample.submitPage (Sample.answers "0")))
           Sample.config);
    reflexivity.
Defined.

End PlanFacts.

(** ** Snapshots built by the content script *)

Section ExtractFacts.
Import RawElement.

Lemma mapFrom_length {A B} (f : Z -> A -> B) (i : Z) (xs : list A) :
  List.length (mapFrom f i xs) = List.length xs.
Proof.
  revert i. induction xs as [|x xs IH]; intros i; simpl; [reflexivity|].
  now rewrite IH.
Qed.

Lemma mapFrom_nth {A B} (f : Z -> A -> B) (i : Z) (xs : list A) (n : nat) :
  nth_error (mapFrom f i xs) n = option_map (f (i + Z.of_nat n)) (nth_error xs n).
Proof.
  revert i n. induction xs as [|x xs IH]; intros i [|n]; simpl; try reflexivity.
  - now rewrite Z.add_0_r.
  - rewrite IH. f_equal. f_equal. lia.
Qed.

Lemma In_insertRaw (d : bool) (x y : RawElement) (l : list RawElement) :
  In y (insertRaw d x l) <-> y = x \/ In y l.
Proof.
  induction l as [|z l IH]; simpl.
  - intuition.
  - destruct (compareRaw d x z <=? 0); simpl.
    + intuition.
    + rewrite IH. intuition.
Qed.

Lemma In_sortRaw (d : bool) (y : RawElement) (l : list RawElement) :
  In y (sortRaw d l) <-> In y l.
Proof.
  induction l as [|x l IH]; simpl; [tauto|].
  rewrite In_insertRaw, IH. intuition.
Qed.

(** the comparator is a total preorder *)
Lemma compareRaw_total (d : bool) (a b : RawElement) :
  0 < compareRaw d a b -> compareRaw d b a <= 0.
Proof.
  unfold compareRaw.
  destruct d, (inPanel a), (inPanel b), (inViewport a), (inViewport b); simpl; lia.
Qed.

Lemma compareRaw_trans (d : bool) (a b c : RawElement) :
  compareRaw d a b <= 0 -> compareRaw d b c <= 0 -> compareRaw d a c <= 0.
Proof.
  unfold compareRaw.
  destruct d, (inPanel a), (inPanel b), (inPanel c),
    (inViewport a), (inViewport b), (inViewport c); simpl; lia.
Qed.

Lemma insertRaw_sorted (d : bool) (x : RawElement) (l : list RawElement) :
  StronglySorted (fun a b => compareRaw d a b <= 0) l ->
  StronglySorted (fun a b => compareRaw d a b <= 0) (insertRaw d x l).
Proof.
  induction l as [|y l IH]; simpl; intros Hs.
  - constructor; [constructor | constructor].
  - apply StronglySorted_inv in Hs. destruct Hs as [Hl Hy].
    destruct (compareRaw d x y <=? 0) eqn:E.
    + apply Z.leb_le in E. constructor.
      * constructor; assumption.
      * constructor; [exact E|].
        rewrite Forall_forall in Hy |- *. intros z Hz.
        exact (compareRaw_trans d x y z E (Hy z Hz)).
    + apply Z.leb_gt in E. constructor; [exact (IH Hl)|].
      rewrite Forall_forall in Hy |- *. intros z Hz.
      apply In_insertRaw in Hz. destruct Hz as [->|Hz]; [|exact (Hy z Hz)].
      now apply compareRaw_total.
Qed.

Lemma sortRaw_sorted (d : bool) (l : list RawElement) :
  StronglySorted (fun a b => compareRaw d a b <= 0) (sortRaw d l).
Proof.
  induction l as [|x l IH]; simpl; [constructor|].
  now apply insertRaw_sorted.
Qed.

Lemma firstn_sorted {A} (R : A -> A -> Prop) (n : nat) (l : list A) :
  StronglySorted R l -> StronglySorted R (firstn n l).
Proof.
  revert n. induction l as [|x l IH]; intros [|n] Hs; simpl; try constructor.
  - apply StronglySorted_inv in Hs. now apply IH.
  - apply StronglySorted_inv in Hs. destruct Hs as [_ Hx].
    rewrite Forall_forall in Hx |- *. intros y Hy.
    apply Hx. rewrite <- (firstn_skipn n l). apply in_or_app. now left.
Qed.

Lemma sorted_nth {A} (R : A -> A -> Prop) (l : list A) (i j : nat) (a b : A) :
  StronglySorted R l -> (i < j)%nat ->
  nth_error l i = Some a -> nth_error l j = Some b -> R a b.
Proof.
  intros Hs. revert i j. induction Hs as [|x l Hl IH Hx]; intros i j Hij Ha Hb.
  - destruct i; discriminate.
  - destruct j as [|j]; [lia|]. simpl in Hb.
    destruct i as [|i]; simpl in Ha.
    + injection Ha as <-. rewrite Forall_forall in Hx.
      apply Hx. exact (nth_error_In _ _ Hb).
    + apply (IH i j); [lia | assumption | assumption].
Qed.

Lemma compareRaw_mayPrecede (d : bool) (sx sy i j : Z) (a b : RawElement) :
  compareRaw d a b <= 0 ->
  mayPrecede d (toElement sx sy i a) (toElement sx sy j b).
Proof.
  unfold compareRaw, mayPrecede. simpl.
  destruct d, (inPanel a), (inPanel b), (inViewport a), (inViewport b); simpl;
    intros H; repeat split; intros; try congruence; try lia;
    try (match goal with Hd : _ \/ _ |- _ => destruct Hd; congruence end).
Qed.

(** X20.  Identifiers in a snapshot.  [extractPage] hands out at most 150
    elements and numbers them by position, from 0: the element at position
    [n] has [idx] [n].  So no two elements share an [idx], and the lookup by
    [idx] that [llmPlan] makes finds the element at that position. *)
Theorem extractPage_idx (url title : string) (d : bool) (sx sy : Z)
    (raw : list RawElement) :
  let page := extractPageFrom url title d sx sy raw in
  (List.length (PageData.elements page) <= 150)%nat
  /\ (List.length (PageData.elements page) <= List.length raw)%nat
  /\ (forall n el, nth_error (PageData.elements page) n = Some el ->
                   PageElement.idx el = Z.of_nat n)
  /\ (forall n el, nth_error (PageData.elements page) n = Some el ->
                   List.find (fun e => PageElement.idx e =? Z.of_nat n)
                             (PageData.elements page) = Some el).
Proof.
  intros page. subst page. unfold extractPageFrom. cbn [PageData.elements].
  set (capped := firstn 150 (sortRaw d raw)).
  assert (Hidx : forall n el,
            nth_error (mapFrom (toElement sx sy) 0 capped) n = Some el ->
            PageElement.idx el = Z.of_nat n).
  { intros n el H. rewrite mapFrom_nth in H.
    destruct (nth_error capped n); [|discriminate]. now injection H as <-. }
  assert (Hlen : List.length (sortRaw d raw) = List.length raw).
  { clear. induction raw as [|x l IH]; simpl; [reflexivity|].
    rewrite <- IH. generalize (sortRaw d l). clear. intros l.
    induction l as [|y l IH]; simpl; [reflexivity|].
    destruct (compareRaw d x y <=? 0); simpl; [reflexivity | now rewrite IH]. }
  split; [|split; [|split]].
  - rewrite mapFrom_length. unfold capped. rewrite length_firstn. lia.
  - rewrite mapFrom_length. unfold capped. rewrite length_firstn, Hlen. lia.
  - exact Hidx.
  - generalize dependent (mapFrom (toElement sx sy) 0 capped). clear.
    intros l Hidx n el Hn.
    assert (Hgen : forall (l0 : list PageElement) k,
              (forall m e, nth_error l0 m = Some e -> PageElement.idx e = Z.of_nat (k + m)) ->
              forall m e, nth_error l0 m = Some e ->
              List.find (fun e' => PageElement.idx e' =? Z.of_nat (k + m)) l0 = Some e).
    { clear. induction l0 as [|x l0 IH]; intros k Hl m e Hm.
      - destruct m; discriminate.
      - destruct m as [|m]; simpl in Hm |- *.
        + injection Hm as <-. rewrite (Hl 0%nat x eq_refl). now rewrite Z.eqb_refl.
        + rewrite (Hl 0%nat x eq_refl).
          replace (Z.of_nat (k + 0) =? Z.of_nat (k + S m)) with false
            by (symmetry; apply Z.eqb_neq; lia).
          replace (k + S m)%nat with (S k + m)%nat by lia.
          apply IH; [|exact Hm].
          intros m' e' Hm'. replace (S k + m')%nat with (k + S m')%nat by lia.
          now apply Hl. }
    exact (Hgen l 0%nat Hidx n el Hn).
Qed.

(** X21.  Order of a snapshot.  In the element list of [extractPage], when
    a panel is open every element of the panel comes before every element
    outside it; among elements on the same side of the panel (or among all,
    with no panel open) those in the viewport come before those off screen;
    and within the same group elements come from the top of the page down.
    The cap of 150 therefore drops elements from the far end of that
    order. *)
Theorem extractPage_order (url title : string) (d : bool) (sx sy : Z)
    (raw : list RawElement) (i j : nat) (a b : PageElement) :
  (i < j)%nat ->
  nth_error (PageData.elements (extractPageFrom url title d sx sy raw)) i = Some a ->
  nth_error (PageData.elements (extractPageFrom url title d sx sy raw)) j = Some b ->
  mayPrecede d a b.
Proof.
  unfold extractPageFrom. cbn [PageData.elements]. intros Hij Ha Hb.
  rewrite mapFrom_nth in Ha, Hb.
  destruct (nth_error (firstn 150 (sortRaw d raw)) i) as [ra|] eqn:Ei; [|discriminate].
  destruct (nth_error (firstn 150 (sortRaw d raw)) j) as [rb|] eqn:Ej; [|discriminate].
  injection Ha as <-. injection Hb as <-.
  apply compareRaw_mayPrecede.
  exact (sorted_nth _ _ i j ra rb (firstn_sorted _ 150 _ (sortRaw_sorted d raw)) Hij Ei Ej).
Qed.

End ExtractFacts.

Section ExtractClaims.
Import RawElement.

Lemma extractPage_order_witness :
  mayPrecede false
    (toElement 0 0 0 (SampleRaw.item "INPUT" "#first" (Some "text") 120 true false))
    (toElement 0 0 2 (SampleRaw.item "A" "#footer" None 2400 false false)).
Proof.
  apply (extractPage_order "https://dmv.example/apply" "DMV" false 0 0
           SampleRaw.items 0 2); [lia | reflexivity | reflexivity].
Defined.

End ExtractClaims.

(** ** Closing a step *)

Section CloseFacts.
Import SessionState World.

(** X23.  Closing a step.  With a step on display, SKIP appends to the
    history a record with the step counter, the action the step proposed,
    its selector and its text hint; ACTION_DONE, in an active session,
    appends the same record but with the action the content script
    reports.  Both then clear [current]; with no step on display neither
    records anything; and goal, mode, [active] and [completed] stay as they
    are. *)
Theorem closing_a_step (w : World) :
  let recorded (a : GuidanceStep -> ActionType) :=
    match current (state w) with
    | Some cur =>
        (history (state w) ++
         [{| ActionRecord.step := step (state w);
             ActionRecord.action := a cur;
             ActionRecord.selector := GuidanceStep.selector cur;
             ActionRecord.text := GuidanceStep.textHint cur |}])%list
    | None => history (state w)
    end in
  (history (after (Received SKIP) w) = recorded GuidanceStep.action
   /\ current (after (Received SKIP) w) = None)
  /\ (forall a, active (state w) = true ->
        history (after (Received (ACTION_DONE a)) w) = recorded (fun _ => a)
        /\ current (after (Received (ACTION_DONE a)) w) = None)
  /\ (forall e, e = Received SKIP \/ (exists a, e = Received (ACTION_DONE a)) ->
        goal (after e w) = goal (state w) /\ mode (after e w) = mode (state w)
        /\ active (after e w) = active (state w)
        /\ completed (after e w) = completed (state w)).
Proof.
  intros recorded. subst recorded. unfold after. split; [|split].
  - change (fst (handle (Received SKIP) w)) with (closeCurrent w GuidanceStep.action).
    rewrite closeCurrent_history. split; [reflexivity|].
    unfold closeCurrent. now destruct (current (state w)).
  - intros a Hact.
    assert (Hh : fst (handle (Received (ACTION_DONE a)) w) = closeCurrent w (fun _ => a)).
    { simpl. now rewrite Hact. }
    rewrite Hh, closeCurrent_history. split; [reflexivity|].
    unfold closeCurrent. now destruct (current (state w)).
  - intros e [->|[a ->]]; simpl.
    + unfold closeCurrent. now destruct (current (state w)).
    + destruct (negb (active (state w))); simpl; [auto|].
      unfold closeCurrent. now destruct (current (state w)).
Qed.

Lemma closing_a_step_witness :
  let w := Sample.world
             (Sample.session "apply for driver's license" 3
                (Some (stepFor Sample.formPage Sample.fresh Sample.fullName type))
                [] heuristic) in
  history (after (Received (ACTION_DONE click)) w)
  = [{| ActionRecord.step := 3; ActionRecord.action := click;
        ActionRecord.selector := "#name"; ActionRecord.text := EmptyString |}]
  /\ current (after (Received (ACTION_DONE click)) w) = None.
Proof.
  apply (proj1 (proj2 (closing_a_step
           (Sample.world
              (Sample.session "apply for driver's license" 3
                 (Some (stepFor Sample.formPage Sample.fresh Sample.fullName type))
                 [] heuristic)))) click).
  reflexivity.
Defined.

End CloseFacts.

(** * The worker between its awaits *)

(** ** Listeners and resumed functions *)

Section BetweenFacts.
Import SessionState World Worker.

Lemma closeCurrent_processing (w : World) (f : GuidanceStep -> ActionType) :
  processing (closeCurrent w f) = processing w.
Proof. unfold closeCurrent. now destruct (current (state w)). Qed.

(** the listener changes the variables as [onMessage] does *)
Lemma listen_vars (msg : Message) (m : Worker) :
  vars (fst (listen msg m)) = fst (onMessage msg (vars m)).
Proof.
  destruct msg; simpl; try reflexivity.
  - now destruct (negb (active (state (vars m)))).
  - now destruct (negb (active (state (vars m)))).
Qed.

Lemma listen_stored (msg : Message) (m : Worker) : stored (snd (listen msg m)) = [].
Proof.
  destruct msg; try reflexivity; unfold listen; cbv zeta;
    now destruct (negb (active (state (vars m)))).
Qed.

(** what [commit] stores is the candidate, when it keeps it *)
Lemma commit_stored (a : Attempt) (w : World) (cand : option GuidanceStep) :
  let kept :=
    match cand with
    | Some st =>
        match a with
        | inTry => if isStuck (state w) st then None else Some st
        | inRetry => Some st
        end
    | None => None
    end in
  stored (snd (fst (commit a w cand))) = match kept with Some st => [st] | None => [] end
  /\ (forall st, kept = Some st ->
        current (state (fst (fst (commit a w cand)))) = Some st
        /\ snd (commit a w cand) = [atSaveState (showStep a st)])
  /\ history (state (fst (fst (commit a w cand)))) = history (state w)
  /\ step (state (fst (fst (commit a w cand)))) = step (state w).
Proof.
  cbv zeta. destruct a, cand as [st|]; unfold commit, commitTry, commitRetry; cbv zeta.
  - destruct (isStuck (state w) st).
    + destruct (negb (completed (state w))); cbn; repeat split; intros; discriminate.
    + cbn. repeat split; injection H as <-; reflexivity.
  - destruct (negb (completed (state w))); cbn; repeat split; intros; discriminate.
  - cbn. repeat split; injection H as <-; reflexivity.
  - cbn. repeat split; intros; discriminate.
Qed.

Lemma planResumed_cases (w : World) (page : PageData) (r : SessionRef)
    (cfg : LLMConfig) (io : FetchOutcome) (cand : option GuidanceStep) :
  planResumed w page r cfg io = Return cand <->
  (exists st, llmPlan page (sessionOf r w) cfg io = Return (Some st) /\ cand = Some st)
  \/ (llmPlan page (sessionOf r w) cfg io = Return None
      /\ cand = heuristicPlan page (state w)).
Proof.
  unfold planResumed.
  destruct (llmPlan page (sessionOf r w) cfg io) as [[st|]|name]; split.
  - intros [= <-]. left. eauto.
  - intros [[st' [[= <-] ->]]|[H _]]; [reflexivity | discriminate].
  - intros [= <-]. right. auto.
  - intros [[st' [H _]]|[_ ->]]; [discriminate | reflexivity].
  - discriminate.
  - intros [[st' [H _]]|[H _]]; discriminate.
Qed.

(** A step is stored only where [plan] ends: in the turn of the event loop
    that called [plan] when the model is not asked, or in the turn in which
    the model's answer arrives. *)
Lemma tick_stored (t : Tick) (m : Worker) (st : GuidanceStep) :
  In st (stored (snd (tick t m))) ->
  current (state (vars (fst (tick t m)))) = Some st
  /\ history (state (vars (fst (tick t m)))) = history (state (vars m))
  /\ exists n a page,
       (t = Settled n (extracted (ExtractPage page))
        /\ nth_error (pending m) n = Some (atExtract a)
        /\ llmEnabled (vars m) = None
        /\ heuristicPlan page (state (vars m)) = Some st)
       \/ (exists r cfg io,
             t = Settled n (modelAnswered io)
             /\ nth_error (pending m) n = Some (atLlmPlan a page r cfg)
             /\ planResumed (vars m) page r cfg io = Return (Some st)).
Proof.
  destruct t as [msg|frameId| |n ans].
  - cbn [tick]. rewrite listen_stored. intros [].
  - cbn [tick]. unfold onNavigationCompleted.
    destruct (negb (frameId =? 0)); [intros []|].
    destruct (negb (active (state (vars m)))); intros [].
  - cbn [tick]. destruct (processTabRuns (vars m)); intros [].
  - cbn [tick]. destruct (nth_error (pending m) n) as [t|] eqn:Hn; [|intros []].
    assert (Hcommit : forall a cand,
              In st (stored (snd (fst (commit a (vars m) cand)))) ->
              cand = Some st
              /\ current (state (fst (fst (commit a (vars m) cand)))) = Some st
              /\ history (state (fst (fst (commit a (vars m) cand))))
                 = history (state (vars m))).
    { intros a cand Hin.
      destruct (commit_stored a (vars m) cand) as [Hs [Hk [Hh _]]].
      rewrite Hs in Hin.
      destruct cand as [c|]; [|destruct Hin].
      destruct a.
      - destruct (isStuck (state (vars m)) c); [destruct Hin|].
        destruct Hin as [<-|[]]. destruct (Hk c eq_refl) as [Hc _]. auto.
      - destruct Hin as [<-|[]]. destruct (Hk c eq_refl) as [Hc _]. auto. }
    destruct t as [|[|]|a page r cfg|k| |[|]|]; destruct ans as [tab|reply|io| |ok|];
      cbn [resume]; try (intros []).
    + destruct (negb (tabOk tab)); intros [].
    + destruct reply as [| |page]; cbn [thrown]; try (intros []).
      destruct ((1 <? step (state (vars m))) && isSuccessPage page)%bool; [intros []|].
      unfold planCalled. destruct (llmEnabled (vars m)) as [cfg|] eqn:Hllm; [intros []|].
      destruct (commit inTry (vars m) (heuristicPlan page (state (vars m))))
        as [[w' out] next] eqn:Hc.
      cbn [fst snd vars]. intros Hin.
      specialize (Hcommit inTry (heuristicPlan page (state (vars m)))).
      rewrite Hc in Hcommit. cbn [fst snd] in Hcommit.
      destruct (Hcommit Hin) as [Hcand [Hcur Hhist]].
      split; [exact Hcur|]. split; [exact Hhist|].
      exists n, inTry, page. left. auto.
    + destruct reply as [| |page]; cbn [thrown]; try (intros []).
      unfold planCalled. destruct (llmEnabled (vars m)) as [cfg|] eqn:Hllm; [intros []|].
      destruct (commit inRetry (vars m) (heuristicPlan page (state (vars m))))
        as [[w' out] next] eqn:Hc.
      cbn [fst snd vars]. intros Hin.
      specialize (Hcommit inRetry (heuristicPlan page (state (vars m)))).
      rewrite Hc in Hcommit. cbn [fst snd] in Hcommit.
      destruct (Hcommit Hin) as [Hcand [Hcur Hhist]].
      split; [exact Hcur|]. split; [exact Hhist|].
      exists n, inRetry, page. left. auto.
    + destruct (planResumed (vars m) page r cfg io) as [cand|name] eqn:Hp.
      * destruct (commit a (vars m) cand) as [[w' out] next] eqn:Hc.
        cbn [fst snd vars]. intros Hin.
        specialize (Hcommit a cand). rewrite Hc in Hcommit. cbn [fst snd] in Hcommit.
        destruct (Hcommit Hin) as [-> [Hcur Hhist]].
        split; [exact Hcur|]. split; [exact Hhist|].
        exists n, a, page. right. exists r, cfg, io. auto.
      * destruct a; intros [].
    + destruct k; intros [].
    + destruct ok; intros [].
    + destruct ok; intros [].
Qed.

Lemma ticks_cons (t : Tick) (ts : list Tick) (m : Worker) :
  fst (ticks (t :: ts) m) = fst (ticks ts (fst (tick t m))).
Proof.
  simpl. destruct (tick t m) as [m1 out1]. simpl.
  now destruct (ticks ts m1) as [m2 out2].
Qed.

Lemma ticks_app (ts1 ts2 : list Tick) (m : Worker) :
  fst (ticks (ts1 ++ ts2) m) = fst (ticks ts2 (fst (ticks ts1 m))).
Proof.
  revert m. induction ts1 as [|t ts1 IH]; intros m; [reflexivity|].
  rewrite <- app_comm_cons, !ticks_cons. apply IH.
Qed.

Lemma In_replaceAt {A} (n : nat) (next l : list A) (x : A) :
  In x (replaceAt n next l) -> In x l \/ In x next.
Proof.
  unfold replaceAt. intros H.
  apply in_app_or in H. destruct H as [H|H].
  - left. rewrite <- (firstn_skipn n l). apply in_or_app. now left.
  - apply in_app_or in H. destruct H as [H|H]; [now right|].
    left. rewrite <- (firstn_skipn (S n) l). apply in_or_app. now right.
Qed.

Lemma forallb_replaceAt {A} (p : A -> bool) (n : nat) (next l : list A) :
  forallb p l = true -> forallb p next = true ->
  forallb p (replaceAt n next l) = true.
Proof.
  rewrite !forallb_forall. intros Hl Hn x Hx.
  apply In_replaceAt in Hx. destruct Hx; auto.
Qed.

Lemma nth_replaceAt {A} (n : nat) (x t : A) (l : list A) :
  nth_error l n = Some t -> nth_error (replaceAt n [x] l) n = Some x.
Proof.
  intros Hn. unfold replaceAt.
  assert (Hlen : List.length (firstn n l) = n).
  { apply firstn_length_le. apply Nat.lt_le_incl. apply nth_error_Some. now rewrite Hn. }
  rewrite nth_error_app2 by lia. now rewrite Hlen, Nat.sub_diag.
Qed.

Lemma count_replaceAt {A} (p : A -> bool) (n : nat) (next l : list A) (t : A) :
  nth_error l n = Some t ->
  (List.length (filter p (replaceAt n next l)) + (if p t then 1 else 0)
   = List.length (filter p l) + List.length (filter p next))%nat.
Proof.
  intros Hn. destruct (nth_error_split l n Hn) as [l1 [l2 [Hl Hlen]]].
  unfold replaceAt. subst l.
  rewrite firstn_app, <- Hlen, firstn_all, Nat.sub_diag, firstn_O, app_nil_r.
  replace (skipn (S (List.length l1)) (l1 ++ t :: l2)) with l2.
  2:{ rewrite skipn_app, skipn_all2 by lia.
      replace (S (List.length l1) - List.length l1)%nat with 1%nat by lia.
      reflexivity. }
  rewrite !filter_app, !length_app. cbn [filter].
  destruct (p t); cbn [List.length]; rewrite ?length_app; cbn [List.length]; lia.
Qed.

Lemma commit_frame (a : Attempt) (w : World) (cand : option GuidanceStep) :
  mode (state (fst (fst (commit a w cand)))) = mode (state w)
  /\ forallb (fun t => negb (awaitsModel t)) (snd (commit a w cand)) = true.
Proof.
  destruct a, cand as [st|]; unfold commit, commitTry, commitRetry; cbv zeta.
  - destruct (isStuck (state w) st).
    + destruct (negb (completed (state w))); cbn; auto.
    + cbn. auto.
  - destruct (negb (completed (state w))); cbn; auto.
  - cbn. auto.
  - cbn. auto.
Qed.

(** in heuristic mode no listener and no resumed function asks the model *)
Lemma heuristicSession_tick (t : Tick) (m : Worker) :
  startsLlm t = false -> heuristicSession m -> heuristicSession (fst (tick t m)).
Proof.
  intros Ht [Hmode Hp]. destruct t as [msg|frameId| |n ans].
  - cbn [tick]. destruct msg; try (split; assumption); unfold listen; cbv zeta.
    + destruct mode0; [|discriminate Ht]. split; [reflexivity|].
      cbn [fst pending]. rewrite forallb_app. cbn. rewrite andb_true_r.
      rewrite forallb_forall in Hp |- *. intros t Hin.
      apply in_map_iff in Hin. destruct Hin as [t0 [<- H0]].
      specialize (Hp t0 H0). destruct t0 as [| |a p [|s] c| | | |]; auto.
    + split; [reflexivity|].
      cbn [fst pending]. rewrite forallb_app. cbn. rewrite andb_true_r.
      rewrite forallb_forall in Hp |- *. intros t Hin.
      apply in_map_iff in Hin. destruct Hin as [t0 [<- H0]].
      specialize (Hp t0 H0). destruct t0 as [| |a p [|s] c| | | |]; auto.
    + split.
      * cbn [fst vars]. unfold closeCurrent. now destruct (current (state (vars m))).
      * cbn [fst pending]. rewrite forallb_app, Hp. reflexivity.
    + destruct (negb (active (state (vars m)))); [split; assumption|]. split.
      * cbn [fst vars]. unfold closeCurrent. now destruct (current (state (vars m))).
      * cbn [fst pending]. rewrite forallb_app, Hp. reflexivity.
    + destruct (negb (active (state (vars m)))); split; assumption.
  - cbn [tick]. unfold onNavigationCompleted.
    destruct (negb (frameId =? 0)); [split; assumption|].
    destruct (negb (active (state (vars m)))); split; assumption.
  - cbn [tick]. destruct (processTabRuns (vars m)); [|split; assumption].
    split; [exact Hmode|]. cbn [fst pending]. rewrite forallb_app, Hp. reflexivity.
  - cbn [tick]. destruct (nth_error (pending m) n) as [t|] eqn:Hn; [|split; assumption].
    assert (Hnot : awaitsModel t = false).
    { rewrite forallb_forall in Hp. specialize (Hp t (nth_error_In _ _ Hn)).
      now destruct (awaitsModel t). }
    assert (Hllm : llmEnabled (vars m) = None).
    { unfold llmEnabled. now rewrite Hmode. }
    assert (Hdone : forall (w' : World) (out : list Effect) (next : list Task),
              mode (state w') = heuristic ->
              forallb (fun t => negb (awaitsModel t)) next = true ->
              heuristicSession
                (fst ({| vars := w'; pending := replaceAt n next (pending m) |}, out))).
    { intros w' out next Hm Hnext. split; [exact Hm|].
      cbn [fst pending]. now apply forallb_replaceAt. }
    assert (Hplan : forall a page,
              heuristicSession
                (fst (let '(w', out, next) := planCalled a (vars m) page in
                      ({| vars := w'; pending := replaceAt n next (pending m) |}, out)))).
    { intros a page. unfold planCalled. rewrite Hllm.
      destruct (commit_frame a (vars m) (heuristicPlan page (state (vars m)))) as [H1 H2].
      destruct (commit a (vars m) (heuristicPlan page (state (vars m)))) as [[w' out] next].
      apply Hdone; [now rewrite <- Hmode | exact H2]. }
    destruct t as [|[|]|a page r cfg|k| |[|]|]; try discriminate Hnot;
      destruct ans as [tab|reply|io| |ok|]; cbn [resume]; try (split; assumption).
    + destruct (negb (tabOk tab)); apply Hdone; auto.
    + destruct reply as [| |page]; cbn [thrown]; try (apply Hdone; auto).
      destruct ((1 <? step (state (vars m))) && isSuccessPage page)%bool.
      * apply Hdone; auto.
      * exact (Hplan inTry page).
    + destruct reply as [| |page]; cbn [thrown]; try (apply Hdone; auto).
      exact (Hplan inRetry page).
    + destruct k; apply Hdone; auto.
    + apply Hdone; auto.
    + destruct ok; cbn [thrown]; apply Hdone; auto.
    + destruct ok; cbn [thrown]; apply Hdone; auto.
    + apply Hdone; auto.
Qed.

End BetweenFacts.

(** ** Where [plan] ends *)

Section PlanEnds.
Import SessionState World Worker.

Lemma heuristicPlan_success (page : PageData) (s : SessionState) :
  ((1 <? step s) && isSuccessPage page)%bool = true -> heuristicPlan page s = None.
Proof.
  intros H. apply andb_true_iff in H. destruct H as [H1 H2].
  unfold heuristicPlan. destruct (Nat.eqb (List.length (PageData.elements page)) 0);
    [reflexivity|].
  unfold isSuccessPage in H2. now rewrite H2, H1.
Qed.

(** a run of [processTab] that is let in and gets the snapshot *)
Lemma processTab_planned (env : PassEnv) (w : World) (page : PageData)
    (cand : option GuidanceStep) :
  processTabRuns w = true ->
  tabAllowed env = true ->
  PassEnv.extract env = ExtractPage page ->
  ((1 <? step (state w)) && isSuccessPage page)%bool = false ->
  plan w page (PassEnv.fetch env) = Return cand ->
  current (state (fst (processTab env w))) = keptBy inTry (state w) cand
  /\ shown (snd (processTab env w)) = listOf (keptBy inTry (state w) cand)
  /\ (In (broadcast (ERROR STUCK_MSG)) (snd (processTab env w)) <->
      exists st, cand = Some st /\ isStuck (state w) st = true).
Proof.
  intros Hruns Htab Hext Hsucc Hplan.
  destruct (processTabRuns_open w Hruns) as [_ [Hc _]].
  unfold processTab. rewrite Hruns. unfold processTabEnter. rewrite Hruns.
  unfold processTabBody.
  assert (Hsucc1 : ((1 <? step (state (setProcessing w true)))
                    && isSuccessPage page)%bool = false) by exact Hsucc.
  assert (Hplan1 : plan (setProcessing w true) page (PassEnv.fetch env) = Return cand)
    by exact Hplan.
  rewrite (processTabTry_planned env _ page _ Htab Hext Hsucc1 Hplan1).
  cbn [state setProcessing]. rewrite Hc. cbn [negb].
  destruct cand as [st|]; cbn [keptBy listOf].
  - destruct (isStuck (state w) st) eqn:Hs; cbn.
    + repeat split; auto. intros _. eauto.
    + destruct (PassEnv.showDelivered env); cbn; repeat split; auto;
        try (intros [H|[H|[H|[]]]]; discriminate H);
        try (intros [H|[H|[H|[H|[]]]]]; discriminate H);
        intros [st' [[= <-] H]]; congruence.
  - cbn. repeat split; auto.
    + intros [H|[H|[H|[]]]]; discriminate H.
    + intros [st' [H _]]; discriminate H.
Qed.

Lemma retryPass_planned (env : PassEnv) (w : World) (page : PageData)
    (cand : option GuidanceStep) :
  PassEnv.extract env = ExtractPage page ->
  plan w page (PassEnv.fetch env) = Return cand ->
  shown (snd (retryPass env w)) = listOf cand
  /\ (forall st, cand = Some st -> current (state (fst (retryPass env w))) = Some st)
  /\ ~ In (broadcast (ERROR STUCK_MSG)) (snd (retryPass env w)).
Proof.
  intros Hext Hplan. unfold retryPass. rewrite Hext, Hplan.
  destruct cand as [st|]; cbn.
  - destruct (PassEnv.showDelivered env); cbn; repeat split; auto;
      try (intros st' [= <-]; reflexivity).
    + intros [H|[H|[H|[]]]]; discriminate H.
    + intros [H|[H|[H|[H|[]]]]]; discriminate H.
  - repeat split; auto. intros st' H. discriminate H.
Qed.

(** what [commit] does with the candidate of [plan] *)
Lemma commit_spec (a : Attempt) (w : World) (cand : option GuidanceStep) :
  let kept := keptBy a (state w) cand in
  stored (snd (fst (commit a w cand))) = listOf kept
  /\ (forall st, kept = Some st ->
        current (state (fst (fst (commit a w cand)))) = Some st
        /\ snd (commit a w cand) = [atSaveState (showStep a st)])
  /\ (In (broadcast (ERROR STUCK_MSG)) (snd (fst (commit a w cand))) <->
      a = inTry /\ exists st, cand = Some st /\ isStuck (state w) st = true)
  /\ (kept = None -> a = inTry -> completed (state w) = false ->
      current (state (fst (fst (commit a w cand)))) = None).
Proof.
  cbv zeta.
  destruct a, cand as [st|]; unfold commit, commitTry, commitRetry; cbv zeta;
    cbn [keptBy listOf].
  - destruct (isStuck (state w) st) eqn:Hs.
    + destruct (completed (state w)) eqn:Hc; cbn.
      * split; [reflexivity|]. split; [intros st' H; discriminate H|].
        split; [|intros _ _ H; discriminate H].
        split; [intros _; eauto | intros _; now left].
      * split; [reflexivity|]. split; [intros st' H; discriminate H|].
        split; [|reflexivity].
        split; [intros _; eauto | intros _; now left].
    + cbn. split; [reflexivity|]. split.
      * intros st' [= <-]. split; reflexivity.
      * split; [|intros H; discriminate H].
        split; [intros [H|[]]; discriminate H|].
        intros [_ [st' [[= <-] H]]]. congruence.
  - destruct (completed (state w)) eqn:Hc; cbn.
    + split; [reflexivity|]. split; [intros st' H; discriminate H|].
      split; [|intros _ _ H; discriminate H].
      split; [intros [] | intros [_ [st' [H _]]]; discriminate H].
    + split; [reflexivity|]. split; [intros st' H; discriminate H|].
      split; [|reflexivity].
      split; [intros [H|[]]; discriminate H | intros [_ [st' [H _]]]; discriminate H].
  - cbn. split; [reflexivity|]. split.
    + intros st' [= <-]. split; reflexivity.
    + split; [|intros H; discriminate H].
      split; [intros [H|[]]; discriminate H | intros [H _]; discriminate H].
  - cbn. split; [reflexivity|]. split; [intros st' H; discriminate H|].
    split; [|intros _ H; discriminate H].
    split; [intros [] | intros [H _]; discriminate H].
Qed.

Lemma commit_planEnds (a : Attempt) (n : nat) (m : Worker) (t : Task)
    (cand : option GuidanceStep) :
  nth_error (pending m) n = Some t ->
  planEnds a n m cand
    (let '(w', out, next) := commit a (vars m) cand in
     ({| vars := w'; pending := replaceAt n next (pending m) |}, out)).
Proof.
  intros Hn. destruct (commit_spec a (vars m) cand) as [H1 [H2 [H3 H4]]].
  cbv zeta in H1, H2, H4.
  destruct (commit a (vars m) cand) as [[w' out] next]. cbn [fst snd] in *.
  unfold planEnds. cbn [fst snd vars pending]. split; [exact H1|].
  split; [|split; [exact H3 | exact H4]].
  intros st Hk. destruct (H2 st Hk) as [Hc ->]. split; [exact Hc|].
  exact (nth_replaceAt n _ t _ Hn).
Qed.

(** the answer of the model resumes [plan]; the first attempt checks the
    candidate with [isStuck], both attempts store what is kept *)
Lemma tick_modelAnswered (m : Worker) (n : nat) (a : Attempt) (page : PageData)
    (r : SessionRef) (cfg : LLMConfig) (io : FetchOutcome) (cand : option GuidanceStep) :
  nth_error (pending m) n = Some (atLlmPlan a page r cfg) ->
  planResumed (vars m) page r cfg io = Return cand ->
  planEnds a n m cand (tick (Settled n (modelAnswered io)) m).
Proof.
  intros Hn Hp. cbn [tick]. rewrite Hn. cbn [resume]. rewrite Hp.
  exact (commit_planEnds a n m _ cand Hn).
Qed.


End PlanEnds.

(** ** No repeated selector *)

Section NoRepeatClaims.
Import SessionState World Worker.

(** C2, as the code has it.  [heuristicPlan] never returns a step whose
    selector is found in the history, and its step is stored as [current]
    in the turn of the event loop in which it was computed.  So a step that
    a pass or a retry stores has an unused selector, unless it is the step
    that [llmPlan] parsed from the answer of the model; and for as long as
    the session has been in heuristic mode with no call of the model
    waiting, no stored step repeats a selector, whatever the event loop runs
    in between.  The step of the model is stored without a look at the
    history: the first attempt stores it unless [isStuck] holds, the retry
    stores it in any case. *)
Theorem no_repeat_heuristic :
  (forall page s st, heuristicPlan page s = Some st -> unused s st)
  /\
  (forall t m st,
     In st (stored (snd (tick t m))) ->
     current (state (vars (fst (tick t m)))) = Some st
     /\ (unused (state (vars (fst (tick t m)))) st
         \/ exists n a page r cfg io,
              t = Settled n (modelAnswered io)
              /\ nth_error (pending m) n = Some (atLlmPlan a page r cfg)
              /\ llmPlan page (sessionOf r (vars m)) cfg io = Return (Some st)))
  /\
  (forall ts1 t ts2 m st,
     heuristicSession m ->
     forallb (fun t' => negb (startsLlm t')) (ts1 ++ t :: ts2) = true ->
     In st (stored (snd (tick t (fst (ticks ts1 m))))) ->
     unused (state (vars (fst (ticks (ts1 ++ [t]) m)))) st)
  /\
  (forall m n a page r cfg io st,
     nth_error (pending m) n = Some (atLlmPlan a page r cfg) ->
     llmPlan page (sessionOf r (vars m)) cfg io = Return (Some st) ->
     (a = inTry -> isStuck (state (vars m)) st = false) ->
     stored (snd (tick (Settled n (modelAnswered io)) m)) = [st]
     /\ current (state (vars (fst (tick (Settled n (modelAnswered io)) m)))) = Some st).
Proof.
  assert (Hplan : forall page s st, heuristicPlan page s = Some st -> unused s st).
  { intros page s st H h Hh. apply heuristicPlan_unused in H.
    apply (has_false _ _ H). unfold usedSelectorsOf. now apply in_map. }
  assert (Hall : forall t m st,
            In st (stored (snd (tick t m))) ->
            current (state (vars (fst (tick t m)))) = Some st
            /\ (unused (state (vars (fst (tick t m)))) st
                \/ exists n a page r cfg io,
                     t = Settled n (modelAnswered io)
                     /\ nth_error (pending m) n = Some (atLlmPlan a page r cfg)
                     /\ llmPlan page (sessionOf r (vars m)) cfg io = Return (Some st))).
  { intros t m st Hin.
    destruct (tick_stored t m st Hin) as [Hcur [Hhist [n [a [page H]]]]].
    split; [exact Hcur|].
    assert (Hu : heuristicPlan page (state (vars m)) = Some st ->
                 unused (state (vars (fst (tick t m)))) st).
    { intros Hh h. rewrite Hhist. exact (Hplan _ _ _ Hh h). }
    destruct H as [[_ [_ [_ Hh]]]|[r [cfg [io [-> [Hn Hp]]]]]]; [left; auto|].
    apply planResumed_cases in Hp.
    destruct Hp as [[st' [Hl [= <-]]]|[_ Hh]]; [|left; auto].
    right. exists n, a, page, r, cfg, io. auto. }
  split; [exact Hplan|]. split; [exact Hall|]. split.
  - intros ts1 t ts2 m st Hm Hts Hin.
    rewrite forallb_app in Hts. apply andb_true_iff in Hts. destruct Hts as [H1 H2].
    simpl in H2. apply andb_true_iff in H2. destruct H2 as [Ht _].
    assert (Hinv : heuristicSession (fst (ticks ts1 m))).
    { clear Hin. revert m Hm. induction ts1 as [|t1 ts1 IH]; intros m Hm; [exact Hm|].
      simpl in H1. apply andb_true_iff in H1. destruct H1 as [Ht1 H1].
      rewrite ticks_cons. apply (IH H1).
      apply heuristicSession_tick; [|exact Hm]. now destruct (startsLlm t1). }
    rewrite ticks_app. rewrite (ticks_cons t []). cbn [ticks fst].
    destruct (Hall t _ st Hin) as [_ [Hu|[n [a [page [r [cfg [io [_ [Hn _]]]]]]]]]];
      [exact Hu|].
    destruct Hinv as [_ Hp]. rewrite forallb_forall in Hp.
    specialize (Hp _ (nth_error_In _ _ Hn)). discriminate Hp.
  - intros m n a page r cfg io st Hn Hl Hstuck.
    cbn [tick]. rewrite Hn. cbn [resume]. unfold planResumed. rewrite Hl.
    destruct (commit_stored a (vars m) (Some st)) as [Hs [Hk _]].
    cbv zeta in Hs, Hk.
    destruct (commit a (vars m) (Some st)) as [[w' out] next].
    cbn [fst snd vars] in *.
    destruct a.
    + rewrite (Hstuck eq_refl) in Hs, Hk. split; [exact Hs|].
      now destruct (Hk st eq_refl).
    + split; [exact Hs|]. now destruct (Hk st eq_refl).
Qed.

Lemma no_repeat_heuristic_witness :
  let s := Sample.session "apply for driver's license" 2 None
             [Sample.record 1 "#start" "Start"] heuristic in
  let st := stepFor Sample.formPage s Sample.fullName type in
  let t := Settled 0 (extracted (ExtractPage Sample.formPage)) in
  let ts := [Called; Settled 0 (tabFound (Some (Some "https://dmv.example/apply")))] in
  (current (state (vars (fst (tick t (SampleTrace.atSnapshot s))))) = Some st
   /\ (unused (state (vars (fst (tick t (SampleTrace.atSnapshot s))))) st
       \/ exists n a page r cfg io,
            t = Settled n (modelAnswered io)
            /\ nth_error (pending (SampleTrace.atSnapshot s)) n
               = Some (atLlmPlan a page r cfg)
            /\ llmPlan page (sessionOf r (vars (SampleTrace.atSnapshot s))) cfg io
               = Return (Some st)))
  /\ unused (state (vars (fst (ticks (ts ++ [t]) (settled (Sample.world s)))))) st.
Proof.
  cbv zeta. split.
  - apply (proj1 (proj2 no_repeat_heuristic)
             (Settled 0 (extracted (ExtractPage Sample.formPage)))
             (SampleTrace.atSnapshot
                (Sample.session "apply for driver's license" 2 None
                   [Sample.record 1 "#start" "Start"] heuristic))).
    vm_compute. left. reflexivity.
  - apply (proj1 (proj2 (proj2 no_repeat_heuristic))
             [Called; Settled 0 (tabFound (Some (Some "https://dmv.example/apply")))]
             (Settled 0 (extracted (ExtractPage Sample.formPage)))
             []
             (settled (Sample.world
                         (Sample.session "apply for driver's license" 2 None
                            [Sample.record 1 "#start" "Start"] heuristic)))).
    + split; reflexivity.
    + reflexivity.
    + vm_compute. left. reflexivity.
Defined.

(** C2, as stated, fails for the steps of the model.  In llm mode the
    history holds a click on "#submit", the model answers [click(0)],
    element 0 is that same button, and the pass stores a step on "#submit"
    as [current].  The same happens to a session in heuristic mode when the
    answer of the model is still awaited as START replaces the session: the
    step is stored into the new session, whose history is the array that
    holds the click on "#submit". *)
Lemma no_repeat_counterexample :
  (let w := Sample.world (Sample.session "submit the form" 2 None
                            [Sample.record 1 "#submit" "Submit"] llm) in
   let r := processTab (Sample.env Sample.submitPage (Sample.answers "0")) w in
   In (Sample.record 1 "#submit" "Submit") (history (state (fst r)))
   /\ current (state (fst r))
      = Some {| GuidanceStep.stepNumber := 2;
                GuidanceStep.action := click;
                GuidanceStep.selector := "#submit";
                GuidanceStep.textHint := "Submit";
                GuidanceStep.instruction := "next" |}
   /\ shown (snd r)
      = [{| GuidanceStep.stepNumber := 2;
            GuidanceStep.action := click;
            GuidanceStep.selector := "#submit";
            GuidanceStep.textHint := "Submit";
            GuidanceStep.instruction := "next" |}])
  /\
  (let m := fst (ticks SampleTrace.lateStart (settled Sample.configuredWorker)) in
   let r := tick (Settled 0 (modelAnswered (Sample.answers "0"))) m in
   mode (state (vars m)) = heuristic
   /\ mode (state (vars (fst r))) = heuristic
   /\ history (state (vars (fst r))) = [Sample.record 1 "#submit" "Submit"]
   /\ current (state (vars (fst r)))
      = Some {| GuidanceStep.stepNumber := 2;
                GuidanceStep.action := click;
                GuidanceStep.selector := "#submit";
                GuidanceStep.textHint := "Submit";
                GuidanceStep.instruction := "next" |}
   /\ stored (snd r)
      = [{| GuidanceStep.stepNumber := 2;
            GuidanceStep.action := click;
            GuidanceStep.selector := "#submit";
            GuidanceStep.textHint := "Submit";
            GuidanceStep.instruction := "next" |}]).
Proof.
  split.
  - vm_compute. split; [left; reflexivity | split; reflexivity].
  - vm_compute. repeat split.
Qed.

End NoRepeatClaims.

(** ** The model fails *)

Section FallbackClaims.
Import SessionState World Worker.

(** C4, as the code has it.  When the transport answers with a status
    outside 200-299, [llmPlan] returns null and throws nothing, and [plan]
    returns what [heuristicPlan] computes for the same snapshot and
    session.  A run of [processTab] that is let in and gets the snapshot
    then ends with that step stored as [current] and handed to the
    actuator, and with none when [heuristicPlan] has none; the one step it
    does not store is a step that [isStuck] rejects.  The retry stores and
    shows the step of [heuristicPlan] in any case.  Await by await: when
    the answer arrives, the step of [heuristicPlan] for the session as it is
    by then is stored, and SHOW_STEP is sent for it once the write to
    storage has resolved. *)
Theorem llm_failure_falls_back (page : PageData) (status : Z) (payload : Payload)
    (Hbad : responseOk status = false) :
  (forall s cfg, llmPlan page s cfg (Response status payload) = Return None)
  /\ (forall w, plan w page (Response status payload)
                = Return (heuristicPlan page (state w)))
  /\ (forall env w,
        processTabRuns w = true ->
        tabAllowed env = true ->
        PassEnv.extract env = ExtractPage page ->
        PassEnv.fetch env = Response status payload ->
        let kept := keptBy inTry (state w) (heuristicPlan page (state w)) in
        current (state (fst (processTab env w))) = kept
        /\ shown (snd (processTab env w)) = listOf kept)
  /\ (forall env w,
        PassEnv.extract env = ExtractPage page ->
        PassEnv.fetch env = Response status payload ->
        shown (snd (retryPass env w)) = listOf (heuristicPlan page (state w))
        /\ forall st, heuristicPlan page (state w) = Some st ->
                      current (state (fst (retryPass env w))) = Some st)
  /\ (forall m n a r cfg,
        nth_error (pending m) n = Some (atLlmPlan a page r cfg) ->
        let after := tick (Settled n (modelAnswered (Response status payload))) m in
        let kept := keptBy a (state (vars m)) (heuristicPlan page (state (vars m))) in
        stored (snd after) = listOf kept
        /\ forall st, kept = Some st ->
             current (state (vars (fst after))) = Some st
             /\ In (sendToTab (SHOW_STEP st)) (snd (tick (Settled n stateSaved) (fst after)))).
Proof.
  assert (Hllm : forall s cfg, llmPlan page s cfg (Response status payload) = Return None).
  { intros s cfg. unfold llmPlan, llmPlanTry. now rewrite Hbad. }
  assert (Hplan : forall w, plan w page (Response status payload)
                            = Return (heuristicPlan page (state w))).
  { intros w. unfold plan. destruct (llmEnabled w) as [cfg|]; [|reflexivity].
    now rewrite Hllm. }
  split; [exact Hllm|]. split; [exact Hplan|]. split; [|split].
  - intros env w Hruns Htab Hext Hfetch. cbv zeta.
    destruct ((1 <? step (state w)) && isSuccessPage page)%bool eqn:Hsucc.
    + rewrite (processTab_success env w page Hruns Htab Hext Hsucc).
      rewrite (heuristicPlan_success page (state w) Hsucc). split; reflexivity.
    + assert (Hp : plan w page (PassEnv.fetch env) = Return (heuristicPlan page (state w))).
      { rewrite Hfetch. apply Hplan. }
      destruct (processTab_planned env w page _ Hruns Htab Hext Hsucc Hp) as [H1 [H2 _]].
      auto.
  - intros env w Hext Hfetch.
    assert (Hp : plan w page (PassEnv.fetch env) = Return (heuristicPlan page (state w))).
    { rewrite Hfetch. apply Hplan. }
    destruct (retryPass_planned env w page _ Hext Hp) as [H1 [H2 _]]. auto.
  - intros m n a r cfg Hn. cbv zeta.
    assert (Hp : planResumed (vars m) page r cfg (Response status payload)
                 = Return (heuristicPlan page (state (vars m)))).
    { unfold planResumed. now rewrite Hllm. }
    destruct (tick_modelAnswered m n a page r cfg _ _ Hn Hp) as [H1 [H2 _]].
    split; [exact H1|]. intros st Hk. destruct (H2 st Hk) as [Hc Hnth].
    split; [exact Hc|].
    generalize dependent (fst (tick (Settled n (modelAnswered (Response status payload))) m)).
    intros m' _ _ Hnth. cbn [tick]. rewrite Hnth. cbn. auto.
Qed.

Lemma llm_failure_falls_back_witness :
  let w := Sample.world (Sample.session "apply for driver's license" 1 None [] llm) in
  let env := Sample.env Sample.formPage (Response 500 JsonRejects) in
  current (state (fst (processTab env w)))
  = Some (stepFor Sample.formPage Sample.fresh Sample.fullName type)
  /\ shown (snd (processTab env w))
     = [stepFor Sample.formPage Sample.fresh Sample.fullName type].
Proof.
  apply (proj1 (proj2 (proj2 (llm_failure_falls_back Sample.formPage 500 JsonRejects eq_refl)))
           (Sample.env Sample.formPage (Response 500 JsonRejects))
           (Sample.world (Sample.session "apply for driver's license" 1 None [] llm)));
    reflexivity.
Defined.

(** C4, as stated, fails when the step of [heuristicPlan] is stuck.  The
    last three records carry the text "Submit" under other selectors; the
    model answers with status 500; [heuristicPlan] proposes the Submit
    button of the page; [isStuck] rejects it, and the pass stores no step
    and sends the stuck notice. *)
Lemma llm_failure_counterexample :
  let s := Sample.session "submit the form" 4 None
             [Sample.record 1 "#a" "Submit"; Sample.record 2 "#b" "Submit";
              Sample.record 3 "#c" "Submit"] llm in
  let r := processTab (Sample.env Sample.submitPage (Response 500 JsonRejects))
                      (Sample.world s) in
  heuristicPlan Sample.submitPage s
  = Some (stepFor Sample.submitPage s Sample.submitOutside click)
  /\ current (state (fst r)) = None
  /\ shown (snd r) = []
  /\ In (broadcast (ERROR STUCK_MSG)) (snd r).
Proof.
  vm_compute. repeat split. now left.
Qed.

End FallbackClaims.

(** ** Stuck candidates *)

Section StuckDetection.
Import SessionState World Worker.




End StuckDetection.

(** ** One run of [processTab] at a time *)

Section Guard.
Import SessionState World Worker.

Lemma inPass_retire (s : SessionState) (l : list Task) :
  filter inPass (map (retire s) l) = map (retire s) (filter inPass l).
Proof.
  induction l as [|t l IH]; [reflexivity|]. cbn [map filter].
  replace (inPass (retire s t)) with (inPass t)
    by (destruct t as [| |a p [|s0] c| | | |]; reflexivity).
  destruct (inPass t); cbn [map]; now rewrite IH.
Qed.

Lemma onMessage_processing (msg : Message) (w : World) :
  processing (fst (onMessage msg w)) = processing w.
Proof.
  destruct msg; try reflexivity; cbn [onMessage].
  - cbn [fst]. apply closeCurrent_processing.
  - destruct (negb (active (state w))); cbn [fst]; [reflexivity|].
    apply closeCurrent_processing.
  - now destruct (negb (active (state w))).
Qed.

Lemma listen_passes (msg : Message) (m : Worker) :
  passesInFlight (fst (listen msg m)) = passesInFlight m.
Proof.
  unfold passesInFlight.
  destruct msg; try reflexivity; unfold listen; cbv zeta; cbn [fst pending].
  - rewrite filter_app, length_app, inPass_retire, length_map. cbn. lia.
  - rewrite filter_app, length_app, inPass_retire, length_map. cbn. lia.
  - rewrite filter_app, length_app. cbn. lia.
  - destruct (negb (active (state (vars m)))); cbn [fst pending]; [reflexivity|].
    rewrite filter_app, length_app. cbn. lia.
  - now destruct (negb (active (state (vars m)))).
Qed.

(** a resumed function keeps [processing] as it is and stays a run of
    [processTab] or not, or it is a run of [processTab] that ends and
    clears [processing] *)
Lemma resume_guard (t : Task) (ans : Answer) (w w' : World) (out : list Effect)
    (next : list Task) :
  resume t ans w = Some (w', out, next) ->
  (processing w' = processing w
   /\ List.length (filter inPass next) = if inPass t then 1%nat else 0%nat)
  \/ (inPass t = true /\ processing w' = false /\ filter inPass next = []).
Proof.
  assert (Hcommit : forall a cand,
            commit a w cand = (w', out, next) ->
            (processing w' = processing w
             /\ List.length (filter inPass next)
                = match a with inTry => 1%nat | inRetry => 0%nat end)
            \/ (a = inTry /\ processing w' = false /\ filter inPass next = [])).
  { intros a cand. destruct a, cand as [st|]; unfold commit, commitTry, commitRetry;
      cbv zeta.
    - destruct (isStuck (state w) st).
      + destruct (negb (completed (state w))); intros [= <- <- <-]; cbn; auto.
      + intros [= <- <- <-]; cbn; auto.
    - destruct (negb (completed (state w))); intros [= <- <- <-]; cbn; auto.
    - intros [= <- <- <-]; cbn; auto.
    - intros [= <- <- <-]; cbn; auto. }
  assert (Hplan : forall a page,
            planCalled a w page = (w', out, next) ->
            (processing w' = processing w
             /\ List.length (filter inPass next)
                = match a with inTry => 1%nat | inRetry => 0%nat end)
            \/ (a = inTry /\ processing w' = false /\ filter inPass next = [])).
  { intros a page. unfold planCalled. destruct (llmEnabled w) as [cfg|].
    - intros [= <- <- <-]. left. now destruct a.
    - apply Hcommit. }
  destruct t as [|[|]|a page r cfg|k| |[|]|]; destruct ans as [tab|reply|io| |ok|];
    cbn [resume]; try discriminate.
  - destruct (negb (tabOk tab)); intros [= <- <- <-]; cbn; auto.
  - destruct reply as [| |page]; cbn [thrown].
    + intros [= <- <- <-]; cbn; auto.
    + intros [= <- <- <-]; cbn; auto.
    + destruct ((1 <? step (state w)) && isSuccessPage page)%bool.
      * intros [= <- <- <-]; cbn; auto.
      * intros [= H]. destruct (Hplan inTry page H) as [H'|[_ H']]; cbn; auto.
  - destruct reply as [| |page]; cbn [thrown].
    + intros [= <- <- <-]; cbn; auto.
    + intros [= <- <- <-]; cbn; auto.
    + intros [= H]. destruct (Hplan inRetry page H) as [H'|[H' _]];
        [cbn; auto | discriminate H'].
  - destruct (planResumed w page r cfg io) as [cand|name].
    + intros [= H]. destruct (Hcommit a cand H) as [H'|[-> H']]; cbn; auto.
      left. now destruct a.
    + destruct a; cbn [thrown]; intros [= <- <- <-]; cbn; auto.
  - destruct k as [|[|] st| | |]; intros [= <- <- <-]; cbn; auto.
  - intros [= <- <- <-]; cbn; auto.
  - destruct ok; cbn [thrown]; intros [= <- <- <-]; cbn; auto.
  - destruct ok; cbn [thrown]; intros [= <- <- <-]; cbn; auto.
  - intros [= <- <- <-]; cbn; auto.
Qed.

Lemma guarded_tick (t : Tick) (m : Worker) : guarded m -> guarded (fst (tick t m)).
Proof.
  unfold guarded. intros Hg. destruct t as [msg|frameId| |n ans]; cbn [tick].
  - now rewrite listen_passes, listen_vars, onMessage_processing.
  - unfold onNavigationCompleted.
    destruct (negb (frameId =? 0)); [exact Hg|].
    destruct (negb (active (state (vars m)))); exact Hg.
  - destruct (processTabRuns (vars m)) eqn:Hr; [|exact Hg].
    unfold processTabRuns in Hr. apply andb_true_iff in Hr. destruct Hr as [_ Hr].
    destruct (processing (vars m)); [discriminate Hr|].
    unfold passesInFlight in *. cbn [fst vars pending setProcessing processing].
    rewrite filter_app, length_app, Hg. reflexivity.
  - destruct (nth_error (pending m) n) as [t|] eqn:Hn; [|exact Hg].
    destruct (resume t ans (vars m)) as [[[w' out] next]|] eqn:Hr; [|exact Hg].
    unfold passesInFlight in *. cbn [fst vars pending].
    pose proof (count_replaceAt inPass n next (pending m) t Hn) as Hc.
    assert (Hin : inPass t = true -> processing (vars m) = true).
    { intros Ht. destruct (processing (vars m)); [reflexivity|].
      assert (Hx : In t (filter inPass (pending m))).
      { apply filter_In. split; [exact (nth_error_In _ _ Hn) | exact Ht]. }
      destruct (filter inPass (pending m)); [destruct Hx | discriminate Hg]. }
    destruct (resume_guard t ans (vars m) w' out next Hr) as [[Hp Hl]|[Ht [Hp Hl]]].
    + rewrite Hp. destruct (inPass t) eqn:Ht.
      * rewrite (Hin eq_refl) in Hg |- *. lia.
      * destruct (processing (vars m)); lia.
    + rewrite Hp. rewrite Ht, Hl in Hc. rewrite (Hin Ht) in Hg. cbn in Hc. lia.
Qed.

Lemma processing_listener (t : Tick) (m : Worker) :
  isListener t = true ->
  processing (vars m) = true ->
  processing (vars (fst (tick t m))) = true.
Proof.
  intros Ht Hp. destruct t as [msg|frameId| |n ans]; cbn [tick]; try discriminate Ht.
  - now rewrite listen_vars, onMessage_processing.
  - unfold onNavigationCompleted.
    destruct (negb (frameId =? 0)); [exact Hp|].
    destruct (negb (active (state (vars m)))); exact Hp.
  - unfold processTabRuns. rewrite Hp, andb_false_r. exact Hp.
Qed.

(** X11.  One run of [processTab] at a time.  In a worker that starts with
    [processing] set exactly when a run is in flight, this stays so over
    every sequence of events, await by await: at most one run of
    [processTab] is between its entry and its [finally] block, and
    [processing] is set exactly then.  A call of [processTab] that arrives
    meanwhile changes nothing and sends nothing; as long as no await
    settles, [processing] stays set, so every call is dropped.  The retry of
    the [catch] block is outside this guard: resuming it, or the [.then] of
    a listener, leaves [processing] as it is. *)
Theorem single_pass_in_flight :
  (forall ts m, guarded m ->
     let m' := fst (ticks ts m) in
     (passesInFlight m' <= 1)%nat
     /\ (processing (vars m') = true <-> passesInFlight m' = 1%nat))
  /\ (forall m, processing (vars m) = true -> tick Called m = (m, []))
  /\ (forall ts m, processing (vars m) = true -> forallb isListener ts = true ->
        processing (vars (fst (ticks ts m))) = true)
  /\ (forall m n t ans, nth_error (pending m) n = Some t -> inPass t = false ->
        processing (vars (fst (tick (Settled n ans) m))) = processing (vars m)).
Proof.
  split; [|split; [|split]].
  - intros ts m Hg. cbv zeta.
    assert (H : guarded (fst (ticks ts m))).
    { revert m Hg. induction ts as [|t ts IH]; intros m Hg; [exact Hg|].
      rewrite ticks_cons. apply IH. now apply guarded_tick. }
    unfold guarded in H. destruct (processing (vars (fst (ticks ts m)))); rewrite H.
    + split; [lia|]. split; auto.
    + split; [lia|]. split; intros; discriminate.
  - intros m Hp. cbn [tick]. unfold processTabRuns. now rewrite Hp, andb_false_r.
  - intros ts. induction ts as [|t ts IH]; intros m Hp Hts; [exact Hp|].
    cbn [forallb] in Hts. apply andb_true_iff in Hts. destruct Hts as [Ht Hts].
    rewrite ticks_cons. apply IH; [|exact Hts]. now apply processing_listener.
  - intros m n t ans Hn Ht. cbn [tick]. rewrite Hn.
    destruct (resume t ans (vars m)) as [[[w' out] next]|] eqn:Hr; [|reflexivity].
    destruct (resume_guard t ans (vars m) w' out next Hr) as [[Hp _]|[Ht' _]].
    + exact Hp.
    + congruence.
Qed.

Lemma single_pass_in_flight_witness :
  let m' := fst (ticks [Heard (START "apply for driver's license" heuristic);
                        Settled 0 stateSaved; Called; Heard RESCAN; Called]
                       (settled Sample.freshWorker)) in
  (passesInFlight m' <= 1)%nat
  /\ (processing (vars m') = true <-> passesInFlight m' = 1%nat).
Proof.
  apply (proj1 single_pass_in_flight
           [Heard (START "apply for driver's license" heuristic);
            Settled 0 stateSaved; Called; Heard RESCAN; Called]
           (settled Sample.freshWorker)).
  reflexivity.
Defined.

End Guard.

(** ** Saving the session *)

Section Saved.
Import SessionState World Worker.

Lemma awaitsWrite_retire (s : SessionState) (l : list Task) :
  List.length (filter awaitsWrite (map (retire s) l)) = List.length (filter awaitsWrite l).
Proof.
  induction l as [|t l IH]; [reflexivity|]. cbn [map filter].
  replace (awaitsWrite (retire s t)) with (awaitsWrite t)
    by (destruct t as [| |a p [|s0] c| | | |]; reflexivity).
  destruct (awaitsWrite t); cbn [List.length]; now rewrite IH.
Qed.

Lemma resume_saves (t : Task) (ans : Answer) (w w' : World) (out : list Effect)
    (next : list Task) :
  resume t ans w = Some (w', out, next) ->
  state w' <> state w ->
  In (saveState (state w')) out
  /\ awaitsWrite t = false
  /\ List.length (filter awaitsWrite next) = 1%nat.
Proof.
  assert (Hcommit : forall a cand,
            commit a w cand = (w', out, next) -> state w' <> state w ->
            In (saveState (state w')) out
            /\ List.length (filter awaitsWrite next) = 1%nat).
  { intros a cand. destruct a, cand as [st|]; unfold commit, commitTry, commitRetry;
      cbv zeta.
    - destruct (isStuck (state w) st).
      + destruct (negb (completed (state w))); intros [= <- <- <-] Hne; cbn; auto.
        now contradiction Hne.
      + intros [= <- <- <-] _; cbn; auto.
    - destruct (negb (completed (state w))); intros [= <- <- <-] Hne; cbn; auto.
      now contradiction Hne.
    - intros [= <- <- <-] _; cbn; auto.
    - intros [= <- <- <-] Hne. now contradiction Hne. }
  assert (Hplan : forall a page,
            planCalled a w page = (w', out, next) -> state w' <> state w ->
            In (saveState (state w')) out
            /\ List.length (filter awaitsWrite next) = 1%nat).
  { intros a page. unfold planCalled. destruct (llmEnabled w) as [cfg|].
    - intros [= <- <- <-] Hne. now contradiction Hne.
    - apply Hcommit. }
  assert (Hsame : forall (b : bool) (o : list Effect) (nx : list Task),
            Some (setProcessing w b, o, nx) = Some (w', out, next) ->
            state w' <> state w -> False).
  { intros b o nx [= <- _ _] Hne. now apply Hne. }
  assert (Hkeep : forall (o : list Effect) (nx : list Task),
            Some (w, o, nx) = Some (w', out, next) -> state w' <> state w -> False).
  { intros o nx [= <- _ _] Hne. now apply Hne. }
  destruct t as [|[|]|a page r cfg|k| |[|]|]; destruct ans as [tab|reply|io| |ok|];
    cbn [resume]; try discriminate.
  - destruct (negb (tabOk tab)); intros H Hne; exfalso; eauto.
  - destruct reply as [| |page]; cbn [thrown]; try (intros H Hne; exfalso; now eauto).
    destruct ((1 <? step (state w)) && isSuccessPage page)%bool.
    + intros [= <- <- <-] _. cbn. auto.
    + intros [= H] Hne. destruct (Hplan inTry page H Hne). auto.
  - destruct reply as [| |page]; cbn [thrown]; try (intros H Hne; exfalso; now eauto).
    intros [= H] Hne. destruct (Hplan inRetry page H Hne). auto.
  - destruct (planResumed w page r cfg io) as [cand|name].
    + intros [= H] Hne. destruct (Hcommit a cand H Hne). auto.
    + destruct a; cbn [thrown]; intros H Hne; exfalso; eauto.
  - destruct k; intros H Hne; exfalso; eauto.
  - intros H Hne; exfalso; eauto.
  - destruct ok; cbn [thrown]; intros H Hne; exfalso; eauto.
  - destruct ok; cbn [thrown]; intros H Hne; exfalso; eauto.
  - intros H Hne; exfalso; eauto.
Qed.

(** X19.  Every change of the session is written to storage in the turn of
    the event loop that makes it: whenever a listener or a resumed function
    leaves the session different from what it was, it has called
    [saveState] on the new session, and one more write is awaited.  The
    STATE message follows when the write resolves and carries the session
    as it is by then, which is left as it is. *)
Theorem session_changes_are_saved :
  (forall t m,
     state (vars (fst (tick t m))) <> state (vars m) ->
     In (saveState (state (vars (fst (tick t m))))) (snd (tick t m))
     /\ writesAwaited (fst (tick t m)) = S (writesAwaited m))
  /\ (forall m n k,
        nth_error (pending m) n = Some (atSaveState k) ->
        In (broadcast (STATE (state (vars m)))) (snd (tick (Settled n stateSaved) m))
        /\ state (vars (fst (tick (Settled n stateSaved) m))) = state (vars m)
        /\ writesAwaited (fst (tick (Settled n stateSaved) m)) = pred (writesAwaited m)).
Proof.
  split.
  - intros t m. unfold writesAwaited. destruct t as [msg|frameId| |n ans]; cbn [tick].
    + destruct msg; try (intros H; now contradiction H); unfold listen; cbv zeta;
        cbn [fst snd vars pending].
      * intros _. split; [now left|].
        rewrite filter_app, length_app, awaitsWrite_retire. cbn. lia.
      * intros _. split; [now left|].
        rewrite filter_app, length_app, awaitsWrite_retire. cbn. lia.
      * intros _. split; [now left|]. rewrite filter_app, length_app. cbn. lia.
      * destruct (negb (active (state (vars m)))); cbn [fst snd vars pending];
          [intros H; now contradiction H|].
        intros _. split; [now left|]. rewrite filter_app, length_app. cbn. lia.
      * destruct (negb (active (state (vars m)))); intros H; now contradiction H.
    + unfold onNavigationCompleted.
      destruct (negb (frameId =? 0)); [intros H; now contradiction H|].
      destruct (negb (active (state (vars m)))); intros H; now contradiction H.
    + destruct (processTabRuns (vars m)); intros H; now contradiction H.
    + destruct (nth_error (pending m) n) as [t|] eqn:Hn; [|intros H; now contradiction H].
      destruct (resume t ans (vars m)) as [[[w' out] next]|] eqn:Hr;
        [|intros H; now contradiction H].
      cbn [fst snd vars pending]. intros Hne.
      destruct (resume_saves t ans (vars m) w' out next Hr Hne) as [Hin [Ht Hl]].
      split; [exact Hin|].
      pose proof (count_replaceAt awaitsWrite n next (pending m) t Hn) as Hc.
      rewrite Ht, Hl in Hc. lia.
  - intros m n k Hn. unfold writesAwaited. cbn [tick]. rewrite Hn. cbn [resume].
    assert (Hpos : (0 < List.length (filter awaitsWrite (pending m)))%nat).
    { assert (Hx : In (atSaveState k) (filter awaitsWrite (pending m))).
      { apply filter_In. split; [exact (nth_error_In _ _ Hn) | reflexivity]. }
      destruct (filter awaitsWrite (pending m)); [destruct Hx | cbn; lia]. }
    destruct k as [|a st| |delay|]; cbn [fst snd vars pending];
      (split; [now left|]); (split; [reflexivity|]);
      match goal with
      | |- context [replaceAt n ?next (pending m)] =>
          pose proof (count_replaceAt awaitsWrite n next (pending m) _ Hn) as Hc
      end; cbn in Hc; lia.
Qed.

Lemma session_changes_are_saved_witness :
  let m := settled (Sample.world
                      (Sample.session "apply for driver's license" 3
                         (Some (stepFor Sample.formPage Sample.fresh Sample.fullName type))
                         [] heuristic)) in
  In (saveState (state (vars (fst (tick (Heard SKIP) m))))) (snd (tick (Heard SKIP) m))
  /\ writesAwaited (fst (tick (Heard SKIP) m)) = S (writesAwaited m).
Proof.
  apply (proj1 session_changes_are_saved (Heard SKIP)
           (settled (Sample.world
                       (Sample.session "apply for driver's license" 3
                          (Some (stepFor Sample.formPage Sample.fresh Sample.fullName type))
                          [] heuristic)))).
  vm_compute. discriminate.
Defined.

End Saved.

(** ** The session, await by await *)

Section SessionBetween.
Import SessionState World Worker.

(** a resumed function writes [current] and [completed] only, and never
    clears [completed] *)
Lemma resume_frame (t : Task) (ans : Answer) (w w' : World) (out : list Effect)
    (next : list Task) :
  resume t ans w = Some (w', out, next) ->
  sameButCurrentCompleted (state w) (state w')
  /\ (completed (state w) = true -> completed (state w') = true).
Proof.
  assert (Hkeep : forall (b : bool) (o : list Effect) (nx : list Task),
            Some (setProcessing w b, o, nx) = Some (w', out, next) ->
            sameButCurrentCompleted (state w) (state w')
            /\ (completed (state w) = true -> completed (state w') = true)).
  { intros b o nx [= <- _ _]. split; [apply same_refl | auto]. }
  assert (Hsame : forall (o : list Effect) (nx : list Task),
            Some (w, o, nx) = Some (w', out, next) ->
            sameButCurrentCompleted (state w) (state w')
            /\ (completed (state w) = true -> completed (state w') = true)).
  { intros o nx [= <- _ _]. split; [apply same_refl | auto]. }
  assert (Hcommit : forall a cand,
            commit a w cand = (w', out, next) ->
            sameButCurrentCompleted (state w) (state w')
            /\ (completed (state w) = true -> completed (state w') = true)).
  { intros a cand. destruct a, cand as [st|]; unfold commit, commitTry, commitRetry;
      cbv zeta.
    - destruct (isStuck (state w) st).
      + destruct (negb (completed (state w))); intros [= <- _ _];
          (split; [repeat split | auto]).
      + intros [= <- _ _]. split; [repeat split | auto].
    - destruct (negb (completed (state w))); intros [= <- _ _];
        (split; [repeat split | auto]).
    - intros [= <- _ _]. split; [repeat split | auto].
    - intros [= <- _ _]. split; [repeat split | auto]. }
  assert (Hplan : forall a page,
            planCalled a w page = (w', out, next) ->
            sameButCurrentCompleted (state w) (state w')
            /\ (completed (state w) = true -> completed (state w') = true)).
  { intros a page. unfold planCalled. destruct (llmEnabled w) as [cfg|].
    - intros [= <- _ _]. split; [apply same_refl | auto].
    - apply Hcommit. }
  destruct t as [|[|]|a page r cfg|k| |[|]|]; destruct ans as [tab|reply|io| |ok|];
    cbn [resume]; try discriminate.
  - destruct (negb (tabOk tab)); intros H; eauto.
  - destruct reply as [| |page]; cbn [thrown]; try (intros H; now eauto).
    destruct ((1 <? step (state w)) && isSuccessPage page)%bool.
    + intros [= <- _ _]. split; [repeat split | reflexivity].
    + intros [= H]. eauto.
  - destruct reply as [| |page]; cbn [thrown]; try (intros H; now eauto).
    intros [= H]. eauto.
  - destruct (planResumed w page r cfg io) as [cand|name].
    + intros [= H]. eauto.
    + destruct a; cbn [thrown]; intros H; eauto.
  - destruct k; intros H; eauto.
  - intros H; eauto.
  - destruct ok; cbn [thrown]; intros H; eauto.
  - destruct ok; cbn [thrown]; intros H; eauto.
  - intros H; eauto.
Qed.

Lemma tick_frame (t : Tick) (m : Worker) :
  (forall msg, t <> Heard msg) ->
  sameButCurrentCompleted (state (vars m)) (state (vars (fst (tick t m))))
  /\ (completed (state (vars m)) = true ->
      completed (state (vars (fst (tick t m)))) = true).
Proof.
  intros Ht. destruct t as [msg|frameId| |n ans]; cbn [tick].
  - now contradiction (Ht msg).
  - unfold onNavigationCompleted.
    destruct (negb (frameId =? 0)); [split; [apply same_refl | auto]|].
    destruct (negb (active (state (vars m)))); split; try apply same_refl; auto.
  - destruct (processTabRuns (vars m)); split; try apply same_refl; auto.
  - destruct (nth_error (pending m) n) as [t|]; [|split; [apply same_refl | auto]].
    destruct (resume t ans (vars m)) as [[[w' out] next]|] eqn:Hr;
      [|split; [apply same_refl | auto]].
    exact (resume_frame t ans (vars m) w' out next Hr).
Qed.

Lemma tick_session (t : Tick) (m : Worker) :
  replacesTick t = false ->
  (completed (state (vars m)) = true ->
   completed (state (vars (fst (tick t m)))) = true)
  /\ step (state (vars m)) <= step (state (vars (fst (tick t m))))
  /\ exists added,
       history (state (vars (fst (tick t m)))) = (history (state (vars m)) ++ added)%list.
Proof.
  intros Hr. destruct t as [msg|frameId| |n ans].
  - cbn [tick]. rewrite listen_vars.
    assert (Hr' : replacesSession (Received msg) = false) by (now destruct msg).
    destruct (handle_frame (Received msg) (vars m) Hr') as [Hc _].
    pose proof (handle_step (Received msg) (vars m) Hr') as Hs.
    destruct (handle_history (Received msg) (vars m) Hr') as [added [Hh _]].
    unfold after in Hc, Hs, Hh. cbn [handle] in Hc, Hs, Hh.
    split; [exact Hc|]. split.
    + rewrite Hs. destruct (closesStep (Received msg) (vars m)); lia.
    + eauto.
  - destruct (tick_frame (PageLoaded frameId) m) as [[_ [_ [Hs [Hh _]]]] Hc];
      [discriminate|].
    split; [exact Hc|]. split; [lia|]. exists []. now rewrite app_nil_r.
  - destruct (tick_frame Called m) as [[_ [_ [Hs [Hh _]]]] Hc]; [discriminate|].
    split; [exact Hc|]. split; [lia|]. exists []. now rewrite app_nil_r.
  - destruct (tick_frame (Settled n ans) m) as [[_ [_ [Hs [Hh _]]]] Hc]; [discriminate|].
    split; [exact Hc|]. split; [lia|]. exists []. now rewrite app_nil_r.
Qed.

(** X25.  The session, await by await.  A function resumed at one of its
    awaits, a call of [processTab] and a page load leave goal, [active],
    step, history and mode as they are, and never clear [completed]; what a
    message does to the variables is what [handle] says.  So over every
    sequence of listeners and settled awaits without START and STOP,
    however they interleave, [completed] stays set once it is set, the step
    counter never decreases and the history only grows. *)
Theorem between_awaits_session :
  (forall t m,
     (forall msg, t <> Heard msg) ->
     let s := state (vars m) in
     let s' := state (vars (fst (tick t m))) in
     goal s' = goal s /\ active s' = active s /\ step s' = step s
     /\ history s' = history s /\ mode s' = mode s
     /\ (completed s = true -> completed s' = true))
  /\ (forall msg m,
        vars (fst (tick (Heard msg) m)) = fst (handle (Received msg) (vars m)))
  /\ (forall ts m,
        forallb (fun t => negb (replacesTick t)) ts = true ->
        let s := state (vars m) in
        let s' := state (vars (fst (ticks ts m))) in
        (completed s = true -> completed s' = true)
        /\ step s <= step s'
        /\ exists added, history s' = (history s ++ added)%list).
Proof.
  split; [|split].
  - intros t m Ht. cbv zeta.
    destruct (tick_frame t m Ht) as [[H1 [H2 [H3 [H4 H5]]]] H6]. auto 10.
  - intros msg m. cbn [tick handle]. apply listen_vars.
  - intros ts. induction ts as [|t ts IH]; intros m Hts; cbv zeta.
    + split; [auto|]. split; [cbn; lia|]. exists []. cbn. now rewrite app_nil_r.
    + cbn [forallb] in Hts. apply andb_true_iff in Hts. destruct Hts as [Ht Hts].
      rewrite ticks_cons.
      destruct (tick_session t m) as [Hc [Hs [a1 Hh]]]; [now destruct (replacesTick t)|].
      destruct (IH (fst (tick t m)) Hts) as [Hc' [Hs' [a2 Hh']]].
      split; [auto|]. split; [lia|].
      exists (a1 ++ a2)%list. now rewrite Hh', Hh, app_assoc.
Qed.


Lemma between_awaits_session_witness :
  let m := settled (Sample.world
                      (Sample.session "apply for driver's license" 3
                         (Some (stepFor Sample.formPage Sample.fresh Sample.fullName type))
                         [] heuristic)) in
  let ts := [Called; Heard (ACTION_DONE type);
             Settled 0 (tabFound (Some (Some "https://dmv.example/apply")));
             Settled 0 (extracted (ExtractPage Sample.formPage))] in
  let s := state (vars m) in
  let s' := state (vars (fst (ticks ts m))) in
  (completed s = true -> completed s' = true)
  /\ step s <= step s'
  /\ exists added, history s' = (history s ++ added)%list.
Proof.
  apply (proj2 (proj2 between_awaits_session)
           [Called; Heard (ACTION_DONE type);
            Settled 0 (tabFound (Some (Some "https://dmv.example/apply")));
            Settled 0 (extracted (ExtractPage Sample.formPage))]
           (settled (Sample.world
                       (Sample.session "apply for driver's license" 3
                          (Some (stepFor Sample.formPage Sample.fresh Sample.fullName type))
                          [] heuristic)))).
  reflexivity.
Defined.

End SessionBetween.

(** ** Runs that nothing interrupts *)

Section UninterruptedRuns.
Import SessionState World Worker.

Local Arguments heuristicPlan : simpl never.
Local Arguments llmPlan : simpl never.
Local Arguments isStuck : simpl never.
Local Arguments isSuccessPage : simpl never.
Local Arguments isRestrictedUrl : simpl never.
Local Arguments llmEnabled : simpl never.
Local Arguments Z.ltb : simpl never.
Local Arguments tabOk : simpl never.

Lemma llmEnabled_processing (w : World) (b : bool) :
  llmEnabled (setProcessing w b) = llmEnabled w.
Proof. reflexivity. Qed.

Lemma passAlone_processTab (env : PassEnv) (w : World) :
  ticks (passAlone env) (settled w)
  = ({| vars := fst (processTab env w);
        pending := if retryScheduled (snd (processTab env w)) then [atRetryTimer] else [] |},
     snd (processTab env w)).
Proof.
  unfold passAlone, settled, processTab, processTabEnter.
  destruct env as [tab ext io ok].
  cbn [PassEnv.tab PassEnv.extract PassEnv.fetch PassEnv.showDelivered].
  cbn [ticks tick vars pending].
  destruct (processTabRuns w) eqn:Hruns; [|reflexivity].
  destruct (processTabRuns_open w Hruns) as [_ [Hc _]].
  unfold processTabBody, processTabTry, tabAllowed.
  cbn [PassEnv.tab PassEnv.extract PassEnv.fetch PassEnv.showDelivered].
  change (match tab with Some url => negb (isRestrictedUrl url) | None => false end)
    with (tabOk tab).
  cbn. destruct (tabOk tab); cbn; [|reflexivity].
  destruct ext as [| |page]; cbn; try reflexivity.
  destruct ((1 <? step (state w)) && isSuccessPage page)%bool; cbn; [reflexivity|].
  unfold planCalled, plan. rewrite llmEnabled_processing.
  destruct (llmEnabled w) as [cfg|]; cbn.
  - unfold planResumed. cbn.
    destruct (llmPlan page (state w) cfg io) as [[st|]|name]; cbn; try reflexivity.
    + unfold commitTry. cbn.
      destruct (isStuck (state w) st); cbn.
      * rewrite Hc. reflexivity.
      * destruct ok; reflexivity.
    + unfold commitTry. cbn.
      destruct (heuristicPlan page (state w)) as [st|]; cbn.
      * destruct (isStuck (state w) st); cbn.
        -- rewrite Hc. reflexivity.
        -- destruct ok; reflexivity.
      * rewrite Hc. reflexivity.
  - unfold commitTry. cbn.
    destruct (heuristicPlan page (state w)) as [st|]; cbn.
    + destruct (isStuck (state w) st); cbn.
      * rewrite Hc. reflexivity.
      * destruct ok; reflexivity.
    + rewrite Hc. reflexivity.
Qed.

Lemma retryAlone_retryPass (env : PassEnv) (w : World) :
  ticks (retryAlone env) {| vars := w; pending := [atRetryTimer] |}
  = (settled (fst (retryPass env w)), snd (retryPass env w)).
Proof.
  unfold retryAlone, settled, retryPass.
  destruct env as [tab ext io ok].
  cbn [PassEnv.tab PassEnv.extract PassEnv.fetch PassEnv.showDelivered].
  cbn. destruct ext as [| |page]; cbn; try reflexivity.
  unfold planCalled, plan.
  destruct (llmEnabled w) as [cfg|]; cbn.
  - unfold planResumed. cbn.
    destruct (llmPlan page (state w) cfg io) as [[st|]|name]; cbn; try reflexivity.
    + destruct ok; reflexivity.
    + destruct (heuristicPlan page (state w)) as [st|]; cbn; [|reflexivity].
      destruct ok; reflexivity.
  - destruct (heuristicPlan page (state w)) as [st|]; cbn; [|reflexivity].
    destruct ok; reflexivity.
Qed.

(** X24.  A run of [processTab] during which the event loop runs nothing
    else is the run that [processTab] describes in one step: entering and
    then answering its awaits one after the other leaves the variables, and
    sends the effects in the order, that [processTab] gives, and leaves
    nothing pending but the timer of the retry when the [catch] block has
    set it.  The same holds for the retry and [retryPass]. *)
Theorem uninterrupted_pass (env : PassEnv) (w : World) :
  (vars (fst (ticks (passAlone env) (settled w))) = fst (processTab env w)
   /\ snd (ticks (passAlone env) (settled w)) = snd (processTab env w)
   /\ pending (fst (ticks (passAlone env) (settled w)))
      = if retryScheduled (snd (processTab env w)) then [atRetryTimer] else [])
  /\
  (vars (fst (ticks (retryAlone env) {| vars := w; pending := [atRetryTimer] |}))
   = fst (retryPass env w)
   /\ snd (ticks (retryAlone env) {| vars := w; pending := [atRetryTimer] |})
      = snd (retryPass env w)
   /\ pending (fst (ticks (retryAlone env) {| vars := w; pending := [atRetryTimer] |})) = []).
Proof.
  rewrite passAlone_processTab, retryAlone_retryPass. repeat split.
Qed.
End UninterruptedRuns.
